(** * Date aggregation and streak calculation of the progress tracker

    A shallow embedding of [src/lib/utils.ts]: the seven bucketizers
    ([getDailyData] ... [getYearlyData]), [handleDisable],
    [calculateStreaks], [isConsecutive] and [isValidStreak], together with
    the part of the JavaScript [Date] object and of the date-fns library
    they call, followed by the properties of the specification.  The
    helpers [createSlug], [formatDate], [extractWebsiteName] and
    [isValidUrl] are embedded as well, the last two over an arbitrary URL
    parser; further properties of all these functions close the file.

    Conventions of the model.
    - A [Date] is a local civil date-time: year, 0-based month, day of the
      month and the milliseconds elapsed since local midnight; time stamps
      are local ([getTime]), and dates are compared by them.  Every function
      but [getYearlyData] keeps its dates at midnight or bounds its loop by
      the end of a year, and is modelled in a zone with a fixed offset from
      UTC.  The loop of [getYearlyData] is bounded by the midnight of the
      latest date itself, which daylight saving can make it miss: that
      function takes the zone as an argument ([Zone]).
    - "now" ([new Date()], [Date.now()]) is an explicit argument [now]; the
      zone offset needed by the UTC getters is an explicit argument [tz]
      (minutes, as [Date.prototype.getTimezoneOffset] returns it).
    - [parseISO] recognises the day-precision calendar form [YYYY-MM-DD]
      with a year in 1..9999; on any other string it answers [None], and a
      function that meets such a string answers [None] as well: the input is
      then outside the modelled fragment.
    - An object used as a map from integers is an association list kept in
      ascending key order, which is the order in which [Object.values]
      enumerates integer keys. *)

From Stdlib Require Import ZArith List String Ascii Bool Lia Sorted Permutation.
From Stdlib Require Import DecimalString.
Import ListNotations.
Open Scope Z_scope.

(* ================================================================= *)
(** ** The civil calendar behind [Date] *)

Module Calendar.

Definition isLeapYear (y : Z) : bool :=
  ((y mod 4 =? 0) && negb (y mod 100 =? 0)) || (y mod 400 =? 0).

(** Days of the month [m] (0-based) of year [y]. *)
Definition daysInMonth (y m : Z) : Z :=
  match m with
  | 1 => if isLeapYear y then 29 else 28
  | 3 | 5 | 8 | 10 => 30
  | _ => 31
  end.

Definition daysInYear (y : Z) : Z := if isLeapYear y then 366 else 365.

(** Days between 1970-01-01 and January 1st of year [y]. *)
Definition daysBeforeYear (y : Z) : Z :=
  365 * (y - 1970) + ((y - 1) / 4 - (y - 1) / 100 + (y - 1) / 400) - 477.

(** Days between January 1st and the first of month [m] (0-based). *)
Definition daysBeforeMonth (y m : Z) : Z :=
  match m with
  | 0 => 0
  | 1 => 31
  | _ =>
    (if isLeapYear y then 1 else 0) +
    match m with
    | 2 => 59 | 3 => 90 | 4 => 120 | 5 => 151 | 6 => 181 | 7 => 212
    | 8 => 243 | 9 => 273 | 10 => 304 | _ => 334
    end
  end.

End Calendar.
Import Calendar.

Definition MS_IN_DAY : Z := 86400000.
Definition MS_IN_WEEK : Z := 604800000.

(** The JavaScript [Date], seen through its local getters. *)
Record Date : Type := mkDate {
  getFullYear : Z;   (* Date.prototype.getFullYear *)
  getMonth : Z;      (* Date.prototype.getMonth and date-fns getMonth: 0..11 *)
  getDate : Z;       (* Date.prototype.getDate: 1..31 *)
  msOfDay : Z        (* milliseconds since local midnight *)
}.

(** The dates a [Date] object can hold. *)
Definition date_ok (d : Date) : bool :=
  (0 <=? getMonth d) && (getMonth d <=? 11) &&
  (1 <=? getDate d) && (getDate d <=? daysInMonth (getFullYear d) (getMonth d)) &&
  (0 <=? msOfDay d) && (msOfDay d <? MS_IN_DAY).

(** Days since 1970-01-01 of the local calendar day. *)
Definition dayNumber (d : Date) : Z :=
  daysBeforeYear (getFullYear d) + daysBeforeMonth (getFullYear d) (getMonth d)
  + (getDate d - 1).

(** [Date.prototype.getTime], in local milliseconds. *)
Definition getTime (d : Date) : Z := dayNumber d * MS_IN_DAY + msOfDay d.

(** [Date.prototype.getDay]: 0 is Sunday; 1970-01-01 was a Thursday. *)
Definition getDay (d : Date) : Z := (dayNumber d + 4) mod 7.

(** The calendar successor and predecessor, which is what
    [setDate(getDate() + 1)] and [setDate(getDate() - 1)] compute. *)
Definition next_day (d : Date) : Date :=
  let y := getFullYear d in
  let m := getMonth d in
  if getDate d <? daysInMonth y m then mkDate y m (getDate d + 1) (msOfDay d)
  else if m <? 11 then mkDate y (m + 1) 1 (msOfDay d)
  else mkDate (y + 1) 0 1 (msOfDay d).

Definition prev_day (d : Date) : Date :=
  let y := getFullYear d in
  let m := getMonth d in
  if 1 <? getDate d then mkDate y m (getDate d - 1) (msOfDay d)
  else if 0 <? m then mkDate y (m - 1) (daysInMonth y (m - 1)) (msOfDay d)
  else mkDate (y - 1) 11 31 (msOfDay d).

(* ================================================================= *)
(** ** The date-fns functions used by the module *)

(** [addDays(date, amount)]: [setDate(getDate() + amount)]. *)
Definition addDays (d : Date) (amount : Z) : Date :=
  if 0 <=? amount then Nat.iter (Z.to_nat amount) next_day d
  else Nat.iter (Z.to_nat (- amount)) prev_day d.

(** Daylight saving.  Where the clocks are set forward, some local times
    of that day do not exist; when [setDate] or [setHours] name such a
    time the engine stores a later one (it reads the fields with the offset
    in force before the change).  A zone is the function from the local
    fields asked for to the local time stored.  Only the loop of
    [getYearlyData] can observe it, in the zones that set their clocks
    forward at midnight (America/Santiago is one). *)
Definition Zone : Type := Date -> Date.

(** A zone with a fixed offset from UTC, or whose clocks change at a time
    of day that the module never asks for. *)
Definition fixedOffset : Zone := fun d => d.

(** A zone whose clocks skip the first [skip] milliseconds of the days
    numbered [days]. *)
Definition skipsMidnight (days : list Z) (skip : Z) : Zone := fun d =>
  if (msOfDay d <? skip) && existsb (Z.eqb (dayNumber d)) days
  then mkDate (getFullYear d) (getMonth d) (getDate d) (msOfDay d + skip)
  else d.

Definition startOfDay (d : Date) : Date :=
  mkDate (getFullYear d) (getMonth d) (getDate d) 0.

Definition startOfYear (d : Date) : Date := mkDate (getFullYear d) 0 1 0.

(** December 31st, 23:59:59.999. *)
Definition endOfYear (d : Date) : Date :=
  mkDate (getFullYear d) 11 31 (MS_IN_DAY - 1).

Definition getYear (d : Date) : Z := getFullYear d.

(** [getQuarter]: [Math.trunc(getMonth() / 3) + 1]. *)
Definition getQuarter (d : Date) : Z := getMonth d / 3 + 1.

Definition startOfQuarter (d : Date) : Date :=
  mkDate (getFullYear d) (getMonth d - getMonth d mod 3) 1 0.

(** [isSameDay(a, b)]: [+startOfDay(a) === +startOfDay(b)]. *)
Definition isSameDay (a b : Date) : bool :=
  getTime (startOfDay a) =? getTime (startOfDay b).

(** [startOfWeek(date, { weekStartsOn: 0 })]. *)
Definition startOfWeek (d : Date) : Date :=
  let weekStartsOn := 0 in
  let day := getDay d in
  let diff := (if day <? weekStartsOn then 7 else 0) + day - weekStartsOn in
  startOfDay (addDays d (- diff)).

(** [getWeekYear(date, { weekStartsOn: 0 })], with the default
    [firstWeekContainsDate] of 1. *)
Definition getWeekYear (d : Date) : Z :=
  let year := getFullYear d in
  let startOfNextYear := startOfWeek (mkDate (year + 1) 0 1 0) in
  let startOfThisYear := startOfWeek (mkDate year 0 1 0) in
  if getTime startOfNextYear <=? getTime d then year + 1
  else if getTime startOfThisYear <=? getTime d then year
  else year - 1.

Definition startOfWeekYear (d : Date) : Date :=
  startOfWeek (mkDate (getWeekYear d) 0 1 0).

(** [Math.round(n / d)] for an integer [n] and a positive integer [d]:
    the nearest integer, halves rounded up. *)
Definition Math_round_div (n d : Z) : Z := (2 * n + d) / (2 * d).

(** [Math.ceil(n / 2)] for an integer [n]. *)
Definition Math_ceil_half (n : Z) : Z := (n + 1) / 2.

(** [getWeek(date, { weekStartsOn: 0 })]. *)
Definition getWeek (d : Date) : Z :=
  let diff := getTime (startOfWeek d) - getTime (startOfWeekYear d) in
  Math_round_div diff MS_IN_WEEK + 1.

Definition isSameWeek (a b : Date) : bool :=
  getTime (startOfWeek a) =? getTime (startOfWeek b).

Definition isSameMonth (a b : Date) : bool :=
  (getFullYear a =? getFullYear b) && (getMonth a =? getMonth b).

Definition isSameQuarter (a b : Date) : bool :=
  getTime (startOfQuarter a) =? getTime (startOfQuarter b).

Definition isSameYear (a b : Date) : bool := getFullYear a =? getFullYear b.

(** The [isThis...] family compares with "now". *)
Definition isToday (now d : Date) : bool := isSameDay d now.
Definition isThisWeek (now d : Date) : bool := isSameWeek d now.
Definition isThisMonth (now d : Date) : bool := isSameMonth now d.
Definition isThisQuarter (now d : Date) : bool := isSameQuarter now d.
Definition isThisYear (now d : Date) : bool := isSameYear d now.

(** The UTC getters: the instant is [tz] minutes later on the UTC clock
    than on the local one. *)
Definition toUTC (tz : Z) (d : Date) : Date :=
  let total := msOfDay d + tz * 60000 in
  let shifted := addDays d (total / MS_IN_DAY) in
  mkDate (getFullYear shifted) (getMonth shifted) (getDate shifted)
         (total mod MS_IN_DAY).

Definition getUTCDate (tz : Z) (d : Date) : Z := getDate (toUTC tz d).
Definition getUTCMonth (tz : Z) (d : Date) : Z := getMonth (toUTC tz d).

(* ----------------------------------------------------------------- *)
(** *** Date strings *)

(** The decimal digits are the characters of codes 48 to 57. *)
Definition digitChar (n : Z) : ascii := ascii_of_nat (Z.to_nat (48 + n)).

Definition charDigit (c : ascii) : option Z :=
  let n := Z.of_nat (nat_of_ascii c) - 48 in
  if (0 <=? n) && (n <=? 9) then Some n else None.

(** [addLeadingZeros(n, 2)] and [addLeadingZeros(n, 4)], for a number
    that fits the width. *)
Definition pad2 (n : Z) : string :=
  String (digitChar (n / 10 mod 10)) (String (digitChar (n mod 10)) EmptyString).

Definition pad4 (n : Z) : string :=
  String (digitChar (n / 1000 mod 10)) (String (digitChar (n / 100 mod 10))
    (pad2 n)).

(** [format(date, "yyyy-MM-dd")], for the years 1..9999. *)
Definition format (d : Date) : string :=
  (pad4 (getFullYear d) ++ "-" ++ pad2 (getMonth d + 1) ++ "-"
     ++ pad2 (getDate d))%string.

Definition digits2 (a b : ascii) : option Z :=
  match charDigit a, charDigit b with
  | Some x, Some y => Some (10 * x + y)
  | _, _ => None
  end.

Definition digits4 (a b c d : ascii) : option Z :=
  match digits2 a b, digits2 c d with
  | Some x, Some y => Some (100 * x + y)
  | _, _ => None
  end.

(** [parseISO] on the calendar form [YYYY-MM-DD]: local midnight of that
    day; [None] stands for every other outcome. *)
Definition parseISO (s : string) : option Date :=
  match s with
  | String y1 (String y2 (String y3 (String y4 (String "-"
      (String m1 (String m2 (String "-"
        (String d1 (String d2 EmptyString))))))))) =>
    match digits4 y1 y2 y3 y4, digits2 m1 m2, digits2 d1 d2 with
    | Some y, Some m, Some d =>
      let date := mkDate y (m - 1) d 0 in
      if (1 <=? y) && date_ok date then Some date else None
    | _, _, _ => None
    end
  | _ => None
  end.

(** [data.map((date) => parseISO(date))], when every string parses. *)
Fixpoint parseAll (data : list string) : option (list Date) :=
  match data with
  | [] => Some []
  | s :: rest =>
    match parseISO s, parseAll rest with
    | Some d, Some ds => Some (d :: ds)
    | _, _ => None
    end
  end.

(* ================================================================= *)
(** ** JavaScript arrays and objects *)

(** [array.reduce(f)] without an initial value; [None] is the [TypeError]
    raised on an empty array. *)
Definition reduce {A : Type} (f : A -> A -> A) (l : list A) : option A :=
  match l with
  | [] => None
  | x :: rest => Some (fold_left f rest x)
  end.

(** [(a, b) => (a < b ? a : b)] and [(a, b) => (a > b ? a : b)];
    relational operators compare dates by time value. *)
Definition earlier (a b : Date) : Date := if getTime a <? getTime b then a else b.
Definition later (a b : Date) : Date := if getTime b <? getTime a then a else b.

(** [array.sort((a, b) => a.getTime() - b.getTime())]: the sort is stable,
    so that the result is the one of a stable insertion sort. *)
Fixpoint insertByTime (x : Date) (l : list Date) : list Date :=
  match l with
  | [] => [x]
  | y :: rest =>
    if getTime x - getTime y <=? 0 then x :: l else y :: insertByTime x rest
  end.

Definition sortByTime (l : list Date) : list Date :=
  fold_right insertByTime [] l.

(** An object whose keys are integers: [Object.values] enumerates them in
    ascending numeric order, whatever the order of creation. *)
Definition JsObject (V : Type) : Type := list (Z * V).

Fixpoint obj_get {V : Type} (o : JsObject V) (k : Z) : option V :=
  match o with
  | [] => None
  | (k', v) :: rest => if k =? k' then Some v else obj_get rest k
  end.

Fixpoint obj_set {V : Type} (o : JsObject V) (k : Z) (v : V) : JsObject V :=
  match o with
  | [] => [(k, v)]
  | (k', v') :: rest =>
    if k <? k' then (k, v) :: o
    else if k =? k' then (k, v) :: rest
    else (k', v') :: obj_set rest k v
  end.

Definition Object_values {V : Type} (o : JsObject V) : list V := map snd o.

(** [if (!obj[k]) { obj[k] = fresh; }]: every stored value is an object,
    hence truthy. *)
Definition ensure {V : Type} (o : JsObject V) (k : Z) (fresh : V) : JsObject V :=
  match obj_get o k with
  | Some _ => o
  | None => obj_set o k fresh
  end.

(** [obj[k].field op= ...]: the record stored at [k] is updated in place. *)
Definition modify {V : Type} (o : JsObject V) (k : Z) (f : V -> V) : JsObject V :=
  match obj_get o k with
  | Some v => obj_set o k (f v)
  | None => o
  end.

(** [for (let day = earliest; day <= latest; day = addDays(day, 1)) body]:
    [None] when the loop has not ended within [fuel] iterations. *)
Fixpoint forEachDay {S : Type} (fuel : nat) (day latest : Date)
    (body : Date -> S -> S) (s : S) : option S :=
  match fuel with
  | O => None
  | Datatypes.S fuel' =>
    if getTime day <=? getTime latest
    then forEachDay fuel' (addDays day 1) latest body (body day s)
    else Some s
  end.

(** The same loop in a zone: [addDays] asks for the same time of the next
    day, and the zone answers with the time stored. *)
Fixpoint forEachDayIn {S : Type} (zone : Zone) (fuel : nat) (day latest : Date)
    (body : Date -> S -> S) (s : S) : option S :=
  match fuel with
  | O => None
  | Datatypes.S fuel' =>
    if getTime day <=? getTime latest
    then forEachDayIn zone fuel' (zone (addDays day 1)) latest body (body day s)
    else Some s
  end.

(** Iterations granted to the loop from [earliest] to [latest]: one per
    calendar day of the window, and one for the test that ends it. *)
Definition daysFuel (earliest latest : Date) : nat :=
  Z.to_nat (dayNumber latest - dayNumber earliest + 2).

(** The indices [lo, lo+1, ..., hi] of a counting loop
    [for (let i = lo; i <= hi; i++)]. *)
Definition upTo (lo hi : Z) : list Z :=
  map (fun i => lo + Z.of_nat i) (seq 0 (Z.to_nat (hi - lo + 1))).

(** [data.some((date) => format(parseISO(date), "yyyy-MM-dd") === strDay)] *)
Definition someFormatted (data : list string) (strDay : string) : bool :=
  existsb (fun date =>
    match parseISO date with
    | Some p => String.eqb (format p) strDay
    | None => false
    end) data.

(** [data.some((date) => isSameDay(parseISO(date), day))] *)
Definition someSameDay (data : list string) (day : Date) : bool :=
  existsb (fun date =>
    match parseISO date with
    | Some p => isSameDay p day
    | None => false
    end) data.

(* ================================================================= *)
(** ** Buckets *)

Module DailyBucket.
Record t : Type := mk { week : Z; level : Z; days : list string }.
End DailyBucket.

Module WeeklyBucket.
Record t : Type := mk { week : Z; level : Z }.
End WeeklyBucket.

Module BiWeeklyBucket.
Record t : Type := mk { biWeek : Z; level : Z; weeks : list Z }.
End BiWeeklyBucket.

Module MonthlyBucket.
Record t : Type := mk { month : Z; level : Z }.
End MonthlyBucket.

Module QuarterlyBucket.
Record t : Type := mk { quarter : Z; level : Z }.
End QuarterlyBucket.

Module SemesterlyBucket.
Record t : Type := mk { semester : Z; level : Z }.
End SemesterlyBucket.

Module YearlyBucket.
Record t : Type := mk { year : Z; level : Z }.
End YearlyBucket.

(** What the buckets of all granularities share: a period index and a
    level. *)
Class Bucket (B : Type) : Type := {
  period : B -> Z;
  level : B -> Z
}.

#[export] Instance DailyBucket_Bucket : Bucket DailyBucket.t :=
  {| period := DailyBucket.week; level := DailyBucket.level |}.
#[export] Instance WeeklyBucket_Bucket : Bucket WeeklyBucket.t :=
  {| period := WeeklyBucket.week; level := WeeklyBucket.level |}.
#[export] Instance BiWeeklyBucket_Bucket : Bucket BiWeeklyBucket.t :=
  {| period := BiWeeklyBucket.biWeek; level := BiWeeklyBucket.level |}.
#[export] Instance MonthlyBucket_Bucket : Bucket MonthlyBucket.t :=
  {| period := MonthlyBucket.month; level := MonthlyBucket.level |}.
#[export] Instance QuarterlyBucket_Bucket : Bucket QuarterlyBucket.t :=
  {| period := QuarterlyBucket.quarter; level := QuarterlyBucket.level |}.
#[export] Instance SemesterlyBucket_Bucket : Bucket SemesterlyBucket.t :=
  {| period := SemesterlyBucket.semester; level := SemesterlyBucket.level |}.
#[export] Instance YearlyBucket_Bucket : Bucket YearlyBucket.t :=
  {| period := YearlyBucket.year; level := YearlyBucket.level |}.

(** [array.includes(x)] and [array.push(x)]. *)
Definition includes (l : list Z) (x : Z) : bool := existsb (Z.eqb x) l.
Definition push {A : Type} (l : list A) (x : A) : list A := l ++ [x].

(* ================================================================= *)
(** ** The bucketizers *)

Definition isEmpty {A : Type} (l : list A) : bool :=
  match l with [] => true | _ => false end.

(** The window shared by the six non-yearly bucketizers. *)
Definition yearWindow (parsedDates : list Date) : option (Date * Date) :=
  match reduce earlier parsedDates, reduce later parsedDates with
  | Some lo, Some hi => Some (startOfYear lo, endOfYear hi)
  | _, _ => None
  end.

Definition getDailyData (data : list string) : option (list DailyBucket.t) :=
  if isEmpty data then Some [] else
  match parseAll data with
  | None => None
  | Some parsedDates =>
    match yearWindow parsedDates with
    | None => None
    | Some (earliest, latest) =>
      let body (day : Date) (weeksMap : JsObject DailyBucket.t) :=
        let strDay := format day in
        let level := if someFormatted data strDay then 1 else 0 in
        let week := getWeek day in
        let weeksMap := ensure weeksMap week (DailyBucket.mk week 0 []) in
        let weeksMap := modify weeksMap week (fun b =>
          DailyBucket.mk (DailyBucket.week b) (DailyBucket.level b + level)
                         (DailyBucket.days b)) in
        if level =? 1
        then modify weeksMap week (fun b =>
          DailyBucket.mk (DailyBucket.week b) (DailyBucket.level b)
                         (push (DailyBucket.days b) strDay))
        else weeksMap in
      match forEachDay (daysFuel earliest latest) earliest latest body [] with
      | None => None
      | Some weeksMap =>
        let totalWeeks := getWeek latest in
        let weeksMap := fold_left (fun weeksMap week =>
          ensure weeksMap week (DailyBucket.mk week 0 []))
          (upTo 1 totalWeeks) weeksMap in
        Some (Object_values weeksMap)
      end
    end
  end.

Definition getWeeklyData (data : list string) : option (list WeeklyBucket.t) :=
  if isEmpty data then Some [] else
  match parseAll data with
  | None => None
  | Some parsedDates =>
    match yearWindow parsedDates with
    | None => None
    | Some (earliest, latest) =>
      let body (day : Date) (weeksMap : JsObject WeeklyBucket.t) :=
        let strDay := format day in
        let level := if someFormatted data strDay then 1 else 0 in
        let week := getWeek day in
        let weeksMap := ensure weeksMap week (WeeklyBucket.mk week 0) in
        modify weeksMap week (fun b =>
          WeeklyBucket.mk (WeeklyBucket.week b) (WeeklyBucket.level b + level)) in
      match forEachDay (daysFuel earliest latest) earliest latest body [] with
      | None => None
      | Some weeksMap =>
        let totalWeeks := getWeek latest in
        let weeksMap := fold_left (fun weeksMap week =>
          ensure weeksMap week (WeeklyBucket.mk week 0)) (upTo 1 totalWeeks) weeksMap in
        Some (Object_values weeksMap)
      end
    end
  end.

Definition getBiWeeklyData (data : list string) : option (list BiWeeklyBucket.t) :=
  if isEmpty data then Some [] else
  match parseAll data with
  | None => None
  | Some parsedDates =>
    match yearWindow parsedDates with
    | None => None
    | Some (earliest, latest) =>
      let body (day : Date) (biWeeksMap : JsObject BiWeeklyBucket.t) :=
        let weekOfYear := getWeek day in
        let biWeek := Math_ceil_half weekOfYear in
        let level := if someSameDay data day then 1 else 0 in
        let biWeeksMap := ensure biWeeksMap biWeek (BiWeeklyBucket.mk biWeek 0 []) in
        let biWeeksMap := modify biWeeksMap biWeek (fun b =>
          BiWeeklyBucket.mk (BiWeeklyBucket.biWeek b) (BiWeeklyBucket.level b + level)
                     (BiWeeklyBucket.weeks b)) in
        modify biWeeksMap biWeek (fun b =>
          if (level =? 1) && negb (includes (BiWeeklyBucket.weeks b) weekOfYear)
          then BiWeeklyBucket.mk (BiWeeklyBucket.biWeek b) (BiWeeklyBucket.level b)
                          (push (BiWeeklyBucket.weeks b) weekOfYear)
          else b) in
      match forEachDay (daysFuel earliest latest) earliest latest body [] with
      | None => None
      | Some biWeeksMap =>
        let totalBiWeeks := Math_ceil_half (getWeek latest) in
        let biWeeksMap := fold_left (fun biWeeksMap biWeek =>
          ensure biWeeksMap biWeek (BiWeeklyBucket.mk biWeek 0 []))
          (upTo 1 totalBiWeeks) biWeeksMap in
        Some (Object_values biWeeksMap)
      end
    end
  end.

Definition getMonthlyData (data : list string) : option (list MonthlyBucket.t) :=
  if isEmpty data then Some [] else
  match parseAll data with
  | None => None
  | Some parsedDates =>
    match yearWindow parsedDates with
    | None => None
    | Some (earliest, latest) =>
      let body (day : Date) (monthsMap : JsObject MonthlyBucket.t) :=
        let strDay := format day in
        let level := if someFormatted data strDay then 1 else 0 in
        let month := getMonth day + 1 in
        let monthsMap := ensure monthsMap month (MonthlyBucket.mk month 0) in
        modify monthsMap month (fun b =>
          MonthlyBucket.mk (MonthlyBucket.month b) (MonthlyBucket.level b + level)) in
      match forEachDay (daysFuel earliest latest) earliest latest body [] with
      | None => None
      | Some monthsMap =>
        let monthsMap := fold_left (fun monthsMap month =>
          ensure monthsMap month (MonthlyBucket.mk month 0)) (upTo 1 12) monthsMap in
        Some (Object_values monthsMap)
      end
    end
  end.

Definition getQuarterlyData (data : list string) : option (list QuarterlyBucket.t) :=
  if isEmpty data then Some [] else
  match parseAll data with
  | None => None
  | Some parsedDates =>
    match yearWindow parsedDates with
    | None => None
    | Some (earliest, latest) =>
      let body (day : Date) (quartersMap : JsObject QuarterlyBucket.t) :=
        let strDay := format day in
        let level := if someFormatted data strDay then 1 else 0 in
        let quarter := getQuarter day in
        let quartersMap := ensure quartersMap quarter (QuarterlyBucket.mk quarter 0) in
        modify quartersMap quarter (fun b =>
          QuarterlyBucket.mk (QuarterlyBucket.quarter b)
                             (QuarterlyBucket.level b + level)) in
      match forEachDay (daysFuel earliest latest) earliest latest body [] with
      | None => None
      | Some quartersMap =>
        let quartersMap := fold_left (fun quartersMap quarter =>
          ensure quartersMap quarter (QuarterlyBucket.mk quarter 0))
          (upTo 1 4) quartersMap in
        Some (Object_values quartersMap)
      end
    end
  end.

Definition getSemesterlyData (data : list string) : option (list SemesterlyBucket.t) :=
  if isEmpty data then Some [] else
  match parseAll data with
  | None => None
  | Some parsedDates =>
    match yearWindow parsedDates with
    | None => None
    | Some (earliest, latest) =>
      let body (day : Date) (semestersMap : JsObject SemesterlyBucket.t) :=
        let strDay := format day in
        let level := if someFormatted data strDay then 1 else 0 in
        let month := getMonth day in
        let semester := if month <? 6 then 1 else 2 in
        let semestersMap :=
          ensure semestersMap semester (SemesterlyBucket.mk semester 0) in
        modify semestersMap semester (fun b =>
          SemesterlyBucket.mk (SemesterlyBucket.semester b)
                              (SemesterlyBucket.level b + level)) in
      match forEachDay (daysFuel earliest latest) earliest latest body [] with
      | None => None
      | Some semestersMap =>
        let semestersMap := fold_left (fun semestersMap semester =>
          ensure semestersMap semester (SemesterlyBucket.mk semester 0)) (upTo 1 2)
          semestersMap in
        Some (Object_values semestersMap)
      end
    end
  end.

(** The yearly bucketizer walks from the earliest to the latest date
    itself, and has no second loop.  Its bounds are the parsed dates as
    they are, at the midnight that the zone stores for them, and the loop
    ends at the first day whose time is later than the latest date: the
    zone is an argument.  ([format] and [getYear] read the calendar day
    only, so that [someFormatted] needs no zone.) *)
Definition getYearlyData (zone : Zone) (data : list string)
    : option (list YearlyBucket.t) :=
  if isEmpty data then Some [] else
  match parseAll data with
  | None => None
  | Some parsed =>
    let parsedDates := map zone parsed in
    match reduce earlier parsedDates, reduce later parsedDates with
    | Some earliest, Some latest =>
      let body (day : Date) (yearsMap : JsObject YearlyBucket.t) :=
        let strDay := format day in
        let level := if someFormatted data strDay then 1 else 0 in
        let year := getYear day in
        let yearsMap := ensure yearsMap year (YearlyBucket.mk year 0) in
        modify yearsMap year (fun b =>
          YearlyBucket.mk (YearlyBucket.year b) (YearlyBucket.level b + level)) in
      match forEachDayIn zone (daysFuel earliest latest) earliest latest body []
      with
      | None => None
      | Some yearsMap => Some (Object_values yearsMap)
      end
    | _, _ => None
    end
  end.

(* ================================================================= *)
(** ** Frequencies *)

(** Modelled from the spec: the constant table [FrequencyConst] of
    [@/constants/frequency.constant] and the type [Frequency] of
    [@/interfaces/goal.interface] are not part of the reviewed sources.
    The specification lists the eight cadences DAILY, WEEKLY, BIWEEKLY,
    SEMIMONTHLY, MONTHLY, QUARTERLY, SEMSTERLY and YEARLY; a value that is
    none of the eight constants, which a caller can still pass at run time,
    is [UNRECOGNIZED] and carries the raw value. *)
Inductive Frequency : Type :=
  | DAILY | WEEKLY | BIWEEKLY | SEMIMONTHLY
  | MONTHLY | QUARTERLY | SEMSTERLY | YEARLY
  | UNRECOGNIZED (raw : string).

Record Streak : Type := mkStreak { current : Z; record : Z }.

(** [completions.some((completion) => p(parseISO(completion)))] *)
Definition someCompletion (p : Date -> bool) (completions : list string)
    : option bool :=
  match parseAll completions with
  | Some parsed => Some (existsb p parsed)
  | None => None
  end.

(* ================================================================= *)
(** ** [handleDisable] *)

Definition handleDisable (tz : Z) (now : Date) (frequency : Frequency)
    (completions : list string) : option bool :=
  let today := now in
  match frequency with
  | DAILY => someCompletion (isToday now) completions
  | WEEKLY => someCompletion (isThisWeek now) completions
  | BIWEEKLY =>
    let currentWeek := getWeek today in
    someCompletion (fun completionDate =>
      let completionWeek := getWeek completionDate in
      if completionWeek =? currentWeek then true
      else if completionWeek =? currentWeek - 1 then
        let currentBiWeek := Math_ceil_half currentWeek in
        let completionBiWeek := Math_ceil_half completionWeek in
        currentBiWeek =? completionBiWeek
      else false) completions
  | SEMIMONTHLY =>
    let dayOfMonth := getUTCDate tz today in
    someCompletion (fun completionDate =>
      let completionDayOfMonth := getUTCDate tz completionDate in
      ((dayOfMonth <=? 15) && (completionDayOfMonth <=? 15)) ||
      ((15 <? dayOfMonth) && (15 <? completionDayOfMonth))) completions
  | MONTHLY => someCompletion (isThisMonth now) completions
  | QUARTERLY => someCompletion (isThisQuarter now) completions
  | SEMSTERLY =>
    let month := getUTCMonth tz today in
    someCompletion (fun completionDate =>
      let completionMonth := getUTCMonth tz completionDate in
      ((month <? 6) && (completionMonth <? 6)) ||
      ((6 <=? month) && (6 <=? completionMonth))) completions
  | YEARLY => someCompletion (isThisYear now) completions
  | UNRECOGNIZED _ => Some false
  end.

(* ================================================================= *)
(** ** Streaks *)

Definition isConsecutive (prevDate currDate : Date) (frequency : Frequency) : bool :=
  match frequency with
  | DAILY => isSameDay (addDays prevDate 1) currDate
  | WEEKLY => getWeek prevDate + 1 =? getWeek currDate
  | BIWEEKLY =>
    Math_ceil_half (getWeek prevDate) + 1 =? Math_ceil_half (getWeek currDate)
  | SEMIMONTHLY =>
    let prevMonth := getMonth prevDate in
    let currMonth := getMonth currDate in
    ((prevMonth =? currMonth) &&
       (Z.abs (getDate prevDate - getDate currDate) <=? 15)) ||
    (negb (prevMonth =? currMonth) &&
       (15 <? getDate prevDate) && (getDate currDate <=? 15))
  | MONTHLY => getMonth prevDate + 1 =? getMonth currDate
  | QUARTERLY => getQuarter prevDate + 1 =? getQuarter currDate
  | SEMSTERLY =>
    let prevSemester := if getMonth prevDate <? 6 then 1 else 2 in
    let currSemester := if getMonth currDate <? 6 then 1 else 2 in
    (prevSemester =? currSemester) &&
    (Z.abs (getMonth prevDate - getMonth currDate) <=? 6)
  | YEARLY => getYear prevDate + 1 =? getYear currDate
  | UNRECOGNIZED _ => false
  end.

Definition isValidStreak (lastDate today : Date) (frequency : Frequency) : bool :=
  match frequency with
  | DAILY => isSameDay lastDate today || isSameDay (addDays lastDate 1) today
  | WEEKLY =>
    (getWeek lastDate =? getWeek today) || (getWeek lastDate + 1 =? getWeek today)
  | BIWEEKLY =>
    (Math_ceil_half (getWeek lastDate) =? Math_ceil_half (getWeek today)) ||
    (Math_ceil_half (getWeek lastDate) + 1 =? Math_ceil_half (getWeek today))
  | SEMIMONTHLY =>
    let lastMonth := getMonth lastDate in
    let thisMonth := getMonth today in
    ((lastMonth =? thisMonth) &&
       (Z.abs (getDate lastDate - getDate today) <=? 15)) ||
    (negb (lastMonth =? thisMonth) &&
       (15 <? getDate lastDate) && (getDate today <=? 15))
  | MONTHLY =>
    (getMonth lastDate =? getMonth today) ||
    (getMonth lastDate + 1 =? getMonth today)
  | QUARTERLY =>
    (getQuarter lastDate =? getQuarter today) ||
    (getQuarter lastDate + 1 =? getQuarter today)
  | SEMSTERLY =>
    let lastSemester := if getMonth lastDate <? 6 then 1 else 2 in
    let thisSemester := if getMonth today <? 6 then 1 else 2 in
    (lastSemester =? thisSemester) &&
    (Z.abs (getMonth lastDate - getMonth today) <=? 6)
  | YEARLY =>
    (getYear lastDate =? getYear today) || (getYear lastDate + 1 =? getYear today)
  | UNRECOGNIZED _ => false
  end.

(** The loop [for (let i = 1; i < parsedDates.length; i++)] over the pairs
    [(parsedDates[i - 1], parsedDates[i])]: [prevDate] is the element before
    [rest]; the result is the final [(streak, longestStreak)]. *)
Fixpoint streakLoop (frequency : Frequency) (prevDate : Date) (rest : list Date)
    (streak longestStreak : Z) : Z * Z :=
  match rest with
  | [] => (streak, longestStreak)
  | currDate :: rest' =>
    if isConsecutive prevDate currDate frequency
    then streakLoop frequency currDate rest' (streak + 1)
                    (Z.max longestStreak (streak + 1))
    else streakLoop frequency currDate rest' 1 longestStreak
  end.

Definition calculateStreaks (now : Date) (dates : list string)
    (frequency : Frequency) : option Streak :=
  if isEmpty dates then Some (mkStreak 0 0) else
  match parseAll dates with
  | None => None
  | Some parsed =>
    let parsedDates := sortByTime parsed in
    match parsedDates with
    | [] => Some (mkStreak 0 0)
    | first :: rest =>
      let '(streak, longestStreak) := streakLoop frequency first rest 1 1 in
      let currentStreak :=
        if isValidStreak (last parsedDates first) now frequency
        then streak else 0 in
      Some (mkStreak currentStreak longestStreak)
    end
  end.

(* ================================================================= *)
(** ** Notions used by the statements *)

(** A date that a [Date] object can hold. *)
Definition valid (d : Date) : Prop := date_ok d = true.

(** The day of the year, counted from 0. *)
Definition dayOfYear (d : Date) : Z :=
  daysBeforeMonth (getFullYear d) (getMonth d) + (getDate d - 1).

(** The keys of an object, in the order of [Object.keys]. *)
Definition keys {V : Type} (o : JsObject V) : list Z := map fst o.

Definition mapValues {V W : Type} (f : V -> W) (o : JsObject V) : JsObject W :=
  map (fun kv => (fst kv, f (snd kv))) o.

(** Strictly ascending integers. *)
Definition ascending (l : list Z) : Prop := StronglySorted Z.lt l.

Fixpoint sumZ (l : list Z) : Z :=
  match l with
  | [] => 0
  | x :: rest => x + sumZ rest
  end.

(** The sum of the [level] fields of a bucket sequence. *)
Definition totalLevel {B : Type} `{Bucket B} (out : list B) : Z :=
  sumZ (map level out).

(** The level part of a bucketizer's loop body: the bucket of the period
    [key d] is created at level 0 when missing, then raised by [lvl d]. *)
Definition tally (key lvl : Date -> Z) (d : Date) (t : JsObject Z) : JsObject Z :=
  modify (ensure t (key d) 0) (key d) (fun l => l + lvl d).

Definition tallyAll (key lvl : Date -> Z) (days : list Date) (t : JsObject Z)
    : JsObject Z :=
  fold_left (fun t d => tally key lvl d t) days t.

(** An object of buckets and the levels it holds, each bucket stored under
    its own period index. *)
Definition refines {B : Type} `{Bucket B} (o : JsObject B) (t : JsObject Z) : Prop :=
  mapValues level o = t /\ Forall (fun kv => period (snd kv) = fst kv) o.

(** The [k] calendar days from [d] on. *)
Fixpoint daysList (d : Date) (k : nat) : list Date :=
  match k with
  | O => []
  | S k' => d :: daysList (addDays d 1) k'
  end.

(** The second loop of a bucketizer, on the levels. *)
Definition ensureAll (ks : list Z) (t : JsObject Z) : JsObject Z :=
  fold_left (fun t k => ensure t k 0) ks t.

Definition Date_eq_dec (a b : Date) : {a = b} + {a <> b}.
Proof. decide equality; apply Z.eq_dec. Defined.

(** The number of distinct calendar days among parsed dates. *)
Definition distinctDays (parsed : list Date) : Z :=
  Z.of_nat (List.length (nodup Date_eq_dec (map startOfDay parsed))).

(** The level that the loop body gives to a day: 1 when some input date
    falls on it. *)
Definition dayLevel (data : list string) (day : Date) : Z :=
  if someFormatted data (format day) then 1 else 0.

Definition dayLevelSameDay (data : list string) (day : Date) : Z :=
  if someSameDay data day then 1 else 0.

(** The days visited by the loop of the six non-yearly bucketizers, when
    [lo] is the earliest and [hi] the latest date: every day from January
    1st of the year of [lo] to December 31st of the year of [hi]. *)
Definition windowDays (lo hi : Date) : list Date :=
  daysList (startOfYear lo)
    (Z.to_nat (dayNumber (endOfYear hi) - dayNumber (startOfYear lo) + 1)).

(** The calendar days from [lo] to [hi]: the days that the loop of
    [getYearlyData] visits, when [hi] is the last of them. *)
Definition spanDays (lo hi : Date) : list Date :=
  daysList lo (Z.to_nat (dayNumber hi - dayNumber lo + 1)).

(** The day number of the Sunday that starts the week of day [n]. *)
Definition sundayOf (n : Z) : Z := n - (n + 4) mod 7.

(** The zones of the model: the time stored is a time of the day asked
    for, and not an earlier one. *)
Definition Zone_ok (zone : Zone) : Prop :=
  forall d, valid d ->
    valid (zone d) /\ dayNumber (zone d) = dayNumber d /\
    msOfDay d <= msOfDay (zone d).

(** The reading of the specification for [getYearlyData]: every bucket
    carries the year of some input date. *)
Definition onlyYearsPresent (zone : Zone) (data : list string) : Prop :=
  forall out, getYearlyData zone data = Some out ->
  forall b, In b out ->
  exists s d, In s data /\ parseISO s = Some d /\ getYear d = YearlyBucket.year b.

(** Dates in the order of their time values. *)
Definition byTime (a b : Date) : Prop := getTime a <= getTime b.

(** The reading of the specification for duplicates: adding to the list a
    date that it already holds leaves the record streak as it is. *)
Definition duplicateKeepsRecord (frequency : Frequency) : Prop :=
  forall now dates x s s',
    In x dates ->
    calculateStreaks now dates frequency = Some s ->
    calculateStreaks now (x :: dates) frequency = Some s' ->
    record s' = record s.

(** Whether two equal consecutive dates extend the running streak. *)
Definition duplicateExtends (frequency : Frequency) : bool :=
  match frequency with
  | SEMIMONTHLY | SEMSTERLY => true
  | _ => false
  end.

(** The final [(streak, longestStreak)] of the loop over a sorted list. *)
Definition streaksOf (frequency : Frequency) (l : list Date) : Z * Z :=
  match l with
  | [] => (0, 0)
  | first :: rest => streakLoop frequency first rest 1 1
  end.

(** The input of a bucketizer that meets the input contract: a non-empty
    list of day-precision date strings, with its parsed dates and the
    earliest and latest of them. *)
Record Parsed (data : list string) (parsed : list Date) (lo hi : Date) : Prop := {
  parsed_nonempty : data <> [];
  parsed_all : parseAll data = Some parsed;
  parsed_lo : reduce earlier parsed = Some lo;
  parsed_hi : reduce later parsed = Some hi;
  parsed_lo_in : In lo parsed;
  parsed_hi_in : In hi parsed;
  parsed_between : forall p, In p parsed -> dayNumber lo <= dayNumber p <= dayNumber hi
}.

(* ================================================================= *)
(** ** The string helpers of the module *)

(** A JavaScript string is modelled by a [string] whose characters are its
    code units, all below 256 (the Latin-1 range). *)

Fixpoint mapChars (f : ascii -> ascii) (s : string) : string :=
  match s with
  | EmptyString => EmptyString
  | String c rest => String (f c) (mapChars f rest)
  end.

Fixpoint filterChars (keep : ascii -> bool) (s : string) : string :=
  match s with
  | EmptyString => EmptyString
  | String c rest =>
    if keep c then String c (filterChars keep rest) else filterChars keep rest
  end.

Definition codeBetween (lo hi : nat) (c : ascii) : bool :=
  (lo <=? nat_of_ascii c)%nat && (nat_of_ascii c <=? hi)%nat.

(** [String.prototype.toLowerCase] on one code unit: A..Z, and the
    capital letters U+00C0..U+00DE but the sign U+00D7, move 32 up. *)
Definition toLowerCaseChar (c : ascii) : ascii :=
  if codeBetween 65 90 c
     || (codeBetween 192 222 c && negb (nat_of_ascii c =? 215)%nat)
  then ascii_of_nat (nat_of_ascii c + 32) else c.

Definition toLowerCase (s : string) : string := mapChars toLowerCaseChar s.

(** The class [\w] of a regular expression without the unicode flag:
    [A-Za-z0-9_]. *)
Definition isWordChar (c : ascii) : bool :=
  codeBetween 65 90 c || codeBetween 97 122 c || codeBetween 48 57 c
  || (nat_of_ascii c =? 95)%nat.

(** [.replace(/ /g, "-")] *)
Definition spacesToDashes (s : string) : string :=
  mapChars (fun c => if (c =? " ")%char then "-"%char else c) s.

(** [.replace(/[^\w-]+/g, "")]: every character outside [\w-] goes. *)
Definition stripNonWord (s : string) : string :=
  filterChars (fun c => isWordChar c || (c =? "-")%char) s.

Definition createSlug (title : string) : string :=
  stripNonWord (spacesToDashes (toLowerCase title)).

(** The characters of a slug: [a-z0-9_-]. *)
Definition isSlugChar (c : ascii) : bool :=
  codeBetween 97 122 c || codeBetween 48 57 c
  || (nat_of_ascii c =? 95)%nat || (nat_of_ascii c =? 45)%nat.

Fixpoint allChars (p : ascii -> bool) (s : string) : bool :=
  match s with
  | EmptyString => true
  | String c rest => p c && allChars p rest
  end.

(* ----------------------------------------------------------------- *)
(** *** [formatDate] *)

(** The argument of [formatDate]: a [Date] or a string. *)
Inductive DateOrString : Type :=
  | ofDate (date : Date)
  | ofString (s : string).

(** The local date-time of an instant given by its UTC date-time. *)
Definition fromUTC (tz : Z) (utc : Date) : Date := toUTC (- tz) utc.

(** [new Date(value)].  A [Date] is copied.  A string of the date-only
    form [YYYY-MM-DD] denotes, by the rule of ECMAScript for date-only
    forms, midnight UTC of that day; [None] stands for every other
    string. *)
Definition newDate (tz : Z) (value : DateOrString) : option Date :=
  match value with
  | ofDate date => Some date
  | ofString s =>
    match parseISO s with
    | Some utcMidnight => Some (fromUTC tz utcMidnight)
    | None => None
    end
  end.

(** [`${n}`] for an integer [n]: its decimal digits, after a minus sign
    when negative. *)
Definition numberToString (n : Z) : string := NilZero.string_of_int (Z.to_int n).

Definition formatDate (tz : Z) (date : DateOrString) : option string :=
  match newDate tz date with
  | None => None
  | Some date =>
    let day :=
      append (if getDate date <? 10 then "0"%string else EmptyString)
             (numberToString (getDate date)) in
    let month :=
      append (if getMonth date + 1 <? 10 then "0"%string else EmptyString)
             (numberToString (getMonth date + 1)) in
    let year := getFullYear date in
    Some (append (numberToString year)
            (append "-" (append month (append "-" day))))
  end.

(* ----------------------------------------------------------------- *)
(** *** [extractWebsiteName] and [isValidUrl] *)

(** [s.split(sep)] for a separator of one character. *)
Fixpoint split (sep : ascii) (s : string) : list string :=
  match s with
  | EmptyString => [EmptyString]
  | String c rest =>
    if (c =? sep)%char then EmptyString :: split sep rest
    else
      match split sep rest with
      | [] => [String c EmptyString]
      | first :: others => String c first :: others
      end
  end.

(** [parts.join(sep)] *)
Fixpoint join (sep : string) (parts : list string) : string :=
  match parts with
  | [] => EmptyString
  | [p] => p
  | p :: rest => (p ++ sep ++ join sep rest)%string
  end.

(** [array[i]] for an integer [i]: [None] is [undefined]. *)
Definition at_index {A : Type} (l : list A) (i : Z) : option A :=
  if i <? 0 then None else nth_error l (Z.to_nat i).

Section Url.

(** The constructor [URL] of the platform, through the one property that
    the module reads: [newURL url] is the [hostname] of [new URL(url)], and
    [None] when the constructor throws. *)
Variable newURL : string -> option string.

(** The result is a string, or [undefined] ([None]) when the host name
    has a single label; the message logged in the [catch] branch is left
    out. *)
Definition extractWebsiteName (url : string) : option string :=
  match newURL url with
  | Some hostname =>
    let parts := split "." hostname in
    at_index parts (Z.of_nat (List.length parts) - 2)
  | None => Some EmptyString
  end.

Definition isValidUrl (url : string) : bool :=
  match newURL url with
  | Some _ => true
  | None => false
  end.

End Url.

(** Some completion parses to a date with the property [P]. *)
Definition someParsed (completions : list string) (P : Date -> Prop) : Prop :=
  exists s d, In s completions /\ parseISO s = Some d /\ P d.

(** The number of period indices of a frequency that compares them: 53
    weeks, 27 bi-weeks, 12 months, 4 quarters. *)
Definition streakCap (frequency : Frequency) : option Z :=
  match frequency with
  | WEEKLY => Some 53
  | BIWEEKLY => Some 27
  | MONTHLY => Some 12
  | QUARTERLY => Some 4
  | _ => None
  end.

(** The index of the period of a date within its year, for the
    frequencies of [streakCap]. *)
Definition periodIndex (frequency : Frequency) (d : Date) : Z :=
  match frequency with
  | WEEKLY => getWeek d
  | BIWEEKLY => Math_ceil_half (getWeek d)
  | MONTHLY => getMonth d + 1
  | QUARTERLY => getQuarter d
  | _ => 1
  end.

(** The level stored under a key, 0 when there is none. *)
Definition levelAt (t : JsObject Z) (j : Z) : Z :=
  match obj_get t j with
  | Some v => v
  | None => 0
  end.

(** The parsed input dates of the period [j], for the period index
    [key]. *)
Definition inPeriod (key : Date -> Z) (j : Z) (parsed : list Date) : list Date :=
  filter (fun p => key p =? j) parsed.

(** The semester of a date, as [getSemesterlyData] computes it. *)
Definition semesterOf (d : Date) : Z := if getMonth d <? 6 then 1 else 2.

(** The bucket stored under a key, or the fresh one. *)
Definition getOr {V : Type} (o : JsObject V) (k : Z) (fresh : V) : V :=
  match obj_get o k with
  | Some v => v
  | None => fresh
  end.

(** One turn of a bucketizer's first loop, seen from the bucket of the
    day: that bucket, the fresh one when missing, is replaced by its
    update. *)
Definition bucketStep {B : Type} (key : Date -> Z) (fresh : Z -> B)
    (upd : Date -> B -> B) (d : Date) (o : JsObject B) : JsObject B :=
  obj_set o (key d) (upd d (getOr o (key d) (fresh (key d)))).

(** The updates that the days of period [k] apply to its bucket, in the
    order of the loop. *)
Definition updatesOf {B : Type} (key : Date -> Z) (upd : Date -> B -> B)
    (k : Z) (days : list Date) (b : B) : B :=
  fold_left (fun b d => if key d =? k then upd d b else b) days b.

(** The update of a bucket of [getDailyData] by one day. *)
Definition dailyUpdate (data : list string) (d : Date) (b : DailyBucket.t)
    : DailyBucket.t :=
  DailyBucket.mk (DailyBucket.week b) (DailyBucket.level b + dayLevel data d)
    (if dayLevel data d =? 1 then push (DailyBucket.days b) (format d)
     else DailyBucket.days b).

(** The update of a bucket of [getBiWeeklyData] by one day. *)
Definition biWeeklyUpdate (data : list string) (d : Date) (b : BiWeeklyBucket.t)
    : BiWeeklyBucket.t :=
  BiWeeklyBucket.mk (BiWeeklyBucket.biWeek b)
    (BiWeeklyBucket.level b + dayLevelSameDay data d)
    (if (dayLevelSameDay data d =? 1)
        && negb (includes (BiWeeklyBucket.weeks b) (getWeek d))
     then push (BiWeeklyBucket.weeks b) (getWeek d)
     else BiWeeklyBucket.weeks b).

(* ================================================================= *)
(** ** Proof automation *)

(** Case analysis on the leap year test, in goal and hypotheses. *)
Ltac case_leap y :=
  let lp := fresh "lp" in
  set (lp := isLeapYear y) in *; clearbody lp; destruct lp.

(** Unfolding of the month tables and of the getters. *)
Ltac cal_simpl :=
  cbn [daysBeforeMonth daysInMonth getFullYear getMonth getDate msOfDay] in *.

(** The twelve months. *)
Ltac month_cases m :=
  assert (m = 0 \/ m = 1 \/ m = 2 \/ m = 3 \/ m = 4 \/ m = 5 \/ m = 6 \/
          m = 7 \/ m = 8 \/ m = 9 \/ m = 10 \/ m = 11) as Hmonth_cases by lia;
  destruct Hmonth_cases as [->|[->|[->|[->|[->|[->|[->|[->|[->|[->|[->| ->]]]]]]]]]]].

(** Entering a bucketizer on an input that meets the contract. *)
Ltac enter_bucketizer Pd :=
  let NE := fresh "NE" in
  pose proof (parsed_nonempty _ _ _ _ Pd) as NE;
  match goal with
  | |- context [isEmpty ?data] =>
    destruct data as [|? ?]; [contradiction|]; cbn [isEmpty]
  end;
  rewrite (parsed_all _ _ _ _ Pd); unfold yearWindow;
  rewrite ?(parsed_lo _ _ _ _ Pd), ?(parsed_hi _ _ _ _ Pd); cbv zeta.

(** [24 * 60 * 60 * 1000 / 2] milliseconds after midnight. *)
Definition noon : Z := 43200000.

(** The zone of the examples with daylight saving: the clocks skip the
    first hour of 2020-09-06, of 2021-09-05 and of 2022-09-11, the way
    America/Santiago sets them forward at midnight. *)
Definition midnightSkips : Zone :=
  skipsMidnight
    (map dayNumber [mkDate 2020 8 6 0; mkDate 2021 8 5 0; mkDate 2022 8 11 0])
    3600000.

Example parseISO_example :
  parseISO "2024-02-29" = Some (mkDate 2024 1 29 0) /\
  parseISO "2023-02-29" = None /\
  format (mkDate 2024 1 29 0) = "2024-02-29"%string.
Proof. repeat split. Qed.

Example getMonthlyData_example :
  getMonthlyData ["2024-03-05"; "2024-03-05"; "2024-03-06"; "2024-07-01"]%string =
  Some (map (fun ml => MonthlyBucket.mk (fst ml) (snd ml))
         [(1, 0); (2, 0); (3, 2); (4, 0); (5, 0); (6, 0);
          (7, 1); (8, 0); (9, 0); (10, 0); (11, 0); (12, 0)]).
Proof. vm_compute. reflexivity. Qed.

Example getBiWeeklyData_example :
  option_map (filter (fun b => 0 <? BiWeeklyBucket.level b))
    (getBiWeeklyData ["2024-03-05"; "2023-03-06"; "2024-07-01"]%string) =
  Some [BiWeeklyBucket.mk 5 2 [10]; BiWeeklyBucket.mk 14 1 [27]].
Proof. vm_compute. reflexivity. Qed.

Example calculateStreaks_weekly_example :
  calculateStreaks (mkDate 2024 0 20 noon)
    ["2024-01-02"; "2024-01-03"; "2024-01-10"; "2024-01-17"]%string WEEKLY
  = Some (mkStreak 3 3).
Proof. vm_compute. reflexivity. Qed.

Example getWeek_examples :
  getWeek (mkDate 2005 0 2 0) = 2 /\
  getWeek (mkDate 2024 11 31 (MS_IN_DAY - 1)) = 1 /\
  getWeek (mkDate 2022 11 31 0) = 53 /\
  getWeek (mkDate 2024 11 28 0) = 52.
Proof. repeat split. Qed.

(* ================================================================= *)
(** * Properties *)

(** ** The calendar *)

Lemma valid_iff d :
  valid d <->
  0 <= getMonth d <= 11 /\
  1 <= getDate d <= daysInMonth (getFullYear d) (getMonth d) /\
  0 <= msOfDay d < MS_IN_DAY.
Proof.
  unfold valid, date_ok.
  rewrite !andb_true_iff, !Z.leb_le, Z.ltb_lt. tauto.
Qed.

Lemma daysInMonth_bounds y m : 28 <= daysInMonth y m <= 31.
Proof.
  unfold daysInMonth.
  repeat match goal with
         | |- context [match ?x with _ => _ end] => destruct x
         end; lia.
Qed.

Lemma daysBeforeMonth_succ y m :
  0 <= m <= 10 ->
  daysBeforeMonth y (m + 1) = daysBeforeMonth y m + daysInMonth y m.
Proof.
  intros Hm.
  month_cases m;
    match goal with
    | |- context [daysBeforeMonth y (?a + 1)] =>
      let v := eval vm_compute in (a + 1) in change (a + 1) with v
    end; cal_simpl; case_leap y; lia.
Qed.

Lemma daysBeforeMonth_last y :
  daysBeforeMonth y 11 + 31 = daysInYear y.
Proof.
  unfold daysInYear. cal_simpl. case_leap y; lia.
Qed.

Lemma daysBeforeYear_succ y :
  daysBeforeYear (y + 1) = daysBeforeYear y + daysInYear y.
Proof.
  unfold daysBeforeYear, daysInYear, isLeapYear.
  replace (y + 1 - 1) with y by lia.
  destruct (y mod 4 =? 0) eqn:E4; destruct (y mod 100 =? 0) eqn:E100;
    destruct (y mod 400 =? 0) eqn:E400; cbn [andb orb negb];
    rewrite ?Z.eqb_eq, ?Z.eqb_neq in *;
    Z.to_euclidean_division_equations; lia.
Qed.

Lemma daysInYear_bounds y : 365 <= daysInYear y <= 366.
Proof. unfold daysInYear. destruct (isLeapYear y); lia. Qed.

Lemma daysBeforeYear_mono_nat (k : nat) y :
  daysBeforeYear y + 365 * Z.of_nat k <= daysBeforeYear (y + Z.of_nat k).
Proof.
  induction k as [|k IH].
  - replace (y + Z.of_nat 0) with y by lia. lia.
  - replace (y + Z.of_nat (S k)) with (y + Z.of_nat k + 1) by lia.
    rewrite daysBeforeYear_succ.
    pose proof (daysInYear_bounds (y + Z.of_nat k)). lia.
Qed.

Lemma daysBeforeYear_mono y1 y2 :
  y1 <= y2 -> daysBeforeYear y1 + 365 * (y2 - y1) <= daysBeforeYear y2.
Proof.
  intros H.
  pose proof (daysBeforeYear_mono_nat (Z.to_nat (y2 - y1)) y1) as M.
  rewrite Z2Nat.id in M by lia.
  replace (y1 + (y2 - y1)) with y2 in M by lia. exact M.
Qed.

Lemma dayOfYear_bounds d :
  valid d -> 0 <= dayOfYear d < daysInYear (getFullYear d).
Proof.
  rewrite valid_iff. unfold dayOfYear, daysInYear.
  destruct d as [y m dd ms]; cbn [getFullYear getMonth getDate msOfDay].
  intros (Hm & Hd & _).
  month_cases m; cal_simpl; case_leap y; lia.
Qed.

Lemma dayNumber_dayOfYear d :
  dayNumber d = daysBeforeYear (getFullYear d) + dayOfYear d.
Proof. unfold dayNumber, dayOfYear. lia. Qed.

Lemma dayNumber_year_bounds d :
  valid d ->
  daysBeforeYear (getFullYear d) <= dayNumber d < daysBeforeYear (getFullYear d + 1).
Proof.
  intros V. rewrite dayNumber_dayOfYear, daysBeforeYear_succ.
  pose proof (dayOfYear_bounds d V). lia.
Qed.

(** The year is determined by the day number. *)
Lemma year_of_dayNumber d y :
  valid d ->
  daysBeforeYear y <= dayNumber d < daysBeforeYear (y + 1) ->
  getFullYear d = y.
Proof.
  intros V H. pose proof (dayNumber_year_bounds d V) as B.
  destruct (Z.lt_trichotomy (getFullYear d) y) as [L|[E|G]]; [|exact E|].
  - pose proof (daysBeforeYear_mono (getFullYear d + 1) y ltac:(lia)). lia.
  - pose proof (daysBeforeYear_mono (y + 1) (getFullYear d) ltac:(lia)). lia.
Qed.

Lemma year_le_of_dayNumber a b :
  valid a -> valid b -> dayNumber a <= dayNumber b -> getFullYear a <= getFullYear b.
Proof.
  intros Va Vb H.
  pose proof (dayNumber_year_bounds a Va). pose proof (dayNumber_year_bounds b Vb).
  destruct (Z_le_gt_dec (getFullYear a) (getFullYear b)) as [L|G]; [exact L|].
  pose proof (daysBeforeYear_mono (getFullYear b + 1) (getFullYear a) ltac:(lia)). lia.
Qed.

(** Within one year, month and day are determined by the day of the year. *)
Lemma dayOfYear_inj y m1 d1 m2 d2 :
  0 <= m1 <= 11 -> 1 <= d1 <= daysInMonth y m1 ->
  0 <= m2 <= 11 -> 1 <= d2 <= daysInMonth y m2 ->
  daysBeforeMonth y m1 + d1 = daysBeforeMonth y m2 + d2 ->
  m1 = m2 /\ d1 = d2.
Proof.
  intros Hm1 Hd1 Hm2 Hd2 E.
  month_cases m1; month_cases m2; cal_simpl; case_leap y; lia.
Qed.

(** Two dates of the same calendar day and time of day are equal. *)
Lemma dayNumber_inj a b :
  valid a -> valid b ->
  dayNumber a = dayNumber b -> msOfDay a = msOfDay b -> a = b.
Proof.
  intros Va Vb E Ems.
  assert (getFullYear a = getFullYear b) as Ey.
  { apply year_of_dayNumber; [exact Va|]. rewrite E.
    apply dayNumber_year_bounds; exact Vb. }
  apply valid_iff in Va, Vb.
  destruct a as [y1 m1 d1 s1], b as [y2 m2 d2 s2];
    unfold dayNumber in E; cbn [getFullYear getMonth getDate msOfDay] in *.
  subst y2 s2.
  destruct (dayOfYear_inj y1 m1 d1 m2 d2) as [-> ->]; try tauto; try lia.
Qed.

Lemma next_day_spec d :
  valid d ->
  valid (next_day d) /\ dayNumber (next_day d) = dayNumber d + 1 /\
  msOfDay (next_day d) = msOfDay d.
Proof.
  intros V. pose proof V as V'. apply valid_iff in V'.
  destruct d as [y m dd ms]; cbn [getFullYear getMonth getDate msOfDay] in *.
  destruct V' as (Hm & Hd & Hms).
  unfold next_day; cbn [getFullYear getMonth getDate msOfDay].
  destruct (Z.ltb_spec dd (daysInMonth y m)) as [L|G].
  - rewrite valid_iff; unfold dayNumber; cal_simpl; lia.
  - assert (dd = daysInMonth y m) as -> by lia.
    destruct (Z.ltb_spec m 11) as [L11|G11].
    + rewrite valid_iff; unfold dayNumber; cbn [getFullYear getMonth getDate msOfDay].
      rewrite daysBeforeMonth_succ by lia.
      pose proof (daysInMonth_bounds y (m + 1)). lia.
    + assert (m = 11) as -> by lia.
      rewrite valid_iff; unfold dayNumber; cbn [getFullYear getMonth getDate msOfDay].
      rewrite daysBeforeYear_succ.
      pose proof (daysBeforeMonth_last y). cal_simpl. lia.
Qed.

Lemma prev_day_spec d :
  valid d ->
  valid (prev_day d) /\ dayNumber (prev_day d) = dayNumber d - 1 /\
  msOfDay (prev_day d) = msOfDay d.
Proof.
  intros V. pose proof V as V'. apply valid_iff in V'.
  destruct d as [y m dd ms]; cbn [getFullYear getMonth getDate msOfDay] in *.
  destruct V' as (Hm & Hd & Hms).
  unfold prev_day; cbn [getFullYear getMonth getDate msOfDay].
  destruct (Z.ltb_spec 1 dd) as [L|G].
  - rewrite valid_iff; unfold dayNumber; cal_simpl; lia.
  - assert (dd = 1) as -> by lia.
    destruct (Z.ltb_spec 0 m) as [L0|G0].
    + rewrite valid_iff; unfold dayNumber; cbn [getFullYear getMonth getDate msOfDay].
      pose proof (daysBeforeMonth_succ y (m - 1) ltac:(lia)) as S.
      replace (m - 1 + 1) with m in S by lia.
      pose proof (daysInMonth_bounds y (m - 1)). lia.
    + assert (m = 0) as -> by lia.
      rewrite valid_iff; unfold dayNumber; cbn [getFullYear getMonth getDate msOfDay].
      pose proof (daysBeforeYear_succ (y - 1)) as S.
      replace (y - 1 + 1) with y in S by lia.
      pose proof (daysBeforeMonth_last (y - 1)). cal_simpl. lia.
Qed.

Lemma iter_next_day_spec (k : nat) d :
  valid d ->
  valid (Nat.iter k next_day d) /\
  dayNumber (Nat.iter k next_day d) = dayNumber d + Z.of_nat k /\
  msOfDay (Nat.iter k next_day d) = msOfDay d.
Proof.
  intros V. induction k as [|k (IV & IN & IM)]; [cbn; repeat split; [exact V|lia]|].
  rewrite Nat.iter_succ. destruct (next_day_spec _ IV) as (V' & N' & M').
  repeat split; [exact V'|lia|congruence].
Qed.

Lemma iter_prev_day_spec (k : nat) d :
  valid d ->
  valid (Nat.iter k prev_day d) /\
  dayNumber (Nat.iter k prev_day d) = dayNumber d - Z.of_nat k /\
  msOfDay (Nat.iter k prev_day d) = msOfDay d.
Proof.
  intros V. induction k as [|k (IV & IN & IM)]; [cbn; repeat split; [exact V|lia]|].
  rewrite Nat.iter_succ. destruct (prev_day_spec _ IV) as (V' & N' & M').
  repeat split; [exact V'|lia|congruence].
Qed.

(** [addDays] moves the calendar day by [amount] and keeps the time of day. *)
Lemma addDays_spec d amount :
  valid d ->
  valid (addDays d amount) /\
  dayNumber (addDays d amount) = dayNumber d + amount /\
  msOfDay (addDays d amount) = msOfDay d.
Proof.
  intros V. unfold addDays. destruct (Z.leb_spec 0 amount) as [P|N].
  - destruct (iter_next_day_spec (Z.to_nat amount) d V) as (A & B & C).
    repeat split; [exact A|lia|exact C].
  - destruct (iter_prev_day_spec (Z.to_nat (- amount)) d V) as (A & B & C).
    repeat split; [exact A|lia|exact C].
Qed.

(** ** Date strings *)

Lemma charDigit_range c n : charDigit c = Some n -> 0 <= n <= 9.
Proof.
  unfold charDigit. cbv zeta.
  destruct (Z.leb_spec 0 (Z.of_nat (nat_of_ascii c) - 48));
    destruct (Z.leb_spec (Z.of_nat (nat_of_ascii c) - 48) 9);
    cbn [andb]; intros E; try discriminate E.
  assert (n = Z.of_nat (nat_of_ascii c) - 48) by congruence. lia.
Qed.

Lemma charDigit_digitChar n : 0 <= n <= 9 -> charDigit (digitChar n) = Some n.
Proof.
  intros H. rewrite <- (Z2Nat.id n) by lia.
  assert (Z.to_nat n < 10)%nat as L by lia.
  revert L. generalize (Z.to_nat n). intros k L.
  do 10 (destruct k as [|k]; [reflexivity|]). lia.
Qed.

Lemma digits2_range a b n : digits2 a b = Some n -> 0 <= n <= 99.
Proof.
  unfold digits2.
  destruct (charDigit a) as [x|] eqn:Ea; [|discriminate].
  destruct (charDigit b) as [y|] eqn:Eb; [|discriminate].
  apply charDigit_range in Ea, Eb. intros H.
  assert (n = 10 * x + y) by congruence. lia.
Qed.

Lemma digits4_range a b c d n : digits4 a b c d = Some n -> 0 <= n <= 9999.
Proof.
  unfold digits4.
  destruct (digits2 a b) as [x|] eqn:Ea; [|discriminate].
  destruct (digits2 c d) as [y|] eqn:Eb; [|discriminate].
  apply digits2_range in Ea, Eb. intros H.
  assert (n = 100 * x + y) by congruence. lia.
Qed.

Lemma digits2_pad n :
  0 <= n <= 99 ->
  digits2 (digitChar (n / 10 mod 10)) (digitChar (n mod 10)) = Some n.
Proof.
  intros H. unfold digits2.
  rewrite !charDigit_digitChar by (Z.to_euclidean_division_equations; lia).
  f_equal. Z.to_euclidean_division_equations; lia.
Qed.

Lemma digits4_pad n :
  0 <= n <= 9999 ->
  digits4 (digitChar (n / 1000 mod 10)) (digitChar (n / 100 mod 10))
          (digitChar (n / 10 mod 10)) (digitChar (n mod 10)) = Some n.
Proof.
  intros H. unfold digits4, digits2.
  rewrite !charDigit_digitChar by (Z.to_euclidean_division_equations; lia).
  f_equal. Z.to_euclidean_division_equations; lia.
Qed.

(** What [parseISO] returns is local midnight of a day of the years
    1..9999. *)
Lemma parseISO_inv s d :
  parseISO s = Some d ->
  valid d /\ msOfDay d = 0 /\ 1 <= getFullYear d <= 9999.
Proof.
  unfold parseISO. intros H.
  repeat match type of H with
         | match ?x with _ => _ end = Some _ =>
           destruct x eqn:?; try discriminate H
         | (if ?x then _ else _) = Some _ =>
           destruct x eqn:?; try discriminate H
         end.
  injection H as <-.
  match goal with
  | E : (_ && _)%bool = true |- _ => apply andb_true_iff in E; destruct E as [Ey Ev]
  end.
  match goal with
  | E : digits4 _ _ _ _ = Some _ |- _ => apply digits4_range in E
  end.
  apply Z.leb_le in Ey. cbn [getFullYear msOfDay]. repeat split; try lia.
  exact Ev.
Qed.

(** Parsing what [format] prints gives the day back. *)
Lemma parseISO_format d :
  valid d -> 1 <= getFullYear d <= 9999 ->
  parseISO (format d) = Some (startOfDay d).
Proof.
  intros V Hy. pose proof V as V'. apply valid_iff in V'.
  destruct V' as (Hm & Hd & Hms).
  pose proof (daysInMonth_bounds (getFullYear d) (getMonth d)).
  unfold format, pad4, pad2. cbn [append]. unfold parseISO.
  rewrite digits4_pad by lia.
  rewrite (digits2_pad (getMonth d + 1)) by lia.
  rewrite (digits2_pad (getDate d)) by lia.
  replace (getMonth d + 1 - 1) with (getMonth d) by lia.
  assert (date_ok (mkDate (getFullYear d) (getMonth d) (getDate d) 0) = true) as ->.
  { apply valid_iff. cbn [getFullYear getMonth getDate msOfDay].
    unfold MS_IN_DAY. lia. }
  destruct (Z.leb_spec 1 (getFullYear d)); [reflexivity|lia].
Qed.

Lemma parseISO_startOfDay s d : parseISO s = Some d -> startOfDay d = d.
Proof.
  intros H. apply parseISO_inv in H. destruct H as (_ & M & _).
  destruct d as [y m dd ms]; cbn in *. subst ms. reflexivity.
Qed.

(** On the days of the years 1..9999, [format] tells days apart. *)
Lemma format_inj a b :
  valid a -> 1 <= getFullYear a <= 9999 ->
  valid b -> 1 <= getFullYear b <= 9999 ->
  format a = format b -> startOfDay a = startOfDay b.
Proof.
  intros Va Ya Vb Yb E.
  pose proof (parseISO_format a Va Ya) as Pa.
  pose proof (parseISO_format b Vb Yb) as Pb.
  rewrite E in Pa. congruence.
Qed.

Lemma format_startOfDay d : format (startOfDay d) = format d.
Proof. reflexivity. Qed.

Lemma parseAll_Forall data parsed :
  parseAll data = Some parsed ->
  Forall2 (fun s d => parseISO s = Some d) data parsed.
Proof.
  revert parsed. induction data as [|s data IH]; intros parsed H; cbn in H.
  - injection H as <-. constructor.
  - destruct (parseISO s) as [d|] eqn:E; [|discriminate].
    destruct (parseAll data) as [ds|]; [|discriminate].
    injection H as <-. constructor; [exact E|apply IH; reflexivity].
Qed.

Lemma parseAll_some data :
  Forall (fun s => parseISO s <> None) data ->
  exists parsed, parseAll data = Some parsed.
Proof.
  induction 1 as [|s data Hs _ [ds IH]]; cbn.
  - eexists; reflexivity.
  - destruct (parseISO s) as [d|]; [|congruence].
    rewrite IH. eexists; reflexivity.
Qed.

Lemma parseAll_length data parsed :
  parseAll data = Some parsed -> List.length parsed = List.length data.
Proof.
  intros H. apply parseAll_Forall in H.
  induction H; cbn; congruence.
Qed.

Lemma parseAll_valid data parsed :
  parseAll data = Some parsed ->
  Forall (fun d => valid d /\ msOfDay d = 0 /\ 1 <= getFullYear d <= 9999) parsed.
Proof.
  intros H. apply parseAll_Forall in H.
  induction H as [|s d data parsed Hsd _ IH]; constructor; [|exact IH].
  apply (parseISO_inv s d Hsd).
Qed.

(** ** Objects with integer keys *)

Section JsObjectFacts.
Context {V : Type}.
Implicit Types (o : JsObject V) (k j : Z) (v : V).

Lemma obj_get_set_same o k v : obj_get (obj_set o k v) k = Some v.
Proof.
  induction o as [|[k' v'] o IH]; cbn.
  - rewrite Z.eqb_refl. reflexivity.
  - destruct (Z.ltb_spec k k'); [cbn; rewrite Z.eqb_refl; reflexivity|].
    destruct (Z.eqb_spec k k'); cbn.
    + rewrite Z.eqb_refl. reflexivity.
    + destruct (Z.eqb_spec k k'); [contradiction|exact IH].
Qed.

Lemma obj_get_set_other o k j v :
  j <> k -> obj_get (obj_set o k v) j = obj_get o j.
Proof.
  intros N. induction o as [|[k' v'] o IH]; cbn.
  - destruct (Z.eqb_spec j k); [contradiction|reflexivity].
  - destruct (Z.ltb_spec k k').
    + cbn. destruct (Z.eqb_spec j k); [contradiction|reflexivity].
    + destruct (Z.eqb_spec k k') as [<-|]; cbn.
      * destruct (Z.eqb_spec j k); [contradiction|reflexivity].
      * rewrite IH. reflexivity.
Qed.

Lemma obj_set_idem o k v : obj_set (obj_set o k v) k v = obj_set o k v.
Proof.
  induction o as [|[k' v'] o IH]; cbn.
  - rewrite Z.ltb_irrefl, Z.eqb_refl. reflexivity.
  - destruct (Z.ltb_spec k k') as [L|G]; cbn.
    + rewrite Z.ltb_irrefl, Z.eqb_refl. reflexivity.
    + destruct (Z.eqb_spec k k') as [E|N]; cbn.
      * rewrite Z.ltb_irrefl, Z.eqb_refl. reflexivity.
      * destruct (Z.ltb_spec k k'); [lia|].
        destruct (Z.eqb_spec k k'); [contradiction|]. rewrite IH. reflexivity.
Qed.

Lemma keys_get o k : In k (keys o) <-> obj_get o k <> None.
Proof.
  induction o as [|[k' v'] o IH]; cbn.
  - split; [tauto|congruence].
  - destruct (Z.eqb_spec k k') as [->|N].
    + split; [congruence|auto].
    + rewrite <- IH. split; [intros [E|I]; [congruence|exact I]|auto].
Qed.

Lemma keys_set o k j v : In j (keys (obj_set o k v)) <-> j = k \/ In j (keys o).
Proof.
  rewrite !keys_get. destruct (Z.eq_dec j k) as [->|N].
  - rewrite obj_get_set_same. split; [auto|congruence].
  - rewrite obj_get_set_other by exact N. tauto.
Qed.

Lemma keys_set_ascending o k v :
  ascending (keys o) -> ascending (keys (obj_set o k v)).
Proof.
  unfold ascending. induction o as [|[k' v'] o IH]; cbn; intros S.
  - repeat constructor.
  - apply StronglySorted_inv in S. destruct S as [S F].
    destruct (Z.ltb_spec k k') as [L|G]; cbn.
    + constructor; [constructor; assumption|].
      constructor; [exact L|].
      eapply Forall_impl; [|exact F]. cbn. intros; lia.
    + destruct (Z.eqb_spec k k') as [->|N]; cbn.
      * constructor; assumption.
      * constructor; [apply IH; exact S|].
        apply Forall_forall. intros j Hj.
        apply (keys_set o k j v) in Hj. destruct Hj as [->|Hj]; [lia|].
        rewrite Forall_forall in F. apply F. exact Hj.
Qed.

Lemma keys_ensure o k j v : In j (keys (ensure o k v)) <-> j = k \/ In j (keys o).
Proof.
  unfold ensure. destruct (obj_get o k) eqn:E; [|apply keys_set].
  assert (In k (keys o)) by (apply keys_get; congruence).
  split; [auto|intros [->|I]; assumption].
Qed.

Lemma keys_ensure_ascending o k v :
  ascending (keys o) -> ascending (keys (ensure o k v)).
Proof.
  unfold ensure. destruct (obj_get o k); [auto|apply keys_set_ascending].
Qed.

Lemma obj_get_ensure_same o k v :
  obj_get (ensure o k v) k = Some (match obj_get o k with Some x => x | None => v end).
Proof.
  unfold ensure. destruct (obj_get o k) eqn:E; [exact E|apply obj_get_set_same].
Qed.

Lemma keys_modify o k j (g : V -> V) : In j (keys (modify o k g)) <-> In j (keys o).
Proof.
  unfold modify. destruct (obj_get o k) eqn:E; [|tauto].
  rewrite keys_set. assert (In k (keys o)) by (apply keys_get; congruence).
  split; [intros [->|I]; assumption|auto].
Qed.

Lemma keys_modify_ascending o k (g : V -> V) :
  ascending (keys o) -> ascending (keys (modify o k g)).
Proof.
  unfold modify. destruct (obj_get o k); [apply keys_set_ascending|auto].
Qed.

(** A second update in place that changes nothing. *)
Lemma modify_modify_id o k (g : V -> V) :
  modify (modify o k g) k (fun b => b) = modify o k g.
Proof.
  unfold modify at 2 3. destruct (obj_get o k) as [v|] eqn:E.
  - unfold modify. rewrite obj_get_set_same. apply obj_set_idem.
  - unfold modify. rewrite E. reflexivity.
Qed.

Lemma obj_get_Forall (P : Z * V -> Prop) o k v :
  Forall P o -> obj_get o k = Some v -> P (k, v).
Proof.
  induction 1 as [|[k' v'] o HP _ IH]; cbn; [discriminate|].
  destruct (Z.eqb_spec k k') as [->|N]; [|exact IH].
  intros [= <-]. exact HP.
Qed.

Lemma obj_set_Forall (P : Z * V -> Prop) o k v :
  Forall P o -> P (k, v) -> Forall P (obj_set o k v).
Proof.
  intros F HP. induction F as [|[k' v'] o HP' F IH]; cbn.
  - constructor; [exact HP|constructor].
  - destruct (k <? k'); [constructor; [exact HP|constructor; assumption]|].
    destruct (k =? k'); constructor; assumption.
Qed.

End JsObjectFacts.

Lemma keys_mapValues {V W : Type} (f : V -> W) (o : JsObject V) :
  keys (mapValues f o) = keys o.
Proof. unfold keys, mapValues. rewrite map_map. reflexivity. Qed.

Lemma obj_get_mapValues {V W : Type} (f : V -> W) (o : JsObject V) k :
  obj_get (mapValues f o) k = option_map f (obj_get o k).
Proof.
  induction o as [|[k' v'] o IH]; cbn; [reflexivity|].
  destruct (k =? k'); [reflexivity|exact IH].
Qed.

Lemma obj_set_mapValues {V W : Type} (f : V -> W) (o : JsObject V) k v :
  mapValues f (obj_set o k v) = obj_set (mapValues f o) k (f v).
Proof.
  induction o as [|[k' v'] o IH]; cbn; [reflexivity|].
  destruct (k <? k'); [reflexivity|].
  destruct (k =? k'); [reflexivity|]. cbn. f_equal. exact IH.
Qed.

Lemma ensure_mapValues {V W : Type} (f : V -> W) (o : JsObject V) k v :
  mapValues f (ensure o k v) = ensure (mapValues f o) k (f v).
Proof.
  unfold ensure. rewrite obj_get_mapValues.
  destruct (obj_get o k); cbn; [reflexivity|apply obj_set_mapValues].
Qed.

Lemma modify_mapValues {V W : Type} (f : V -> W) (g : V -> V) (g' : W -> W)
    (o : JsObject V) k :
  (forall v, f (g v) = g' (f v)) ->
  mapValues f (modify o k g) = modify (mapValues f o) k g'.
Proof.
  intros C. unfold modify. rewrite obj_get_mapValues.
  destruct (obj_get o k); cbn; [|reflexivity].
  rewrite obj_set_mapValues, C. reflexivity.
Qed.

(** *** Sums of levels *)

Lemma sumZ_app l1 l2 : sumZ (l1 ++ l2) = sumZ l1 + sumZ l2.
Proof. induction l1 as [|x l1 IH]; cbn; [reflexivity|rewrite IH; lia]. Qed.

Lemma obj_get_below (t : JsObject Z) k :
  Forall (Z.lt k) (keys t) -> obj_get t k = None.
Proof.
  induction t as [|[k' v'] t IH]; cbn; [reflexivity|].
  intros F. apply Forall_cons_iff in F. destruct F as [L F].
  destruct (Z.eqb_spec k k'); [lia|apply IH; exact F].
Qed.

Lemma sum_obj_set (t : JsObject Z) k v :
  ascending (keys t) ->
  sumZ (map snd (obj_set t k v)) =
  sumZ (map snd t) - match obj_get t k with Some x => x | None => 0 end + v.
Proof.
  unfold ascending. induction t as [|[k' v'] t IH]; cbn; intros S; [lia|].
  apply StronglySorted_inv in S. destruct S as [S F].
  destruct (Z.ltb_spec k k') as [L|G]; cbn.
  - destruct (Z.eqb_spec k k'); [lia|].
    rewrite obj_get_below; [lia|].
    eapply Forall_impl; [|exact F]. cbn. intros; lia.
  - destruct (Z.eqb_spec k k') as [->|N]; cbn; [lia|].
    rewrite IH by exact S. lia.
Qed.

Lemma sum_ensure_zero (t : JsObject Z) k :
  ascending (keys t) -> sumZ (map snd (ensure t k 0)) = sumZ (map snd t).
Proof.
  intros S. unfold ensure. destruct (obj_get t k) eqn:E; [reflexivity|].
  rewrite sum_obj_set, E by exact S. lia.
Qed.

Lemma sum_modify_add (t : JsObject Z) k x :
  ascending (keys t) -> In k (keys t) ->
  sumZ (map snd (modify t k (fun l => l + x))) = sumZ (map snd t) + x.
Proof.
  intros S I. apply keys_get in I. unfold modify.
  destruct (obj_get t k) eqn:E; [|congruence].
  rewrite sum_obj_set, E by exact S. lia.
Qed.

(** *** The tally of a list of days *)

Section TallyFacts.
Variables key lvl : Date -> Z.

Lemma tally_keys d t j : In j (keys (tally key lvl d t)) <-> j = key d \/ In j (keys t).
Proof. unfold tally. rewrite keys_modify. apply keys_ensure. Qed.

Lemma tally_ascending d t : ascending (keys t) -> ascending (keys (tally key lvl d t)).
Proof.
  intros S. unfold tally. apply keys_modify_ascending, keys_ensure_ascending, S.
Qed.

Lemma tally_sum d t :
  ascending (keys t) ->
  sumZ (map snd (tally key lvl d t)) = sumZ (map snd t) + lvl d.
Proof.
  intros S. unfold tally. rewrite sum_modify_add.
  - rewrite sum_ensure_zero by exact S. reflexivity.
  - apply keys_ensure_ascending, S.
  - apply keys_ensure. left. reflexivity.
Qed.

Lemma tallyAll_keys days t j :
  In j (keys (tallyAll key lvl days t)) <->
  (exists d, In d days /\ key d = j) \/ In j (keys t).
Proof.
  unfold tallyAll. revert t. induction days as [|d days IH]; intros t; cbn [fold_left].
  - split; [auto|intros [(d & [] & _)|I]; exact I].
  - rewrite IH, tally_keys. split.
    + intros [(d' & I & E)|[->|I]]; [left; exists d'; cbn; auto|left; exists d; cbn; auto|auto].
    + intros [(d' & [->|I] & E)|I]; [auto|left; exists d'; auto|auto].
Qed.

Lemma tallyAll_ascending days t :
  ascending (keys t) -> ascending (keys (tallyAll key lvl days t)).
Proof.
  unfold tallyAll. revert t. induction days as [|d days IH]; intros t S; cbn [fold_left].
  - exact S.
  - apply IH, tally_ascending, S.
Qed.

Lemma tallyAll_sum days t :
  ascending (keys t) ->
  sumZ (map snd (tallyAll key lvl days t)) = sumZ (map snd t) + sumZ (map lvl days).
Proof.
  unfold tallyAll. revert t.
  induction days as [|d days IH]; intros t S; cbn [fold_left map sumZ].
  - lia.
  - rewrite IH by (apply tally_ascending, S). rewrite tally_sum by exact S. lia.
Qed.

End TallyFacts.

Lemma ensureAll_keys ks t j :
  In j (keys (ensureAll ks t)) <-> In j ks \/ In j (keys t).
Proof.
  unfold ensureAll. revert t. induction ks as [|k ks IH]; intros t; cbn [fold_left].
  - split; [auto|intros [[]|I]; exact I].
  - rewrite IH, keys_ensure. cbn [In]. split.
    + intros [I|[->|I]]; auto.
    + intros [[->|I]|I]; auto.
Qed.

Lemma ensureAll_ascending ks t :
  ascending (keys t) -> ascending (keys (ensureAll ks t)).
Proof.
  unfold ensureAll. revert t. induction ks as [|k ks IH]; intros t S; cbn [fold_left].
  - exact S.
  - apply IH, keys_ensure_ascending, S.
Qed.

Lemma ensureAll_sum ks t :
  ascending (keys t) -> sumZ (map snd (ensureAll ks t)) = sumZ (map snd t).
Proof.
  unfold ensureAll. revert t. induction ks as [|k ks IH]; intros t S; cbn [fold_left].
  - reflexivity.
  - rewrite IH by (apply keys_ensure_ascending, S). apply sum_ensure_zero, S.
Qed.

(** *** Buckets and their levels *)

Section Refinement.
Context {B : Type} `{Bucket B}.
Implicit Types (o : JsObject B) (t : JsObject Z).

Lemma refines_nil : refines (@nil (Z * B)) [].
Proof. split; [reflexivity|constructor]. Qed.

Lemma refines_ensure o t k fresh :
  refines o t -> period fresh = k -> level fresh = 0 ->
  refines (ensure o k fresh) (ensure t k 0).
Proof.
  intros [<- F] Hp Hl. split.
  - rewrite ensure_mapValues, Hl. reflexivity.
  - unfold ensure. destruct (obj_get o k); [exact F|].
    apply obj_set_Forall; [exact F|exact Hp].
Qed.

Lemma refines_modify o t k (g : B -> B) (g' : Z -> Z) :
  refines o t ->
  (forall b, period (g b) = period b) ->
  (forall b, level (g b) = g' (level b)) ->
  refines (modify o k g) (modify t k g').
Proof.
  intros [<- F] Hp Hl. split.
  - apply modify_mapValues. exact Hl.
  - unfold modify. destruct (obj_get o k) as [v|] eqn:E; [|exact F].
    apply obj_set_Forall; [exact F|].
    cbn. rewrite Hp. apply (obj_get_Forall _ o k v F E).
Qed.

(** The shape shared by the loop bodies. *)
Lemma refines_tally key lvl d o t fresh (g : B -> B) :
  refines o t ->
  period fresh = key d -> level fresh = 0 ->
  (forall b, period (g b) = period b) ->
  (forall b, level (g b) = level b + lvl d) ->
  refines (modify (ensure o (key d) fresh) (key d) g) (tally key lvl d t).
Proof.
  intros R Hp Hl Gp Gl. unfold tally.
  apply refines_modify; [apply refines_ensure; assumption|exact Gp|exact Gl].
Qed.

(** A further update in place that touches neither period nor level. *)
Lemma refines_tally_extra key lvl d o t (h : B -> B) :
  refines o (tally key lvl d t) ->
  (forall b, period (h b) = period b) ->
  (forall b, level (h b) = level b) ->
  refines (modify o (key d) h) (tally key lvl d t).
Proof.
  intros R Hp Hl. unfold tally in *.
  rewrite <- (modify_modify_id (ensure t (key d) 0) (key d) (fun l => l + lvl d)).
  apply refines_modify; [exact R|exact Hp|exact Hl].
Qed.

Lemma refines_fold (body : Date -> JsObject B -> JsObject B) key lvl days :
  (forall d o t, In d days -> refines o t -> refines (body d o) (tally key lvl d t)) ->
  forall o t, refines o t ->
  refines (fold_left (fun o d => body d o) days o) (tallyAll key lvl days t).
Proof.
  unfold tallyAll. induction days as [|d days IH]; intros Hb o t R; cbn [fold_left].
  - exact R.
  - apply IH.
    + intros d' o' t' I. apply Hb. right. exact I.
    + apply Hb; [left; reflexivity|exact R].
Qed.

Lemma refines_ensureAll (fresh : Z -> B) ks :
  (forall k, period (fresh k) = k) -> (forall k, level (fresh k) = 0) ->
  forall o t, refines o t ->
  refines (fold_left (fun o k => ensure o k (fresh k)) ks o) (ensureAll ks t).
Proof.
  intros Hp Hl. unfold ensureAll.
  induction ks as [|k ks IH]; intros o t R; cbn [fold_left].
  - exact R.
  - apply IH, refines_ensure; [exact R|apply Hp|apply Hl].
Qed.

Lemma refines_values o t :
  refines o t ->
  map period (Object_values o) = keys t /\
  totalLevel (Object_values o) = sumZ (map snd t).
Proof.
  intros [<- F]. unfold Object_values, totalLevel, keys, mapValues.
  rewrite !map_map. cbn [fst snd]. split; [|reflexivity].
  induction F as [|[k v] o HP F IH]; cbn; [reflexivity|].
  cbn in HP. rewrite HP. f_equal. exact IH.
Qed.

End Refinement.

(** *** Counting loops *)

Lemma upTo_In lo hi j : In j (upTo lo hi) <-> lo <= j <= hi.
Proof.
  unfold upTo. rewrite in_map_iff. split.
  - intros (i & <- & I). apply in_seq in I. lia.
  - intros Hj. exists (Z.to_nat (j - lo)). split; [lia|].
    apply in_seq. lia.
Qed.

Lemma upTo_cons lo hi : lo <= hi -> upTo lo hi = lo :: upTo (lo + 1) hi.
Proof.
  intros L. unfold upTo.
  replace (Z.to_nat (hi - lo + 1)) with (S (Z.to_nat (hi - (lo + 1) + 1))) by lia.
  cbn [seq map]. f_equal; [lia|].
  rewrite <- seq_shift, map_map. apply map_ext. intros i. lia.
Qed.

Lemma upTo_nil lo hi : hi < lo -> upTo lo hi = [].
Proof.
  intros L. unfold upTo. replace (Z.to_nat (hi - lo + 1)) with O by lia. reflexivity.
Qed.

(** A strictly ascending list of integers that starts at [lo] and has,
    with every element above [lo], its predecessor, is an interval. *)
Lemma ascending_closed_upTo l lo :
  ascending l ->
  (forall j, In j l -> lo <= j) ->
  (forall j, In j l -> lo < j -> In (j - 1) l) ->
  l = upTo lo (lo + Z.of_nat (List.length l) - 1).
Proof.
  unfold ascending. revert lo. induction l as [|x l IH]; intros lo S Hlo Hcl.
  - cbn [List.length]. rewrite upTo_nil by lia. reflexivity.
  - apply StronglySorted_inv in S. destruct S as [S F].
    rewrite Forall_forall in F.
    assert (x = lo) as ->.
    { pose proof (Hlo x (or_introl eq_refl)).
      destruct (Z.eq_dec x lo) as [E|N]; [exact E|].
      destruct (Hcl x (or_introl eq_refl) ltac:(lia)) as [E|I]; [lia|].
      apply F in I. lia. }
    rewrite upTo_cons by (cbn [List.length]; lia). f_equal.
    replace (lo + Z.of_nat (List.length (lo :: l)) - 1)
      with (lo + 1 + Z.of_nat (List.length l) - 1) by (cbn [List.length]; lia).
    apply IH; [exact S| |].
    + intros j I. apply F in I. lia.
    + intros j I L. destruct (Hcl j (or_intror I) ltac:(lia)) as [E|I']; [lia|exact I'].
Qed.

(** A strictly ascending list whose elements are those of an interval is
    that interval. *)
Lemma ascending_interval l lo hi :
  ascending l -> (forall j, In j l <-> lo <= j <= hi) -> l = upTo lo hi.
Proof.
  intros S M.
  destruct (Z_lt_le_dec hi lo) as [E|NE].
  - rewrite upTo_nil by exact E.
    destruct l as [|x l]; [reflexivity|].
    pose proof (proj1 (M x) (or_introl eq_refl)). lia.
  - pose proof (ascending_closed_upTo l lo S) as C.
    assert (l = upTo lo (lo + Z.of_nat (List.length l) - 1)) as E.
    { apply C; intros j I; [apply M in I; lia|].
      intros L. apply M. apply M in I. lia. }
    assert (lo + Z.of_nat (List.length l) - 1 = hi) as <-; [|exact E].
    assert (In hi l) as Ihi by (apply M; lia).
    rewrite E in Ihi. apply upTo_In in Ihi.
    destruct (Z.eq_dec (lo + Z.of_nat (List.length l) - 1) hi) as [Q|N]; [exact Q|].
    assert (In (lo + Z.of_nat (List.length l) - 1) l) as I.
    { rewrite E at 2. apply upTo_In. lia. }
    apply M in I. lia.
Qed.

(** ** The loop over the days of the window *)

Lemma getTime_le_iff a b :
  0 <= msOfDay a <= msOfDay b -> msOfDay b < MS_IN_DAY ->
  (getTime a <= getTime b <-> dayNumber a <= dayNumber b).
Proof. unfold getTime, MS_IN_DAY. lia. Qed.

Lemma getTime_lt_midnight a b :
  msOfDay a = 0 -> msOfDay b = 0 ->
  (getTime a < getTime b <-> dayNumber a < dayNumber b).
Proof. unfold getTime, MS_IN_DAY. lia. Qed.

Lemma valid_ms d : valid d -> 0 <= msOfDay d < MS_IN_DAY.
Proof. intros V. apply valid_iff in V. tauto. Qed.

(** The loop ends, after one iteration for each day up to [latest]. *)
Lemma forEachDay_run {S : Type} (body : Date -> S -> S) latest :
  valid latest ->
  forall (k : nat) day s,
  valid day -> msOfDay day <= msOfDay latest ->
  Z.of_nat k = dayNumber latest - dayNumber day + 1 ->
  forEachDay (Datatypes.S k) day latest body s =
  Some (fold_left (fun s d => body d s) (daysList day k) s).
Proof.
  intros Vl. pose proof (valid_ms latest Vl) as Ml.
  induction k as [|k IH]; intros day s V Hms Hk;
    pose proof (valid_ms day V) as Md;
    pose proof (getTime_le_iff day latest ltac:(lia) ltac:(lia)) as T.
  - cbn [forEachDay daysList fold_left].
    destruct (Z.leb_spec (getTime day) (getTime latest)); [lia|reflexivity].
  - cbn [daysList fold_left]. cbn [forEachDay].
    destruct (Z.leb_spec (getTime day) (getTime latest)); [|lia].
    destruct (addDays_spec day 1 V) as (V' & N' & M').
    apply IH; [exact V'|lia|lia].
Qed.

Lemma daysList_In d k x :
  valid d ->
  (In x (daysList d k) <->
   valid x /\ msOfDay x = msOfDay d /\
   dayNumber d <= dayNumber x < dayNumber d + Z.of_nat k).
Proof.
  revert d. induction k as [|k IH]; intros d V; cbn [daysList In].
  - split; [tauto|lia].
  - destruct (addDays_spec d 1 V) as (V' & N' & M').
    rewrite (IH _ V'), N', M'. split.
    + intros [<-|(Vx & Mx & Nx)]; repeat split; try assumption; lia.
    + intros (Vx & Mx & Nx).
      destruct (Z.eq_dec (dayNumber x) (dayNumber d)) as [E|N].
      * left. apply dayNumber_inj; auto.
      * right. repeat split; try assumption; lia.
Qed.

Lemma daysList_NoDup d k : valid d -> NoDup (daysList d k).
Proof.
  revert d. induction k as [|k IH]; intros d V; cbn [daysList]; constructor.
  - destruct (addDays_spec d 1 V) as (V' & N' & M').
    rewrite (daysList_In _ _ _ V'). lia.
  - apply IH. apply (addDays_spec d 1 V).
Qed.

(** *** The earliest and the latest date *)

Lemma fold_earlier_spec (l : list Date) x :
  let lo := fold_left earlier l x in
  In lo (x :: l) /\ forall y, In y (x :: l) -> getTime lo <= getTime y.
Proof.
  revert x. induction l as [|z l IH]; intros x; cbn [fold_left].
  - split; [left; reflexivity|]. intros y [<-|[]]. lia.
  - destruct (IH (earlier x z)) as [I M]. split.
    + destruct I as [E|I]; [|right; right; exact I].
      rewrite <- E. unfold earlier. destruct (getTime x <? getTime z); cbn; auto.
    + intros y Hy.
      assert (getTime (earlier x z) <= getTime x /\
              getTime (earlier x z) <= getTime z) as [Lx Lz].
      { unfold earlier. destruct (Z.ltb_spec (getTime x) (getTime z)); lia. }
      pose proof (M (earlier x z) (or_introl eq_refl)).
      destruct Hy as [<-|[<-|Hy]]; [lia|lia|].
      apply M. right. exact Hy.
Qed.

Lemma fold_later_spec (l : list Date) x :
  let hi := fold_left later l x in
  In hi (x :: l) /\ forall y, In y (x :: l) -> getTime y <= getTime hi.
Proof.
  revert x. induction l as [|z l IH]; intros x; cbn [fold_left].
  - split; [left; reflexivity|]. intros y [<-|[]]. lia.
  - destruct (IH (later x z)) as [I M]. split.
    + destruct I as [E|I]; [|right; right; exact I].
      rewrite <- E. unfold later. destruct (getTime z <? getTime x); cbn; auto.
    + intros y Hy.
      assert (getTime x <= getTime (later x z) /\
              getTime z <= getTime (later x z)) as [Lx Lz].
      { unfold later. destruct (Z.ltb_spec (getTime z) (getTime x)); lia. }
      pose proof (M (later x z) (or_introl eq_refl)).
      destruct Hy as [<-|[<-|Hy]]; [lia|lia|].
      apply M. right. exact Hy.
Qed.

Lemma startOfYear_spec d :
  valid (startOfYear d) /\ msOfDay (startOfYear d) = 0 /\
  dayNumber (startOfYear d) = daysBeforeYear (getFullYear d).
Proof.
  unfold startOfYear, dayNumber. rewrite valid_iff. cal_simpl.
  unfold MS_IN_DAY. lia.
Qed.

Lemma endOfYear_spec d :
  valid (endOfYear d) /\ msOfDay (endOfYear d) = MS_IN_DAY - 1 /\
  dayNumber (endOfYear d) = daysBeforeYear (getFullYear d + 1) - 1.
Proof.
  unfold endOfYear, dayNumber. rewrite valid_iff. cal_simpl.
  rewrite daysBeforeYear_succ.
  pose proof (daysBeforeMonth_last (getFullYear d)). cal_simpl.
  unfold MS_IN_DAY. lia.
Qed.

Lemma extremes data parsed :
  data <> [] -> parseAll data = Some parsed ->
  exists lo hi,
    reduce earlier parsed = Some lo /\ reduce later parsed = Some hi /\
    In lo parsed /\ In hi parsed /\
    forall p, In p parsed -> dayNumber lo <= dayNumber p <= dayNumber hi.
Proof.
  intros NE P. pose proof (parseAll_valid _ _ P) as Vs.
  pose proof (parseAll_length _ _ P) as Len.
  destruct parsed as [|x l].
  { destruct data; [contradiction|discriminate Len]. }
  destruct (fold_earlier_spec l x) as [Ilo Mlo].
  destruct (fold_later_spec l x) as [Ihi Mhi].
  exists (fold_left earlier l x), (fold_left later l x).
  repeat split; try assumption.
  - rewrite Forall_forall in Vs.
    destruct (Vs _ Ilo) as (V1 & M1 & _). destruct (Vs _ H) as (V2 & M2 & _).
    apply (getTime_le_iff _ p); [lia|rewrite M2; unfold MS_IN_DAY; lia|].
    apply Mlo, H.
  - rewrite Forall_forall in Vs.
    destruct (Vs _ Ihi) as (V1 & M1 & _). destruct (Vs _ H) as (V2 & M2 & _).
    apply (getTime_le_iff p); [lia|rewrite M1; unfold MS_IN_DAY; lia|].
    apply Mhi, H.
Qed.

Lemma windowDays_run {S : Type} (body : Date -> S -> S) lo hi s :
  valid lo -> valid hi -> dayNumber lo <= dayNumber hi ->
  forEachDay (daysFuel (startOfYear lo) (endOfYear hi))
             (startOfYear lo) (endOfYear hi) body s =
  Some (fold_left (fun s d => body d s) (windowDays lo hi) s).
Proof.
  intros Vlo Vhi L.
  destruct (startOfYear_spec lo) as (Vs & Ms & Ns).
  destruct (endOfYear_spec hi) as (Ve & Me & Ne).
  pose proof (dayNumber_year_bounds lo Vlo). pose proof (dayNumber_year_bounds hi Vhi).
  unfold daysFuel, windowDays.
  replace (Z.to_nat (dayNumber (endOfYear hi) - dayNumber (startOfYear lo) + 2))
    with (Datatypes.S (Z.to_nat (dayNumber (endOfYear hi) - dayNumber (startOfYear lo) + 1)))
    by lia.
  apply forEachDay_run; [exact Ve|exact Vs|unfold MS_IN_DAY in *; lia|lia].
Qed.

Lemma windowDays_In lo hi x :
  valid lo -> valid hi -> dayNumber lo <= dayNumber hi ->
  (In x (windowDays lo hi) <->
   valid x /\ msOfDay x = 0 /\
   daysBeforeYear (getFullYear lo) <= dayNumber x < daysBeforeYear (getFullYear hi + 1)).
Proof.
  intros Vlo Vhi L.
  destruct (startOfYear_spec lo) as (Vs & Ms & Ns).
  destruct (endOfYear_spec hi) as (Ve & Me & Ne).
  pose proof (dayNumber_year_bounds lo Vlo). pose proof (dayNumber_year_bounds hi Vhi).
  unfold windowDays. rewrite (daysList_In _ _ _ Vs), Ms, Ns, Ne.
  split; intros (A & B & C); repeat split; try assumption; lia.
Qed.

Lemma windowDays_years lo hi x :
  valid lo -> valid hi -> dayNumber lo <= dayNumber hi ->
  In x (windowDays lo hi) -> getFullYear lo <= getFullYear x <= getFullYear hi.
Proof.
  intros Vlo Vhi L I. apply windowDays_In in I; try assumption.
  destruct I as (Vx & Mx & Nx). pose proof (dayNumber_year_bounds x Vx).
  split.
  - destruct (Z_le_gt_dec (getFullYear lo) (getFullYear x)) as [A|A]; [exact A|].
    pose proof (daysBeforeYear_mono (getFullYear x + 1) (getFullYear lo) ltac:(lia)). lia.
  - destruct (Z_le_gt_dec (getFullYear x) (getFullYear hi)) as [A|A]; [exact A|].
    pose proof (daysBeforeYear_mono (getFullYear hi + 1) (getFullYear x) ltac:(lia)). lia.
Qed.

Lemma spanDays_In lo hi x :
  valid lo -> dayNumber lo <= dayNumber hi ->
  (In x (spanDays lo hi) <->
   valid x /\ msOfDay x = msOfDay lo /\ dayNumber lo <= dayNumber x <= dayNumber hi).
Proof.
  intros Vlo L. unfold spanDays. rewrite (daysList_In _ _ _ Vlo).
  split; intros (A & B & C); repeat split; try assumption; lia.
Qed.

(** *** The level of a day *)

Lemma startOfDay_spec d :
  valid d ->
  valid (startOfDay d) /\ msOfDay (startOfDay d) = 0 /\
  dayNumber (startOfDay d) = dayNumber d.
Proof.
  intros V. apply valid_iff in V. unfold startOfDay, dayNumber.
  rewrite valid_iff. cal_simpl. unfold MS_IN_DAY in *. lia.
Qed.

Lemma startOfDay_midnight d : msOfDay d = 0 -> startOfDay d = d.
Proof. destruct d as [y m dd ms]; cbn. intros ->. reflexivity. Qed.

Lemma isSameDay_iff a b :
  valid a -> valid b -> (isSameDay a b = true <-> dayNumber a = dayNumber b).
Proof.
  intros Va Vb. unfold isSameDay. rewrite Z.eqb_eq.
  destruct (startOfDay_spec a Va) as (_ & Ma & Na).
  destruct (startOfDay_spec b Vb) as (_ & Mb & Nb).
  unfold getTime. rewrite Ma, Mb, Na, Nb. unfold MS_IN_DAY. lia.
Qed.

Lemma someFormatted_parsed data parsed str :
  parseAll data = Some parsed ->
  someFormatted data str = existsb (fun p => String.eqb (format p) str) parsed.
Proof.
  intros P. apply parseAll_Forall in P. unfold someFormatted.
  induction P as [|s d data parsed E _ IH]; cbn [existsb]; [reflexivity|].
  rewrite E, IH. reflexivity.
Qed.

Lemma someSameDay_parsed data parsed day :
  parseAll data = Some parsed ->
  someSameDay data day = existsb (fun p => isSameDay p day) parsed.
Proof.
  intros P. apply parseAll_Forall in P. unfold someSameDay.
  induction P as [|s d data parsed E _ IH]; cbn [existsb]; [reflexivity|].
  rewrite E, IH. reflexivity.
Qed.

Lemma dayLevel_spec data parsed x :
  parseAll data = Some parsed ->
  valid x -> msOfDay x = 0 -> 1 <= getFullYear x <= 9999 ->
  dayLevel data x = if in_dec Date_eq_dec x parsed then 1 else 0.
Proof.
  intros P Vx Mx Yx. unfold dayLevel. rewrite (someFormatted_parsed _ _ _ P).
  pose proof (parseAll_valid _ _ P) as Vs. rewrite Forall_forall in Vs.
  destruct (in_dec Date_eq_dec x parsed) as [I|N].
  - replace (existsb _ parsed) with true; [reflexivity|].
    symmetry. apply existsb_exists. exists x. split; [exact I|apply String.eqb_refl].
  - destruct (existsb _ parsed) eqn:E; [|reflexivity].
    apply existsb_exists in E. destruct E as (p & I & E).
    apply String.eqb_eq in E. destruct (Vs p I) as (Vp & Mp & Yp).
    apply format_inj in E; try assumption.
    rewrite (startOfDay_midnight p Mp), (startOfDay_midnight x Mx) in E.
    subst p. contradiction.
Qed.

Lemma dayLevelSameDay_spec data parsed x :
  parseAll data = Some parsed ->
  valid x -> msOfDay x = 0 ->
  dayLevelSameDay data x = if in_dec Date_eq_dec x parsed then 1 else 0.
Proof.
  intros P Vx Mx. unfold dayLevelSameDay. rewrite (someSameDay_parsed _ _ _ P).
  pose proof (parseAll_valid _ _ P) as Vs. rewrite Forall_forall in Vs.
  destruct (in_dec Date_eq_dec x parsed) as [I|N].
  - replace (existsb _ parsed) with true; [reflexivity|].
    symmetry. apply existsb_exists. exists x. split; [exact I|].
    apply isSameDay_iff; auto.
  - destruct (existsb _ parsed) eqn:E; [|reflexivity].
    apply existsb_exists in E. destruct E as (p & I & E).
    destruct (Vs p I) as (Vp & Mp & Yp).
    apply isSameDay_iff in E; try assumption.
    assert (p = x) by (apply dayNumber_inj; auto; lia).
    subst p. contradiction.
Qed.

(** Each distinct input day is counted once. *)
Lemma count_levels (lvl : Date -> Z) days parsed :
  NoDup days ->
  (forall p, In p parsed -> In p days) ->
  (forall d, In d days -> lvl d = if in_dec Date_eq_dec d parsed then 1 else 0) ->
  sumZ (map lvl days) = Z.of_nat (List.length (nodup Date_eq_dec parsed)).
Proof.
  intros ND Sub Lv.
  set (hit := fun d => if in_dec Date_eq_dec d parsed then true else false).
  assert (sumZ (map lvl days) = Z.of_nat (List.length (filter hit days))) as ->.
  { clear ND Sub. induction days as [|d days IH]; [reflexivity|].
    cbn [map sumZ filter]. rewrite IH by (intros; apply Lv; right; assumption).
    rewrite (Lv d (or_introl eq_refl)). unfold hit.
    destruct (in_dec Date_eq_dec d parsed); cbn [List.length]; lia. }
  f_equal. apply Permutation_length. apply NoDup_Permutation.
  - apply NoDup_filter, ND.
  - apply NoDup_nodup.
  - intros x. rewrite filter_In, nodup_In. unfold hit.
    destruct (in_dec Date_eq_dec x parsed) as [I|N].
    + split; [intros _; exact I|intros _; split; [apply Sub, I|reflexivity]].
    + split; [intros [_ F]; discriminate F|intros I; contradiction].
Qed.

Lemma distinctDays_parsed data parsed :
  parseAll data = Some parsed ->
  distinctDays parsed = Z.of_nat (List.length (nodup Date_eq_dec parsed)).
Proof.
  intros P. unfold distinctDays. do 3 f_equal.
  pose proof (parseAll_valid _ _ P) as Vs. clear P.
  induction Vs as [|d l (_ & M & _) _ IH]; cbn [map]; [reflexivity|].
  rewrite (startOfDay_midnight d M). f_equal. exact IH.
Qed.

(** ** What the bucketizers compute *)

Lemma Parsed_intro data parsed :
  data <> [] -> parseAll data = Some parsed ->
  exists lo hi, Parsed data parsed lo hi.
Proof.
  intros NE P. destruct (extremes data parsed NE P) as (lo & hi & A & B & C & D & E).
  exists lo, hi. constructor; assumption.
Qed.

Lemma Parsed_valid data parsed lo hi p :
  Parsed data parsed lo hi -> In p parsed ->
  valid p /\ msOfDay p = 0 /\ 1 <= getFullYear p <= 9999.
Proof.
  intros [_ P _ _ _ _ _] I. pose proof (parseAll_valid _ _ P) as Vs.
  rewrite Forall_forall in Vs. apply Vs, I.
Qed.

Lemma Parsed_order data parsed lo hi :
  Parsed data parsed lo hi -> valid lo /\ valid hi /\ dayNumber lo <= dayNumber hi.
Proof.
  intros Pd. destruct (Parsed_valid _ _ _ _ lo Pd (parsed_lo_in _ _ _ _ Pd)) as (V1 & _).
  destruct (Parsed_valid _ _ _ _ hi Pd (parsed_hi_in _ _ _ _ Pd)) as (V2 & _).
  pose proof (parsed_between _ _ _ _ Pd lo (parsed_lo_in _ _ _ _ Pd)). tauto.
Qed.

Lemma Parsed_window_day data parsed lo hi x :
  Parsed data parsed lo hi -> In x (windowDays lo hi) ->
  valid x /\ msOfDay x = 0 /\ 1 <= getFullYear x <= 9999.
Proof.
  intros Pd I. destruct (Parsed_order _ _ _ _ Pd) as (Vlo & Vhi & L).
  pose proof (windowDays_years lo hi x Vlo Vhi L I).
  apply windowDays_In in I; try assumption.
  destruct (Parsed_valid _ _ _ _ lo Pd (parsed_lo_in _ _ _ _ Pd)) as (_ & _ & Y1).
  destruct (Parsed_valid _ _ _ _ hi Pd (parsed_hi_in _ _ _ _ Pd)) as (_ & _ & Y2).
  repeat split; try tauto; lia.
Qed.

Lemma Parsed_in_window data parsed lo hi p :
  Parsed data parsed lo hi -> In p parsed -> In p (windowDays lo hi).
Proof.
  intros Pd I. destruct (Parsed_order _ _ _ _ Pd) as (Vlo & Vhi & L).
  destruct (Parsed_valid _ _ _ _ p Pd I) as (Vp & Mp & _).
  pose proof (parsed_between _ _ _ _ Pd p I).
  pose proof (dayNumber_year_bounds lo Vlo). pose proof (dayNumber_year_bounds hi Vhi).
  apply windowDays_In; try assumption. repeat split; try assumption; lia.
Qed.

Lemma getMonthlyData_run data parsed lo hi :
  Parsed data parsed lo hi ->
  exists o,
    getMonthlyData data = Some (Object_values o) /\
    refines o (ensureAll (upTo 1 12)
      (tallyAll (fun d => getMonth d + 1) (dayLevel data) (windowDays lo hi) [])).
Proof.
  intros Pd. unfold getMonthlyData. destruct (Parsed_order _ _ _ _ Pd) as (Vlo & Vhi & L).
  enter_bucketizer Pd.
  rewrite windowDays_run by assumption.
  eexists. split; [reflexivity|].
  apply (refines_ensureAll (fun month => MonthlyBucket.mk month 0)); [reflexivity..|].
  apply (refines_fold _ (fun d => getMonth d + 1) (dayLevel _)); [|apply refines_nil].
  intros d o t _ R.
  apply (refines_tally (fun d => getMonth d + 1) (dayLevel _)); auto.
Qed.

Lemma getQuarterlyData_run data parsed lo hi :
  Parsed data parsed lo hi ->
  exists o,
    getQuarterlyData data = Some (Object_values o) /\
    refines o (ensureAll (upTo 1 4)
      (tallyAll getQuarter (dayLevel data) (windowDays lo hi) [])).
Proof.
  intros Pd. unfold getQuarterlyData. destruct (Parsed_order _ _ _ _ Pd) as (Vlo & Vhi & L).
  enter_bucketizer Pd.
  rewrite windowDays_run by assumption.
  eexists. split; [reflexivity|].
  apply (refines_ensureAll (fun quarter => QuarterlyBucket.mk quarter 0)); [reflexivity..|].
  apply (refines_fold _ getQuarter (dayLevel _)); [|apply refines_nil].
  intros d o t _ R.
  apply (refines_tally getQuarter (dayLevel _)); auto.
Qed.

Lemma getSemesterlyData_run data parsed lo hi :
  Parsed data parsed lo hi ->
  exists o,
    getSemesterlyData data = Some (Object_values o) /\
    refines o (ensureAll (upTo 1 2)
      (tallyAll (fun d => if getMonth d <? 6 then 1 else 2) (dayLevel data)
                (windowDays lo hi) [])).
Proof.
  intros Pd. unfold getSemesterlyData. destruct (Parsed_order _ _ _ _ Pd) as (Vlo & Vhi & L).
  enter_bucketizer Pd.
  rewrite windowDays_run by assumption.
  eexists. split; [reflexivity|].
  apply (refines_ensureAll (fun semester => SemesterlyBucket.mk semester 0)); [reflexivity..|].
  apply (refines_fold _ (fun d => if getMonth d <? 6 then 1 else 2) (dayLevel _));
    [|apply refines_nil].
  intros d o t _ R.
  apply (refines_tally (fun d => if getMonth d <? 6 then 1 else 2) (dayLevel _)); auto.
Qed.

Lemma getWeeklyData_run data parsed lo hi :
  Parsed data parsed lo hi ->
  exists o,
    getWeeklyData data = Some (Object_values o) /\
    refines o (ensureAll (upTo 1 (getWeek (endOfYear hi)))
      (tallyAll getWeek (dayLevel data) (windowDays lo hi) [])).
Proof.
  intros Pd. unfold getWeeklyData. destruct (Parsed_order _ _ _ _ Pd) as (Vlo & Vhi & L).
  enter_bucketizer Pd.
  rewrite windowDays_run by assumption.
  eexists. split; [reflexivity|].
  apply (refines_ensureAll (fun week => WeeklyBucket.mk week 0)); [reflexivity..|].
  apply (refines_fold _ getWeek (dayLevel _)); [|apply refines_nil].
  intros d o t _ R.
  apply (refines_tally getWeek (dayLevel _)); auto.
Qed.

Lemma getDailyData_run data parsed lo hi :
  Parsed data parsed lo hi ->
  exists o,
    getDailyData data = Some (Object_values o) /\
    refines o (ensureAll (upTo 1 (getWeek (endOfYear hi)))
      (tallyAll getWeek (dayLevel data) (windowDays lo hi) [])).
Proof.
  intros Pd. unfold getDailyData. destruct (Parsed_order _ _ _ _ Pd) as (Vlo & Vhi & L).
  enter_bucketizer Pd.
  rewrite windowDays_run by assumption.
  eexists. split; [reflexivity|].
  apply (refines_ensureAll (fun week => DailyBucket.mk week 0 [])); [reflexivity..|].
  apply (refines_fold _ getWeek (dayLevel _)); [|apply refines_nil].
  intros d o t _ R.
  assert (refines
    (modify (ensure o (getWeek d) (DailyBucket.mk (getWeek d) 0 [])) (getWeek d)
       (fun b => DailyBucket.mk (DailyBucket.week b)
          (DailyBucket.level b + (if someFormatted (s :: data) (format d) then 1 else 0))
          (DailyBucket.days b)))
    (tally getWeek (dayLevel (s :: data)) d t)) as R'.
  { apply (refines_tally getWeek (dayLevel _)); auto. }
  destruct (someFormatted (s :: data) (format d)); cbn [Z.eqb Pos.eqb].
  - apply refines_tally_extra; auto.
  - exact R'.
Qed.

Lemma getBiWeeklyData_run data parsed lo hi :
  Parsed data parsed lo hi ->
  exists o,
    getBiWeeklyData data = Some (Object_values o) /\
    refines o (ensureAll (upTo 1 (Math_ceil_half (getWeek (endOfYear hi))))
      (tallyAll (fun d => Math_ceil_half (getWeek d)) (dayLevelSameDay data)
                (windowDays lo hi) [])).
Proof.
  intros Pd. unfold getBiWeeklyData. destruct (Parsed_order _ _ _ _ Pd) as (Vlo & Vhi & L).
  enter_bucketizer Pd.
  rewrite windowDays_run by assumption.
  eexists. split; [reflexivity|].
  apply (refines_ensureAll (fun biWeek => BiWeeklyBucket.mk biWeek 0 [])); [reflexivity..|].
  apply (refines_fold _ (fun d => Math_ceil_half (getWeek d)) (dayLevelSameDay _));
    [|apply refines_nil].
  intros d o t _ R.
  apply (refines_tally_extra (fun d => Math_ceil_half (getWeek d)) (dayLevelSameDay _)).
  - apply (refines_tally (fun d => Math_ceil_half (getWeek d)) (dayLevelSameDay _)); auto.
  - intros b. destruct (_ && _); reflexivity.
  - intros b. destruct (_ && _); reflexivity.
Qed.

(** ** Week numbers *)

Lemma startOfWeek_spec d :
  valid d ->
  valid (startOfWeek d) /\ msOfDay (startOfWeek d) = 0 /\
  dayNumber (startOfWeek d) = sundayOf (dayNumber d).
Proof.
  intros V. unfold startOfWeek, getDay, sundayOf. cbv zeta.
  destruct (Z.ltb_spec ((dayNumber d + 4) mod 7) 0) as [N|P].
  { pose proof (Z.mod_pos_bound (dayNumber d + 4) 7). lia. }
  destruct (addDays_spec d (- (0 + (dayNumber d + 4) mod 7 - 0)) V) as (V' & N' & _).
  destruct (startOfDay_spec _ V') as (V'' & M'' & N'').
  split; [exact V''|split; [exact M''|lia]].
Qed.

Lemma newYear_spec y :
  valid (mkDate y 0 1 0) /\ msOfDay (mkDate y 0 1 0) = 0 /\
  dayNumber (mkDate y 0 1 0) = daysBeforeYear y /\
  getFullYear (mkDate y 0 1 0) = y.
Proof.
  rewrite valid_iff. unfold dayNumber. cal_simpl. unfold MS_IN_DAY. lia.
Qed.

Lemma getTime_startOfWeek d :
  valid d -> getTime (startOfWeek d) = sundayOf (dayNumber d) * MS_IN_DAY.
Proof.
  intros V. destruct (startOfWeek_spec d V) as (_ & M & N).
  unfold getTime. rewrite M, N. lia.
Qed.

Lemma sundayOf_bounds n : n - 6 <= sundayOf n <= n.
Proof. unfold sundayOf. Z.to_euclidean_division_equations; lia. Qed.

Lemma sundayOf_same_week n s :
  sundayOf s = s -> s <= n <= s + 6 -> sundayOf n = s.
Proof. unfold sundayOf. Z.to_euclidean_division_equations; lia. Qed.

Lemma sundayOf_idem n : sundayOf (sundayOf n) = sundayOf n.
Proof. unfold sundayOf. Z.to_euclidean_division_equations; lia. Qed.

Lemma sundayOf_shift n k : sundayOf (n + 7 * k) = sundayOf n + 7 * k.
Proof.
  unfold sundayOf. replace (n + 7 * k + 4) with (n + 4 + k * 7) by lia.
  rewrite Z.mod_add by lia. lia.
Qed.

Lemma sundayOf_diff n m : exists k, sundayOf n - sundayOf m = 7 * k.
Proof.
  unfold sundayOf. exists ((n + 4) / 7 - (m + 4) / 7).
  Z.to_euclidean_division_equations; lia.
Qed.

Lemma Math_round_div_weeks k :
  Math_round_div (7 * k * MS_IN_DAY) MS_IN_WEEK = k.
Proof.
  unfold Math_round_div, MS_IN_DAY, MS_IN_WEEK.
  Z.to_euclidean_division_equations; lia.
Qed.

(** The week number, by the day numbers of the date and of the new years
    around it. *)
Lemma getWeek_spec d :
  valid d ->
  getWeek d =
  if sundayOf (daysBeforeYear (getFullYear d + 1)) <=? dayNumber d then 1
  else (sundayOf (dayNumber d) - sundayOf (daysBeforeYear (getFullYear d))) / 7 + 1.
Proof.
  intros V. pose proof (dayNumber_year_bounds d V) as B.
  pose proof (valid_ms d V) as M.
  destruct (newYear_spec (getFullYear d)) as (V0 & _ & N0 & _).
  destruct (newYear_spec (getFullYear d + 1)) as (V1 & _ & N1 & _).
  pose proof (sundayOf_bounds (daysBeforeYear (getFullYear d))) as S0.
  pose proof (sundayOf_bounds (daysBeforeYear (getFullYear d + 1))) as S1.
  unfold getWeek, startOfWeekYear, getWeekYear. cbv zeta.
  rewrite !getTime_startOfWeek by assumption. rewrite N0, N1.
  assert (forall s, (s * MS_IN_DAY <=? getTime d) = (s <=? dayNumber d)) as C.
  { intros s. unfold getTime, MS_IN_DAY in *.
    destruct (Z.leb_spec s (dayNumber d)), (Z.leb_spec (s * 86400000)
      (dayNumber d * 86400000 + msOfDay d)); try reflexivity; lia. }
  rewrite !C.
  destruct (Z.leb_spec (sundayOf (daysBeforeYear (getFullYear d + 1))) (dayNumber d))
    as [Next|This]; cbv iota.
  - rewrite ?getTime_startOfWeek by exact V1. rewrite ?N1.
    rewrite (sundayOf_same_week (dayNumber d)
               (sundayOf (daysBeforeYear (getFullYear d + 1))))
      by (try apply sundayOf_idem; lia).
    rewrite Z.sub_diag. reflexivity.
  - destruct (Z.leb_spec (sundayOf (daysBeforeYear (getFullYear d))) (dayNumber d));
      [|lia]. cbv iota.
    rewrite ?getTime_startOfWeek by exact V0. rewrite ?N0.
    destruct (sundayOf_diff (dayNumber d) (daysBeforeYear (getFullYear d))) as [k Hk].
    rewrite <- Z.mul_sub_distr_r, Hk, Math_round_div_weeks.
    f_equal. rewrite Z.mul_comm, Z.div_mul by lia. reflexivity.
Qed.

Lemma getWeek_startOfDay d : valid d -> getWeek (startOfDay d) = getWeek d.
Proof.
  intros V. destruct (startOfDay_spec d V) as (V' & _ & N').
  rewrite (getWeek_spec _ V'), (getWeek_spec _ V), N'. reflexivity.
Qed.

Lemma getWeek_bounds d : valid d -> 1 <= getWeek d <= 53.
Proof.
  intros V. rewrite (getWeek_spec d V).
  pose proof (dayNumber_year_bounds d V) as B.
  rewrite daysBeforeYear_succ in *.
  pose proof (daysInYear_bounds (getFullYear d)).
  destruct (Z.leb_spec (sundayOf (daysBeforeYear (getFullYear d) + daysInYear (getFullYear d)))
                       (dayNumber d)); [lia|].
  unfold sundayOf in *. Z.to_euclidean_division_equations; lia.
Qed.

(** Before a day of week [j > 1] there is, in the same year, a day of
    week [j - 1]: the Saturday that ends the week before. *)
Lemma getWeek_pred d :
  valid d -> 1 < getWeek d ->
  exists d', valid d' /\ msOfDay d' = 0 /\ getFullYear d' = getFullYear d /\
             getWeek d' = getWeek d - 1.
Proof.
  intros V W. pose proof (dayNumber_year_bounds d V) as B.
  rewrite (getWeek_spec d V) in W.
  destruct (Z.leb_spec (sundayOf (daysBeforeYear (getFullYear d + 1))) (dayNumber d))
    as [Next|This]; [lia|].
  pose proof (sundayOf_bounds (daysBeforeYear (getFullYear d))) as S0.
  pose proof (sundayOf_bounds (dayNumber d)) as Sd.
  destruct (sundayOf_diff (dayNumber d) (daysBeforeYear (getFullYear d))) as [k Hk].
  rewrite Hk, Z.mul_comm, Z.div_mul in W by lia.
  destruct (addDays_spec d (sundayOf (dayNumber d) - 1 - dayNumber d) V)
    as (V1 & N1 & _).
  destruct (startOfDay_spec _ V1) as (V2 & M2 & N2).
  set (d' := startOfDay (addDays d (sundayOf (dayNumber d) - 1 - dayNumber d))) in *.
  assert (dayNumber d' = sundayOf (dayNumber d) - 1) as Nd' by lia.
  assert (getFullYear d' = getFullYear d) as Y.
  { apply year_of_dayNumber; [exact V2|lia]. }
  exists d'. repeat split; try assumption.
  rewrite (getWeek_spec d' V2), (getWeek_spec d V), Y, Nd'.
  destruct (Z.leb_spec (sundayOf (daysBeforeYear (getFullYear d + 1)))
                       (sundayOf (dayNumber d) - 1)); [lia|].
  destruct (Z.leb_spec (sundayOf (daysBeforeYear (getFullYear d + 1))) (dayNumber d));
    [lia|].
  replace (sundayOf (dayNumber d) - 1) with (sundayOf (dayNumber d) + 6 + 7 * (-1)) by lia.
  rewrite sundayOf_shift.
  rewrite (sundayOf_same_week (sundayOf (dayNumber d) + 6) (sundayOf (dayNumber d)))
    by (try apply sundayOf_idem; lia).
  replace (sundayOf (dayNumber d) + 7 * -1 - sundayOf (daysBeforeYear (getFullYear d)))
    with (7 * (k - 1)) by lia.
  rewrite Hk. rewrite !(Z.mul_comm 7), !Z.div_mul by lia. lia.
Qed.

(** Every year has a day of week 52. *)
Lemma getWeek_52 y :
  exists d, valid d /\ msOfDay d = 0 /\ getFullYear d = y /\ getWeek d = 52.
Proof.
  destruct (newYear_spec y) as (V0 & M0 & N0 & _).
  destruct (addDays_spec (mkDate y 0 1 0) 357 V0) as (V & N & M).
  set (d := addDays (mkDate y 0 1 0) 357) in *.
  pose proof (daysInYear_bounds y).
  assert (getFullYear d = y) as Y.
  { apply year_of_dayNumber; [exact V|]. rewrite daysBeforeYear_succ. lia. }
  exists d. split; [exact V|]. split; [rewrite M; reflexivity|]. split; [exact Y|].
  rewrite (getWeek_spec d V), Y, N, N0.
  pose proof (sundayOf_bounds (daysBeforeYear (y + 1))) as S1.
  rewrite daysBeforeYear_succ in *.
  destruct (Z.leb_spec (sundayOf (daysBeforeYear y + daysInYear y))
                       (daysBeforeYear y + 357)); [lia|].
  replace (daysBeforeYear y + 357) with (daysBeforeYear y + 7 * 51) by lia.
  rewrite sundayOf_shift.
  replace (sundayOf (daysBeforeYear y) + 7 * 51 - sundayOf (daysBeforeYear y))
    with (51 * 7) by lia.
  rewrite Z.div_mul by lia. reflexivity.
Qed.

Lemma Math_ceil_half_bounds w : 1 <= w <= 53 -> 1 <= Math_ceil_half w <= 27.
Proof. unfold Math_ceil_half. Z.to_euclidean_division_equations; lia. Qed.

Lemma Math_ceil_half_above w : 1 < Math_ceil_half w -> 2 < w.
Proof. unfold Math_ceil_half. Z.to_euclidean_division_equations; lia. Qed.

Lemma Math_ceil_half_pred w : Math_ceil_half (w - 1 - 1) = Math_ceil_half w - 1.
Proof. unfold Math_ceil_half. Z.to_euclidean_division_equations; lia. Qed.

(** ** Levels and periods of the result *)

Section WindowFacts.
Context {B : Type} `{Bucket B}.
Variables (data : list string) (parsed : list Date) (lo hi : Date).
Hypothesis Pd : Parsed data parsed lo hi.

Lemma window_total key lvl ks (o : JsObject B) :
  (forall x, valid x -> msOfDay x = 0 -> 1 <= getFullYear x <= 9999 ->
             lvl x = if in_dec Date_eq_dec x parsed then 1 else 0) ->
  refines o (ensureAll ks (tallyAll key lvl (windowDays lo hi) [])) ->
  totalLevel (Object_values o) = distinctDays parsed.
Proof.
  intros Lv R. destruct (refines_values o _ R) as [_ ->].
  assert (ascending (@keys Z [])) as S0 by constructor.
  rewrite ensureAll_sum by (apply tallyAll_ascending, S0).
  rewrite tallyAll_sum by exact S0. cbn [map sumZ].
  rewrite (distinctDays_parsed data parsed (parsed_all _ _ _ _ Pd)).
  destruct (Parsed_order _ _ _ _ Pd) as (Vlo & Vhi & L).
  rewrite (count_levels lvl (windowDays lo hi) parsed); [lia| | |].
  - apply daysList_NoDup, startOfYear_spec.
  - intros p I. apply (Parsed_in_window _ _ _ _ p Pd I).
  - intros d I. destruct (Parsed_window_day _ _ _ _ d Pd I) as (V & M & Y).
    apply Lv; assumption.
Qed.

Lemma window_periods key lvl ks (o : JsObject B) :
  refines o (ensureAll ks (tallyAll key lvl (windowDays lo hi) [])) ->
  ascending (map period (Object_values o)) /\
  forall j, In j (map period (Object_values o)) <->
            In j ks \/ exists d, In d (windowDays lo hi) /\ key d = j.
Proof.
  intros R. destruct (refines_values o _ R) as [-> _].
  assert (ascending (@keys Z [])) as S0 by constructor.
  split.
  - apply ensureAll_ascending, tallyAll_ascending, S0.
  - intros j. rewrite ensureAll_keys, tallyAll_keys. cbn [keys map In]. tauto.
Qed.

Lemma window_same_year d d' :
  In d (windowDays lo hi) ->
  valid d' -> msOfDay d' = 0 -> getFullYear d' = getFullYear d ->
  In d' (windowDays lo hi).
Proof.
  intros I V' M' Y. destruct (Parsed_order _ _ _ _ Pd) as (Vlo & Vhi & L).
  pose proof (windowDays_years lo hi d Vlo Vhi L I) as Yd.
  pose proof (dayNumber_year_bounds d' V') as Bd. rewrite Y in Bd.
  pose proof (daysBeforeYear_mono (getFullYear lo) (getFullYear d) ltac:(lia)).
  pose proof (daysBeforeYear_mono (getFullYear d + 1) (getFullYear hi + 1) ltac:(lia)).
  apply windowDays_In; try assumption. repeat split; try assumption; lia.
Qed.

Lemma window_has_lo : In lo (windowDays lo hi).
Proof. apply (Parsed_in_window _ _ _ _ lo Pd), (parsed_lo_in _ _ _ _ Pd). Qed.

(** The weeks of the visited days are closed downwards. *)
Lemma window_week_pred d :
  In d (windowDays lo hi) -> 1 < getWeek d ->
  exists d', In d' (windowDays lo hi) /\ getWeek d' = getWeek d - 1.
Proof.
  intros I W. destruct (Parsed_window_day _ _ _ _ d Pd I) as (V & M & Y).
  destruct (getWeek_pred d V W) as (d' & V' & M' & Y' & W').
  exists d'. split; [apply (window_same_year d); assumption|exact W'].
Qed.

Lemma window_week_52 : exists d, In d (windowDays lo hi) /\ getWeek d = 52.
Proof.
  destruct (getWeek_52 (getFullYear lo)) as (d & V & M & Y & W).
  exists d. split; [apply (window_same_year lo); auto using window_has_lo|exact W].
Qed.

(** The week buckets are the weeks 1..[n], for 52 or 53 weeks, and the
    second loop adds none. *)
Lemma window_weeks lvl (o : JsObject B) :
  refines o (ensureAll (upTo 1 (getWeek (endOfYear hi)))
               (tallyAll getWeek lvl (windowDays lo hi) [])) ->
  exists n, map period (Object_values o) = upTo 1 n /\ 52 <= n <= 53 /\
            getWeek (endOfYear hi) <= n.
Proof.
  intros R. destruct (window_periods _ _ _ _ R) as [S K].
  destruct (endOfYear_spec hi) as (Ve & _ & _).
  pose proof (getWeek_bounds _ Ve) as Be.
  set (l := map period (Object_values o)) in *.
  assert (forall j, In j l -> 1 <= j <= 53) as Bl.
  { intros j I. apply K in I. destruct I as [I|(d & I & <-)].
    - apply upTo_In in I. lia.
    - apply getWeek_bounds, (Parsed_window_day _ _ _ _ d Pd I). }
  pose proof (ascending_closed_upTo l 1 S) as C.
  assert (l = upTo 1 (1 + Z.of_nat (List.length l) - 1)) as E.
  { apply C; [intros j I; apply Bl in I; lia|].
    intros j I L. apply K. apply K in I. destruct I as [I|(d & I & <-)].
    - left. apply upTo_In. apply upTo_In in I. lia.
    - right. apply window_week_pred; assumption. }
  exists (1 + Z.of_nat (List.length l) - 1). split; [exact E|].
  assert (forall j, In j l -> j <= 1 + Z.of_nat (List.length l) - 1) as Up.
  { intros j I. rewrite E in I. apply upTo_In in I. lia. }
  assert (In (1 + Z.of_nat (List.length l) - 1) l \/ l = []) as [Top|Empty].
  { destruct l as [|x l'] eqn:El; [right; reflexivity|left].
    rewrite E at 2. apply upTo_In. cbn [List.length]. lia. }
  - destruct window_week_52 as (d & I & W).
    assert (In 52 l) as I52 by (apply K; right; exists d; auto).
    assert (In (getWeek (endOfYear hi)) l) as Ie.
    { apply K. left. apply upTo_In. lia. }
    apply Up in I52, Ie. apply Bl in Top. lia.
  - destruct window_week_52 as (d & I & W).
    assert (In 52 l) as I52 by (apply K; right; exists d; auto).
    rewrite Empty in I52. destruct I52.
Qed.

(** The same for bi-weeks: 26 or 27 of them. *)
Lemma window_biweeks lvl (o : JsObject B) :
  refines o (ensureAll (upTo 1 (Math_ceil_half (getWeek (endOfYear hi))))
               (tallyAll (fun d => Math_ceil_half (getWeek d)) lvl
                         (windowDays lo hi) [])) ->
  exists n, map period (Object_values o) = upTo 1 n /\ 26 <= n <= 27 /\
            Math_ceil_half (getWeek (endOfYear hi)) <= n.
Proof.
  intros R. destruct (window_periods _ _ _ _ R) as [S K].
  destruct (endOfYear_spec hi) as (Ve & _ & _).
  pose proof (getWeek_bounds _ Ve) as Be.
  pose proof Math_ceil_half_bounds as Half.
  set (l := map period (Object_values o)) in *.
  assert (forall j, In j l -> 1 <= j <= 27) as Bl.
  { intros j I. apply K in I. destruct I as [I|(d & I & <-)].
    - apply upTo_In in I. pose proof (Half _ Be). lia.
    - apply Half, getWeek_bounds, (Parsed_window_day _ _ _ _ d Pd I). }
  pose proof (ascending_closed_upTo l 1 S) as C.
  assert (l = upTo 1 (1 + Z.of_nat (List.length l) - 1)) as E.
  { apply C; [intros j I; apply Bl in I; lia|].
    intros j I L. apply K. apply K in I. destruct I as [I|(d & I & <-)].
    - left. apply upTo_In. apply upTo_In in I. lia.
    - right.
      pose proof (Math_ceil_half_above (getWeek d) L) as W2.
      destruct (window_week_pred d I ltac:(lia)) as (d1 & I1 & W1).
      destruct (window_week_pred d1 I1 ltac:(lia)) as (d2 & I2 & W2').
      exists d2. split; [exact I2|]. rewrite W2', W1.
      apply Math_ceil_half_pred. }
  exists (1 + Z.of_nat (List.length l) - 1). split; [exact E|].
  assert (forall j, In j l -> j <= 1 + Z.of_nat (List.length l) - 1) as Up.
  { intros j I. rewrite E in I. apply upTo_In in I. lia. }
  destruct window_week_52 as (d & I & W).
  assert (In 26 l) as I26.
  { apply K. right. exists d. split; [exact I|]. rewrite W. reflexivity. }
  assert (In (Math_ceil_half (getWeek (endOfYear hi))) l) as Ie.
  { apply K. left. apply upTo_In. pose proof (Half _ Be). lia. }
  assert (In (1 + Z.of_nat (List.length l) - 1) l) as Top.
  { destruct l as [|x l'] eqn:El; [destruct I26|].
    rewrite E at 2. apply upTo_In. cbn [List.length]. lia. }
  apply Up in I26, Ie. apply Bl in Top. lia.
Qed.

(** Month, quarter and semester buckets: the second loop completes the
    fixed range. *)
Lemma window_fixed key lvl n (o : JsObject B) :
  (forall d, valid d -> 1 <= key d <= n) ->
  refines o (ensureAll (upTo 1 n) (tallyAll key lvl (windowDays lo hi) [])) ->
  map period (Object_values o) = upTo 1 n.
Proof.
  intros Hk R. destruct (window_periods _ _ _ _ R) as [S K].
  apply ascending_interval; [exact S|].
  intros j. rewrite K, upTo_In. split; [|auto].
  intros [I|(d & I & <-)]; [exact I|].
  apply Hk, (Parsed_window_day _ _ _ _ d Pd I).
Qed.

End WindowFacts.

(** The years met between the earliest and the latest date are all the
    years from the one to the other. *)
Lemma spanDays_years lo hi j :
  valid lo -> valid hi -> msOfDay lo = 0 -> dayNumber lo <= dayNumber hi ->
  ((exists d, In d (spanDays lo hi) /\ getYear d = j) <->
   getYear lo <= j <= getYear hi).
Proof.
  intros Vlo Vhi Mlo L. unfold getYear. split.
  - intros (d & I & <-). apply spanDays_In in I; try assumption.
    destruct I as (V & _ & N).
    split; apply year_le_of_dayNumber; try assumption; lia.
  - intros Hj. destruct (Z.eq_dec j (getFullYear lo)) as [->|N].
    + exists lo. split; [|reflexivity].
      apply spanDays_In; try assumption. repeat split; try assumption; lia.
    + destruct (newYear_spec j) as (V & M & Nj & Y).
      exists (mkDate j 0 1 0). split; [|exact Y].
      pose proof (dayNumber_year_bounds lo Vlo).
      pose proof (dayNumber_year_bounds hi Vhi).
      pose proof (daysBeforeYear_mono (getFullYear lo + 1) j ltac:(lia)).
      pose proof (daysBeforeYear_mono j (getFullYear hi) ltac:(lia)).
      apply spanDays_In; try assumption.
      split; [exact V|]. split; [rewrite Mlo; exact M|lia].
Qed.

(** *** The level of each bucket *)

Lemma levelAt_ensure t k j : levelAt (ensure t k 0) j = levelAt t j.
Proof.
  unfold levelAt, ensure. destruct (obj_get t k) eqn:E; [reflexivity|].
  destruct (Z.eq_dec j k) as [->|N].
  - rewrite obj_get_set_same, E. reflexivity.
  - rewrite obj_get_set_other by exact N. reflexivity.
Qed.

Lemma levelAt_tally key lvl d t j :
  levelAt (tally key lvl d t) j = levelAt t j + (if key d =? j then lvl d else 0).
Proof.
  unfold tally, modify. rewrite obj_get_ensure_same.
  unfold levelAt at 1. destruct (Z.eqb_spec (key d) j) as [<-|N].
  - rewrite obj_get_set_same. unfold levelAt. destruct (obj_get t (key d)); lia.
  - rewrite obj_get_set_other by congruence.
    fold (levelAt (ensure t (key d) 0) j). rewrite levelAt_ensure. lia.
Qed.

Lemma levelAt_tallyAll key lvl days t j :
  levelAt (tallyAll key lvl days t) j =
  levelAt t j + sumZ (map (fun d => if key d =? j then lvl d else 0) days).
Proof.
  unfold tallyAll. revert t.
  induction days as [|d days IH]; intros t; cbn [fold_left map sumZ]; [lia|].
  rewrite IH, levelAt_tally. lia.
Qed.

Lemma levelAt_ensureAll ks t j : levelAt (ensureAll ks t) j = levelAt t j.
Proof.
  unfold ensureAll. revert t.
  induction ks as [|k ks IH]; intros t; cbn [fold_left]; [reflexivity|].
  rewrite IH. apply levelAt_ensure.
Qed.

(** Under ascending keys a stored pair is found by its key. *)
Lemma obj_get_In {V : Type} (o : JsObject V) k v :
  ascending (keys o) -> In (k, v) o -> obj_get o k = Some v.
Proof.
  unfold ascending. induction o as [|[k' v'] o IH]; cbn [keys map fst In obj_get];
    intros S I; [destruct I|].
  apply StronglySorted_inv in S. destruct S as [S F].
  destruct I as [E|I].
  - injection E as -> ->. rewrite Z.eqb_refl. reflexivity.
  - destruct (Z.eqb_spec k k') as [->|N]; [|apply IH; assumption].
    rewrite Forall_forall in F.
    assert (In k' (map fst o)) as Ik by (apply in_map_iff; exists (k', v); auto).
    apply F in Ik. lia.
Qed.

Lemma distinctDays_midnight l :
  Forall (fun d => msOfDay d = 0) l ->
  distinctDays l = Z.of_nat (List.length (nodup Date_eq_dec l)).
Proof.
  intros F. unfold distinctDays. do 3 f_equal.
  induction F as [|d l M _ IH]; cbn [map]; [reflexivity|].
  rewrite (startOfDay_midnight d M). f_equal. exact IH.
Qed.

(** The level of a bucket counts the distinct input days of its period. *)
Lemma bucket_level_counts {B : Type} `{Bucket B} key lvl ks days parsed
    (o : JsObject B) :
  refines o (ensureAll ks (tallyAll key lvl days [])) ->
  NoDup days ->
  Forall (fun d => msOfDay d = 0) parsed ->
  (forall p, In p parsed -> In p days) ->
  (forall d, In d days -> lvl d = if in_dec Date_eq_dec d parsed then 1 else 0) ->
  forall b, In b (Object_values o) ->
  level b = distinctDays (inPeriod key (period b) parsed).
Proof.
  intros R ND Ms Sub Lv b Ib.
  assert (ascending (@keys Z [])) as S0 by constructor.
  assert (ascending (keys (ensureAll ks (tallyAll key lvl days [])))) as Asc
    by (apply ensureAll_ascending, tallyAll_ascending, S0).
  destruct R as [E F].
  unfold Object_values in Ib. apply in_map_iff in Ib.
  destruct Ib as ([k b'] & Eb & Ikb). cbn [snd] in Eb. subst b'.
  rewrite Forall_forall in F. pose proof (F _ Ikb) as Pk. cbn [fst snd] in Pk.
  assert (In (k, level b) (ensureAll ks (tallyAll key lvl days []))) as It.
  { rewrite <- E. unfold mapValues. apply in_map_iff. exists (k, b). auto. }
  apply (obj_get_In _ _ _ Asc) in It.
  assert (level b = levelAt (ensureAll ks (tallyAll key lvl days [])) k) as ->
    by (unfold levelAt; rewrite It; reflexivity).
  rewrite levelAt_ensureAll, levelAt_tallyAll. unfold levelAt at 1. cbn [obj_get].
  rewrite Pk. rewrite distinctDays_midnight.
  - rewrite (count_levels _ days (inPeriod key k parsed)); [lia|exact ND| |].
    + intros p Ip. apply filter_In in Ip. apply Sub, Ip.
    + intros d Id. rewrite (Lv d Id). unfold inPeriod.
      destruct (Z.eqb_spec (key d) k) as [Ek|Nk].
      * destruct (in_dec Date_eq_dec d parsed) as [I|N];
          destruct (in_dec Date_eq_dec d (filter (fun p => key p =? k) parsed))
            as [I'|N']; try reflexivity; exfalso.
        -- apply N', filter_In. split; [exact I|apply Z.eqb_eq, Ek].
        -- apply filter_In in I'. tauto.
      * destruct (in_dec Date_eq_dec d (filter (fun p => key p =? k) parsed))
          as [I'|N']; [|reflexivity].
        apply filter_In in I'. destruct I' as [_ Ek]. apply Z.eqb_eq in Ek. contradiction.
  - unfold inPeriod. apply Forall_forall. intros p Ip. apply filter_In in Ip.
    rewrite Forall_forall in Ms. apply Ms, Ip.
Qed.


(** *** The loop of [getYearlyData] in a zone *)

Lemma fixedOffset_ok : Zone_ok fixedOffset.
Proof. intros d V. unfold fixedOffset. split; [exact V|]. split; [reflexivity|lia]. Qed.

Lemma skipsMidnight_ok days skip :
  2 * skip <= MS_IN_DAY -> Zone_ok (skipsMidnight days skip).
Proof.
  intros S1 d V. unfold skipsMidnight.
  destruct ((msOfDay d <? skip) && existsb (Z.eqb (dayNumber d)) days) eqn:E.
  - apply andb_true_iff in E. destruct E as [E _]. apply Z.ltb_lt in E.
    pose proof (proj1 (valid_iff d) V) as (A & B & C).
    split; [|split].
    + apply valid_iff. cbn [getFullYear getMonth getDate msOfDay]. lia.
    + reflexivity.
    + cbn [msOfDay]. lia.
  - split; [exact V|]. split; [reflexivity|lia].
Qed.

(** The zone keeps the order of midnights. *)
Lemma zone_earlier_later zone a b :
  Zone_ok zone -> valid a -> valid b -> msOfDay a = 0 -> msOfDay b = 0 ->
  earlier (zone a) (zone b) = zone (earlier a b) /\
  later (zone a) (zone b) = zone (later a b).
Proof.
  intros Zok Va Vb Ma Mb.
  destruct (Z.eq_dec (dayNumber a) (dayNumber b)) as [E|N].
  - assert (a = b) as -> by (apply dayNumber_inj; auto; lia).
    unfold earlier, later. rewrite !Z.ltb_irrefl. auto.
  - destruct (Zok a Va) as (Vza & Nza & _). destruct (Zok b Vb) as (Vzb & Nzb & _).
    pose proof (valid_ms _ Vza). pose proof (valid_ms _ Vzb).
    unfold earlier, later, getTime. rewrite Nza, Nzb, Ma, Mb.
    unfold MS_IN_DAY in *.
    destruct (Z.ltb_spec (dayNumber a * 86400000 + msOfDay (zone a))
                         (dayNumber b * 86400000 + msOfDay (zone b)));
      destruct (Z.ltb_spec (dayNumber a * 86400000 + 0) (dayNumber b * 86400000 + 0));
      destruct (Z.ltb_spec (dayNumber b * 86400000 + msOfDay (zone b))
                           (dayNumber a * 86400000 + msOfDay (zone a)));
      destruct (Z.ltb_spec (dayNumber b * 86400000 + 0) (dayNumber a * 86400000 + 0));
      try lia; auto.
Qed.

Lemma fold_left_zone (zone : Zone) (f : Date -> Date -> Date) (P : Date -> Prop) l x :
  (forall a b, P a -> P b -> f (zone a) (zone b) = zone (f a b)) ->
  (forall a b, P a -> P b -> P (f a b)) ->
  P x -> Forall P l ->
  fold_left f (map zone l) (zone x) = zone (fold_left f l x).
Proof.
  intros Hf Hp Px F. revert x Px.
  induction F as [|y l Py F IH]; intros x Px; cbn [map fold_left]; [reflexivity|].
  rewrite Hf by assumption. apply IH, Hp; assumption.
Qed.

Lemma reduce_zone zone data parsed lo hi :
  Zone_ok zone -> Parsed data parsed lo hi ->
  reduce earlier (map zone parsed) = Some (zone lo) /\
  reduce later (map zone parsed) = Some (zone hi).
Proof.
  intros Zok Pd. pose proof (parsed_lo _ _ _ _ Pd) as Hlo.
  pose proof (parsed_hi _ _ _ _ Pd) as Hhi.
  assert (Forall (fun d => valid d /\ msOfDay d = 0) parsed) as F.
  { apply Forall_forall. intros p I.
    destruct (Parsed_valid _ _ _ _ p Pd I) as (V & M & _). auto. }
  destruct parsed as [|x l]; [discriminate Hlo|].
  apply Forall_cons_iff in F. destruct F as [Px F].
  cbn [reduce map] in *. injection Hlo as <-. injection Hhi as <-.
  split; f_equal.
  - apply (fold_left_zone zone earlier (fun d => valid d /\ msOfDay d = 0));
      try assumption.
    + intros a b [Va Ma] [Vb Mb]. apply zone_earlier_later; assumption.
    + intros a b Pa Pb. unfold earlier. destruct (_ <? _); assumption.
  - apply (fold_left_zone zone later (fun d => valid d /\ msOfDay d = 0));
      try assumption.
    + intros a b [Va Ma] [Vb Mb]. apply zone_earlier_later; assumption.
    + intros a b Pa Pb. unfold later. destruct (_ <? _); assumption.
Qed.

(** The loop ends; it visits every day before the day of [latest], and
    that day as well unless the zone has moved the clock of the loop past
    the time of [latest]. *)
Lemma forEachDayIn_run {S : Type} zone (body : Date -> S -> S) latest :
  Zone_ok zone -> valid latest ->
  (forall d s, body d s = body (startOfDay d) s) ->
  forall (j : nat) day s,
  valid day ->
  Z.of_nat j = dayNumber latest - dayNumber day + 1 ->
  exists k : nat,
    forEachDayIn zone (Datatypes.S j) day latest body s =
      Some (fold_left (fun s d => body d s) (daysList (startOfDay day) k) s) /\
    (k = j \/ Datatypes.S k = j) /\
    (getTime day <= getTime latest -> (1 <= k)%nat) /\
    ((forall d, zone d = d) -> msOfDay day <= msOfDay latest -> k = j).
Proof.
  intros Zok Vl Hb. pose proof (valid_ms latest Vl) as Ml.
  induction j as [|j IH]; intros day s V Hj; pose proof (valid_ms day V) as Md.
  - exists 0%nat. cbn [forEachDayIn daysList fold_left].
    destruct (Z.leb_spec (getTime day) (getTime latest)) as [T|T].
    + unfold getTime, MS_IN_DAY in *. lia.
    + split; [reflexivity|]. split; [left; reflexivity|]. split; [lia|].
      intros _ _. reflexivity.
  - cbn [forEachDayIn].
    destruct (Z.leb_spec (getTime day) (getTime latest)) as [T|T].
    + destruct (addDays_spec day 1 V) as (V' & N' & M').
      destruct (Zok _ V') as (V'' & N'' & M'').
      destruct (IH (zone (addDays day 1)) (body day s) V'' ltac:(lia))
        as (k & E & K & _ & F).
      exists (Datatypes.S k). cbn [daysList fold_left].
      assert (startOfDay (zone (addDays day 1)) = addDays (startOfDay day) 1) as Es.
      { destruct (startOfDay_spec _ V'') as (A1 & A2 & A3).
        destruct (startOfDay_spec _ V) as (B1 & B2 & B3).
        destruct (addDays_spec (startOfDay day) 1 B1) as (C1 & C2 & C3).
        apply dayNumber_inj; try assumption; lia. }
      rewrite <- Es, <- (Hb day s). split; [exact E|]. split; [lia|].
      split; [lia|].
      intros Zid Hms. f_equal. apply F; [exact Zid|]. rewrite Zid. lia.
    + exists 0%nat. cbn [daysList fold_left]. split; [reflexivity|].
      unfold getTime, MS_IN_DAY in *. split; [right; lia|]. split; [lia|].
      intros _ Hms. lia.
Qed.

(** [getYearlyData] returns the buckets of the days it visits: the [k]
    days from the earliest date on, which are all the days up to the latest
    date, or all but that one. *)
Lemma getYearlyData_walk zone data parsed lo hi :
  Zone_ok zone -> Parsed data parsed lo hi ->
  exists o (k : nat),
    getYearlyData zone data = Some (Object_values o) /\
    refines o (tallyAll getYear (dayLevel data) (daysList lo k) []) /\
    (1 <= k)%nat /\
    (Z.of_nat k = dayNumber hi - dayNumber lo + 1 \/
     Z.of_nat k = dayNumber hi - dayNumber lo) /\
    ((forall d, zone d = d) -> Z.of_nat k = dayNumber hi - dayNumber lo + 1).
Proof.
  intros Zok Pd. unfold getYearlyData.
  destruct (Parsed_order _ _ _ _ Pd) as (Vlo & Vhi & L).
  destruct (Parsed_valid _ _ _ _ lo Pd (parsed_lo_in _ _ _ _ Pd)) as (_ & Mlo & _).
  destruct (Parsed_valid _ _ _ _ hi Pd (parsed_hi_in _ _ _ _ Pd)) as (_ & Mhi & _).
  destruct (reduce_zone zone _ _ _ _ Zok Pd) as [Elo Ehi].
  destruct (Zok lo Vlo) as (Vzlo & Nzlo & Mzlo).
  destruct (Zok hi Vhi) as (Vzhi & Nzhi & Mzhi).
  enter_bucketizer Pd. rewrite Elo, Ehi.
  unfold daysFuel. rewrite Nzlo, Nzhi.
  replace (Z.to_nat (dayNumber hi - dayNumber lo + 2))
    with (Datatypes.S (Z.to_nat (dayNumber hi - dayNumber lo + 1))) by lia.
  match goal with
  | |- context [forEachDayIn zone _ _ _ ?body []] =>
    destruct (forEachDayIn_run zone body (zone hi) Zok Vzhi
                (fun d o => eq_refl) (Z.to_nat (dayNumber hi - dayNumber lo + 1))
                (zone lo) [] Vzlo ltac:(lia)) as (k & E & K & K1 & Kid)
  end.
  rewrite E.
  assert (startOfDay (zone lo) = lo) as ->.
  { destruct (startOfDay_spec _ Vzlo) as (A1 & A2 & A3).
    apply dayNumber_inj; try assumption; lia. }
  eexists. exists k. split; [reflexivity|]. split.
  - apply (refines_fold _ getYear (dayLevel _)); [|apply refines_nil].
    intros d o t _ R.
    apply (refines_tally getYear (dayLevel _)); auto.
  - assert (getTime (zone lo) <= getTime (zone hi)) as T.
    { destruct (Z.eq_dec (dayNumber lo) (dayNumber hi)) as [Eq|Ne].
      - assert (lo = hi) as -> by (apply dayNumber_inj; auto; lia). lia.
      - pose proof (valid_ms _ Vzlo). pose proof (valid_ms _ Vzhi).
        unfold getTime, MS_IN_DAY in *. lia. }
    split; [exact (K1 T)|]. split; [lia|].
    intros Zid. rewrite (Kid Zid); [lia|]. rewrite !Zid. lia.
Qed.

Lemma distinctDays_incl l l' :
  Forall (fun d => msOfDay d = 0) l -> Forall (fun d => msOfDay d = 0) l' ->
  incl l l' -> distinctDays l <= distinctDays l'.
Proof.
  intros F F' I. rewrite !distinctDays_midnight by assumption.
  apply inj_le, NoDup_incl_length; [apply NoDup_nodup|].
  intros x Ix. apply nodup_In. apply I. apply nodup_In in Ix. exact Ix.
Qed.

Lemma distinctDays_but_one l l' x :
  Forall (fun d => msOfDay d = 0) l -> Forall (fun d => msOfDay d = 0) l' ->
  incl l (x :: l') -> distinctDays l <= distinctDays l' + 1.
Proof.
  intros F F' I. rewrite !distinctDays_midnight by assumption.
  assert (List.length (nodup Date_eq_dec l)
          <= List.length (x :: nodup Date_eq_dec l'))%nat as Le.
  { apply NoDup_incl_length; [apply NoDup_nodup|].
    intros y Iy. apply nodup_In in Iy. destruct (I y Iy) as [<-|Iy'].
    - left. reflexivity.
    - right. apply nodup_In. exact Iy'. }
  cbn [List.length] in Le. lia.
Qed.

(** The buckets of [getYearlyData] in a zone, from the last day that its
    loop visits. *)
Lemma getYearlyData_visits zone data parsed lo hi :
  Zone_ok zone -> Parsed data parsed lo hi ->
  exists out last,
    getYearlyData zone data = Some out /\
    valid last /\ msOfDay last = 0 /\
    dayNumber lo <= dayNumber last /\
    (last = hi \/ dayNumber last = dayNumber hi - 1) /\
    ((forall d, zone d = d) -> last = hi) /\
    map period out = upTo (getYear lo) (getYear last) /\
    forall b, In b out ->
      level b = distinctDays
                  (inPeriod getYear (period b)
                     (filter (fun p => dayNumber p <=? dayNumber last) parsed)).
Proof.
  intros Zok Pd.
  destruct (getYearlyData_walk zone _ _ _ _ Zok Pd) as (o & k & E & R & K1 & K & Kid).
  destruct (Parsed_order _ _ _ _ Pd) as (Vlo & Vhi & L).
  destruct (Parsed_valid _ _ _ _ lo Pd (parsed_lo_in _ _ _ _ Pd)) as (_ & Mlo & Ylo).
  destruct (Parsed_valid _ _ _ _ hi Pd (parsed_hi_in _ _ _ _ Pd)) as (_ & Mhi & Yhi).
  pose proof (parsed_all _ _ _ _ Pd) as P.
  destruct (addDays_spec lo (Z.of_nat k - 1) Vlo) as (Vl & Nl & Ml).
  set (last := addDays lo (Z.of_nat k - 1)) in *.
  assert (daysList lo k = spanDays lo last) as Ed.
  { unfold spanDays. f_equal. lia. }
  rewrite Ed in R.
  assert (dayNumber last = dayNumber hi -> last = hi) as Same
    by (intros Eq; apply dayNumber_inj; auto; lia).
  exists (Object_values o), last.
  split; [exact E|]. split; [exact Vl|]. split; [lia|]. split; [lia|].
  split; [destruct K; [left; apply Same; lia|right; lia]|].
  split; [intros Zid; apply Same; rewrite (Kid Zid) in Nl; lia|].
  assert (ascending (@keys Z [])) as S0 by constructor.
  split.
  - destruct (refines_values o _ R) as [-> _].
    apply ascending_interval; [apply tallyAll_ascending, S0|].
    intros j. rewrite tallyAll_keys. cbn [keys map In].
    rewrite <- (spanDays_years lo last j Vlo Vl ltac:(lia) ltac:(lia)). tauto.
  - apply (bucket_level_counts getYear (dayLevel data) [] (spanDays lo last) _ o R).
    + apply daysList_NoDup, Vlo.
    + apply Forall_forall. intros p I. apply filter_In in I.
      apply (Parsed_valid _ _ _ _ p Pd (proj1 I)).
    + intros p I. apply filter_In in I. destruct I as [I Le].
      apply Z.leb_le in Le.
      destruct (Parsed_valid _ _ _ _ p Pd I) as (Vp & Mp & _).
      pose proof (parsed_between _ _ _ _ Pd p I).
      apply spanDays_In; try assumption; [lia|].
      repeat split; try assumption; lia.
    + intros d I. apply spanDays_In in I; try assumption; [|lia].
      destruct I as (V & M & N).
      assert (getFullYear lo <= getFullYear d <= getFullYear hi) as Y.
      { split; apply year_le_of_dayNumber; try assumption; lia. }
      rewrite (dayLevel_spec data parsed d P V) by lia.
      destruct (in_dec Date_eq_dec d parsed) as [Id|Nd];
        destruct (in_dec Date_eq_dec d _) as [Id'|Nd']; try reflexivity.
      * exfalso. apply Nd'. apply filter_In. split; [exact Id|].
        apply Z.leb_le. lia.
      * exfalso. apply Nd. apply filter_In in Id'. tauto.
Qed.

(* ================================================================= *)
(** * The claims of the specification *)

(** ** C1 *)

(** C1. For a non-empty list of well-formed day-precision date strings,
    each of the six non-yearly bucketizers returns buckets whose levels
    sum to the number of distinct calendar days of the input: every input
    day lies in the window from the start of the earliest year to the end
    of the latest, and a day with several completion records counts once. *)
Theorem levels_sum_to_distinct_days (data : list string) (parsed : list Date) :
  data <> [] ->
  parseAll data = Some parsed ->
  (exists out, getDailyData data = Some out /\ totalLevel out = distinctDays parsed) /\
  (exists out, getWeeklyData data = Some out /\ totalLevel out = distinctDays parsed) /\
  (exists out, getBiWeeklyData data = Some out /\ totalLevel out = distinctDays parsed) /\
  (exists out, getMonthlyData data = Some out /\ totalLevel out = distinctDays parsed) /\
  (exists out, getQuarterlyData data = Some out /\ totalLevel out = distinctDays parsed) /\
  (exists out, getSemesterlyData data = Some out /\ totalLevel out = distinctDays parsed).
Proof.
  intros NE P. destruct (Parsed_intro data parsed NE P) as (lo & hi & Pd).
  pose proof (fun x V M Y => dayLevel_spec data parsed x P V M Y) as Lv.
  pose proof (fun x V M (Y : 1 <= getFullYear x <= 9999) =>
                dayLevelSameDay_spec data parsed x P V M) as Lv'.
  repeat split.
  - destruct (getDailyData_run _ _ _ _ Pd) as (o & E & R).
    exists (Object_values o). split; [exact E|].
    apply (window_total _ _ _ _ Pd _ _ _ _ Lv R).
  - destruct (getWeeklyData_run _ _ _ _ Pd) as (o & E & R).
    exists (Object_values o). split; [exact E|].
    apply (window_total _ _ _ _ Pd _ _ _ _ Lv R).
  - destruct (getBiWeeklyData_run _ _ _ _ Pd) as (o & E & R).
    exists (Object_values o). split; [exact E|].
    apply (window_total _ _ _ _ Pd _ _ _ _ Lv' R).
  - destruct (getMonthlyData_run _ _ _ _ Pd) as (o & E & R).
    exists (Object_values o). split; [exact E|].
    apply (window_total _ _ _ _ Pd _ _ _ _ Lv R).
  - destruct (getQuarterlyData_run _ _ _ _ Pd) as (o & E & R).
    exists (Object_values o). split; [exact E|].
    apply (window_total _ _ _ _ Pd _ _ _ _ Lv R).
  - destruct (getSemesterlyData_run _ _ _ _ Pd) as (o & E & R).
    exists (Object_values o). split; [exact E|].
    apply (window_total _ _ _ _ Pd _ _ _ _ Lv R).
Qed.

Lemma levels_sum_to_distinct_days_witness :
  let data := ["2024-03-05"; "2024-03-05"; "2023-07-01"]%string in
  let parsed := [mkDate 2024 2 5 0; mkDate 2024 2 5 0; mkDate 2023 6 1 0] in
  data <> [] /\ parseAll data = Some parsed /\ distinctDays parsed = 2 /\
  (exists out, getDailyData data = Some out /\ totalLevel out = distinctDays parsed) /\
  (exists out, getWeeklyData data = Some out /\ totalLevel out = distinctDays parsed) /\
  (exists out, getBiWeeklyData data = Some out /\ totalLevel out = distinctDays parsed) /\
  (exists out, getMonthlyData data = Some out /\ totalLevel out = distinctDays parsed) /\
  (exists out, getQuarterlyData data = Some out /\ totalLevel out = distinctDays parsed) /\
  (exists out, getSemesterlyData data = Some out /\ totalLevel out = distinctDays parsed).
Proof.
  intros data parsed.
  split; [discriminate|]. split; [reflexivity|]. split; [reflexivity|].
  apply (levels_sum_to_distinct_days data parsed); [discriminate|reflexivity].
Defined.

(** ** C5 *)

(** C5. For a non-empty list of well-formed date strings, the buckets of
    every non-yearly granularity come in ascending period order, one for
    each index of a range without gaps: the months 1..12, the quarters
    1..4, the semesters 1..2, the weeks 1..n and the bi-weeks 1..n, where n
    is 52 or 53 for weeks and 26 or 27 for bi-weeks and is at least the
    bound of the second loop, [totalWeeks] (the week number of the end of
    the latest year) or [totalBiWeeks]. *)
Theorem buckets_contiguous (data : list string) (parsed : list Date) (hi : Date) :
  data <> [] ->
  parseAll data = Some parsed ->
  reduce later parsed = Some hi ->
  let totalWeeks := getWeek (endOfYear hi) in
  let totalBiWeeks := Math_ceil_half (getWeek (endOfYear hi)) in
  (exists out n, getDailyData data = Some out /\ map period out = upTo 1 n /\
                 52 <= n <= 53 /\ totalWeeks <= n) /\
  (exists out n, getWeeklyData data = Some out /\ map period out = upTo 1 n /\
                 52 <= n <= 53 /\ totalWeeks <= n) /\
  (exists out n, getBiWeeklyData data = Some out /\ map period out = upTo 1 n /\
                 26 <= n <= 27 /\ totalBiWeeks <= n) /\
  (exists out, getMonthlyData data = Some out /\
               map period out = [1; 2; 3; 4; 5; 6; 7; 8; 9; 10; 11; 12]) /\
  (exists out, getQuarterlyData data = Some out /\ map period out = [1; 2; 3; 4]) /\
  (exists out, getSemesterlyData data = Some out /\ map period out = [1; 2]).
Proof.
  intros NE P Hhi totalWeeks totalBiWeeks.
  destruct (Parsed_intro data parsed NE P) as (lo & hi' & Pd).
  assert (hi' = hi) as ->.
  { pose proof (parsed_hi _ _ _ _ Pd). congruence. }
  split; [|split; [|split; [|split; [|split]]]].
  - destruct (getDailyData_run _ _ _ _ Pd) as (o & E & R).
    destruct (window_weeks _ _ _ _ Pd _ _ R) as (n & K & B1 & B2).
    exists (Object_values o), n. auto.
  - destruct (getWeeklyData_run _ _ _ _ Pd) as (o & E & R).
    destruct (window_weeks _ _ _ _ Pd _ _ R) as (n & K & B1 & B2).
    exists (Object_values o), n. auto.
  - destruct (getBiWeeklyData_run _ _ _ _ Pd) as (o & E & R).
    destruct (window_biweeks _ _ _ _ Pd _ _ R) as (n & K & B1 & B2).
    exists (Object_values o), n. auto.
  - destruct (getMonthlyData_run _ _ _ _ Pd) as (o & E & R).
    exists (Object_values o). split; [exact E|].
    apply (window_fixed _ _ _ _ Pd _ _ 12 _) in R; [exact R|].
    intros d V. apply valid_iff in V. lia.
  - destruct (getQuarterlyData_run _ _ _ _ Pd) as (o & E & R).
    exists (Object_values o). split; [exact E|].
    apply (window_fixed _ _ _ _ Pd _ _ 4 _) in R; [exact R|].
    intros d V. apply valid_iff in V. unfold getQuarter.
    Z.to_euclidean_division_equations; lia.
  - destruct (getSemesterlyData_run _ _ _ _ Pd) as (o & E & R).
    exists (Object_values o). split; [exact E|].
    apply (window_fixed _ _ _ _ Pd _ _ 2 _) in R; [exact R|].
    intros d V. cbv beta. destruct (getMonth d <? 6); lia.
Qed.

Lemma buckets_contiguous_witness :
  let data := ["2022-03-05"; "2024-12-31"; "2023-07-01"]%string in
  let parsed := [mkDate 2022 2 5 0; mkDate 2024 11 31 0; mkDate 2023 6 1 0] in
  let hi := mkDate 2024 11 31 0 in
  data <> [] /\ parseAll data = Some parsed /\ reduce later parsed = Some hi /\
  getWeek (endOfYear hi) = 1 /\
  (exists out n, getDailyData data = Some out /\ map period out = upTo 1 n /\
                 52 <= n <= 53 /\ getWeek (endOfYear hi) <= n) /\
  (exists out n, getWeeklyData data = Some out /\ map period out = upTo 1 n /\
                 52 <= n <= 53 /\ getWeek (endOfYear hi) <= n) /\
  (exists out n, getBiWeeklyData data = Some out /\ map period out = upTo 1 n /\
                 26 <= n <= 27 /\ Math_ceil_half (getWeek (endOfYear hi)) <= n) /\
  (exists out, getMonthlyData data = Some out /\
               map period out = [1; 2; 3; 4; 5; 6; 7; 8; 9; 10; 11; 12]) /\
  (exists out, getQuarterlyData data = Some out /\ map period out = [1; 2; 3; 4]) /\
  (exists out, getSemesterlyData data = Some out /\ map period out = [1; 2]).
Proof.
  intros data parsed hi.
  split; [discriminate|]. split; [reflexivity|]. split; [reflexivity|].
  split; [reflexivity|].
  apply (buckets_contiguous data parsed hi); [discriminate|reflexivity|reflexivity].
Defined.

(** ** C6 *)

(** C6, as the specification states it, fails: between two dates two
    years apart [getYearlyData] also emits a bucket, of level 0, for the
    year in between, which is the year of no input date.  This is so in a
    zone with a fixed offset and in one that sets its clocks forward at
    midnight; in the latter the day of the latest date is not visited, and
    its year gets the level 0 as well. *)
Lemma yearly_intervening_year :
  getYearlyData fixedOffset ["2020-06-01"; "2022-06-01"]%string =
    Some [YearlyBucket.mk 2020 1; YearlyBucket.mk 2021 0; YearlyBucket.mk 2022 1] /\
  getYearlyData midnightSkips ["2020-06-01"; "2022-06-01"]%string =
    Some [YearlyBucket.mk 2020 1; YearlyBucket.mk 2021 0; YearlyBucket.mk 2022 0] /\
  ~ onlyYearsPresent fixedOffset ["2020-06-01"; "2022-06-01"]%string /\
  ~ onlyYearsPresent midnightSkips ["2020-06-01"; "2022-06-01"]%string.
Proof.
  assert (getYearlyData fixedOffset ["2020-06-01"; "2022-06-01"]%string =
          Some [YearlyBucket.mk 2020 1; YearlyBucket.mk 2021 0; YearlyBucket.mk 2022 1])
    as Out by (vm_compute; reflexivity).
  assert (getYearlyData midnightSkips ["2020-06-01"; "2022-06-01"]%string =
          Some [YearlyBucket.mk 2020 1; YearlyBucket.mk 2021 0; YearlyBucket.mk 2022 0])
    as Out' by (vm_compute; reflexivity).
  split; [exact Out|]. split; [exact Out'|]. split; intros C.
  - destruct (C _ Out (YearlyBucket.mk 2021 0)) as (s & d & I & E & Y).
    { right. left. reflexivity. }
    destruct I as [<-|[<-|[]]]; vm_compute in E; injection E as <-; discriminate Y.
  - destruct (C _ Out' (YearlyBucket.mk 2021 0)) as (s & d & I & E & Y).
    { right. left. reflexivity. }
    destruct I as [<-|[<-|[]]]; vm_compute in E; injection E as <-; discriminate Y.
Qed.

(** C6, amended. For a non-empty list of well-formed date strings, in
    every zone, [getYearlyData] emits buckets in ascending order of year,
    exactly one for every calendar year from the year of the earliest input
    date to a last year, intervening years without input dates included; a
    bucket whose year is the year of no input date has level 0.  The last
    year is the year of the latest input date, except that it can be the
    year before when the latest date is a January 1st that the loop does
    not visit, which does not happen in a zone that answers every time
    asked for with that time. *)
Theorem yearly_buckets_span (zone : Zone) (data : list string)
    (parsed : list Date) (lo hi : Date) :
  Zone_ok zone ->
  data <> [] ->
  parseAll data = Some parsed ->
  reduce earlier parsed = Some lo ->
  reduce later parsed = Some hi ->
  exists out last,
    getYearlyData zone data = Some out /\
    map period out = upTo (getYear lo) last /\
    getYear lo <= last /\
    (last = getYear hi \/
     (last = getYear hi - 1 /\ getMonth hi = 0 /\ getDate hi = 1)) /\
    ((forall d, zone d = d) -> last = getYear hi) /\
    forall b, In b out ->
      (forall p, In p parsed -> getYear p <> period b) -> level b = 0.
Proof.
  intros Zok NE P Hlo Hhi.
  destruct (Parsed_intro data parsed NE P) as (lo' & hi' & Pd).
  assert (lo' = lo) as -> by (pose proof (parsed_lo _ _ _ _ Pd); congruence).
  assert (hi' = hi) as -> by (pose proof (parsed_hi _ _ _ _ Pd); congruence).
  destruct (Parsed_order _ _ _ _ Pd) as (Vlo & Vhi & L).
  destruct (Parsed_valid _ _ _ _ hi Pd (parsed_hi_in _ _ _ _ Pd)) as (_ & Mhi & _).
  destruct (getYearlyData_visits zone _ _ _ _ Zok Pd)
    as (out & last & E & Vl & Ml & Nl & Cases & Zid & Years & Levels).
  exists out, (getYear last).
  split; [exact E|]. split; [exact Years|].
  split; [apply year_le_of_dayNumber; assumption|].
  split; [|split].
  - destruct Cases as [->|Eq]; [left; reflexivity|].
    unfold getYear.
    pose proof (year_le_of_dayNumber last hi Vl Vhi ltac:(lia)) as Le.
    destruct (Z.eq_dec (getFullYear last) (getFullYear hi)) as [Ey|Ny];
      [left; exact Ey|right].
    pose proof (dayNumber_year_bounds last Vl) as Bl.
    pose proof (dayNumber_year_bounds hi Vhi) as Bh.
    pose proof (daysBeforeYear_mono (getFullYear last + 1) (getFullYear hi)
                  ltac:(lia)) as Mo.
    assert (dayNumber hi = daysBeforeYear (getFullYear hi)) as First by lia.
    destruct (newYear_spec (getFullYear hi)) as (Vn & Mn & Nn & Yn).
    assert (hi = mkDate (getFullYear hi) 0 1 0) as Ehi
      by (apply dayNumber_inj; auto; lia).
    split; [|rewrite Ehi; cbn [getMonth getDate]; auto].
    destruct (Z.eq_dec (getFullYear last + 1) (getFullYear hi)) as [Ey|Ny'];
      [lia|].
    pose proof (daysBeforeYear_mono (getFullYear last + 1) (getFullYear hi - 1)
                  ltac:(lia)) as Mo'.
    pose proof (daysBeforeYear_mono (getFullYear hi - 1) (getFullYear hi)
                  ltac:(lia)) as Mo''.
    lia.
  - intros Hz. rewrite (Zid Hz). reflexivity.
  - intros b Ib None. rewrite (Levels b Ib).
    destruct (inPeriod getYear (period b) _) as [|p l] eqn:Ef;
      [reflexivity|exfalso].
    assert (In p (p :: l)) as Ip by (left; reflexivity).
    rewrite <- Ef in Ip. unfold inPeriod in Ip.
    apply filter_In in Ip. destruct Ip as [Ip Ey].
    apply filter_In in Ip. apply Z.eqb_eq in Ey.
    exact (None p (proj1 Ip) Ey).
Qed.

Lemma yearly_buckets_span_witness :
  let data := ["2022-01-01"; "2020-06-01"; "2020-06-01"]%string in
  let parsed := [mkDate 2022 0 1 0; mkDate 2020 5 1 0; mkDate 2020 5 1 0] in
  Zone_ok midnightSkips /\
  data <> [] /\ parseAll data = Some parsed /\
  reduce earlier parsed = Some (mkDate 2020 5 1 0) /\
  reduce later parsed = Some (mkDate 2022 0 1 0) /\
  getYearlyData midnightSkips data =
    Some [YearlyBucket.mk 2020 1; YearlyBucket.mk 2021 0] /\
  exists out last,
    getYearlyData midnightSkips data = Some out /\
    map period out = upTo 2020 last /\
    2020 <= last /\
    (last = 2022 \/ (last = 2022 - 1 /\ 0 = 0 /\ 1 = 1)) /\
    ((forall d, midnightSkips d = d) -> last = 2022) /\
    forall b, In b out ->
      (forall p, In p parsed -> getYear p <> period b) -> level b = 0.
Proof.
  intros data parsed.
  assert (Zone_ok midnightSkips) as Zok
    by (apply skipsMidnight_ok; unfold MS_IN_DAY; lia).
  split; [exact Zok|].
  split; [discriminate|]. split; [reflexivity|].
  split; [reflexivity|]. split; [reflexivity|].
  split; [vm_compute; reflexivity|].
  apply (yearly_buckets_span midnightSkips data parsed
           (mkDate 2020 5 1 0) (mkDate 2022 0 1 0) Zok);
    [discriminate|reflexivity|reflexivity|reflexivity].
Defined.

(** ** C7 *)

(** C7. On the empty list every aggregation function returns the empty
    sequence, and [calculateStreaks] returns [{current: 0, record: 0}],
    whatever the frequency and the current time. *)
Theorem empty_input :
  getDailyData [] = Some [] /\
  getWeeklyData [] = Some [] /\
  getBiWeeklyData [] = Some [] /\
  getMonthlyData [] = Some [] /\
  getQuarterlyData [] = Some [] /\
  getSemesterlyData [] = Some [] /\
  (forall zone, getYearlyData zone [] = Some []) /\
  forall now frequency, calculateStreaks now [] frequency = Some (mkStreak 0 0).
Proof. repeat split. Qed.

(** ** C8 *)

(** C8. For a frequency that is none of the eight constants, each of
    [handleDisable], [isConsecutive] and [isValidStreak] returns [false],
    for all other arguments: the default branch neither parses nor
    compares anything. *)
Theorem unrecognized_frequency_is_false (raw : string) :
  (forall tz now completions,
     handleDisable tz now (UNRECOGNIZED raw) completions = Some false) /\
  (forall prevDate currDate,
     isConsecutive prevDate currDate (UNRECOGNIZED raw) = false) /\
  (forall lastDate today,
     isValidStreak lastDate today (UNRECOGNIZED raw) = false).
Proof. repeat split. Qed.

(** ** C4 *)

(** C4. Under MONTHLY, December 2023 followed by January 2024 is not
    consecutive, since month 11 plus one is not month 0: the record streak
    of ["2023-12-15", "2024-01-15"] stays 1. *)
Theorem monthly_year_rollover_not_consecutive :
  (forall now,
     exists s, calculateStreaks now ["2023-12-15"; "2024-01-15"]%string MONTHLY = Some s
               /\ record s = 1) /\
  parseISO "2023-12-15" = Some (mkDate 2023 11 15 0) /\
  parseISO "2024-01-15" = Some (mkDate 2024 0 15 0) /\
  isConsecutive (mkDate 2023 11 15 0) (mkDate 2024 0 15 0) MONTHLY = false.
Proof.
  split; [|repeat split].
  intros now. eexists. split; [reflexivity|reflexivity].
Qed.

(** ** C9 *)

(** C9. Under DAILY the dates 2024-01-01, 2024-01-02, 2024-01-03 give a
    record of 3; the current streak is 3 at any time of 2024-01-03 and 0 at
    any time of 2024-01-10.  In general two valid dates are consecutive
    under DAILY exactly when the later is the day after the earlier, and a
    streak is valid exactly when its last date is today or yesterday. *)
Theorem daily_streak_example :
  (forall ms,
     calculateStreaks (mkDate 2024 0 3 ms)
       ["2024-01-01"; "2024-01-02"; "2024-01-03"]%string DAILY
     = Some (mkStreak 3 3)) /\
  (forall ms,
     calculateStreaks (mkDate 2024 0 10 ms)
       ["2024-01-01"; "2024-01-02"; "2024-01-03"]%string DAILY
     = Some (mkStreak 0 3)) /\
  (forall prevDate currDate, valid prevDate -> valid currDate ->
     (isConsecutive prevDate currDate DAILY = true <->
      dayNumber currDate = dayNumber prevDate + 1)) /\
  (forall lastDate today, valid lastDate -> valid today ->
     (isValidStreak lastDate today DAILY = true <->
      dayNumber lastDate = dayNumber today \/
      dayNumber lastDate = dayNumber today - 1)).
Proof.
  split; [intros ms; reflexivity|].
  split; [intros ms; reflexivity|].
  split.
  - intros prevDate currDate Vp Vc. cbn [isConsecutive].
    destruct (addDays_spec prevDate 1 Vp) as (V & N & _).
    rewrite (isSameDay_iff _ _ V Vc), N. lia.
  - intros lastDate today Vl Vt. cbn [isValidStreak].
    destruct (addDays_spec lastDate 1 Vl) as (V & N & _).
    rewrite orb_true_iff, (isSameDay_iff _ _ V Vt), (isSameDay_iff _ _ Vl Vt), N. lia.
Qed.

Lemma daily_streak_example_witness :
  valid (mkDate 2024 1 29 0) /\ valid (mkDate 2024 2 1 noon) /\
  (isConsecutive (mkDate 2024 1 29 0) (mkDate 2024 2 1 noon) DAILY = true <->
   dayNumber (mkDate 2024 2 1 noon) = dayNumber (mkDate 2024 1 29 0) + 1) /\
  (isValidStreak (mkDate 2024 1 29 0) (mkDate 2024 2 1 noon) DAILY = true <->
   dayNumber (mkDate 2024 1 29 0) = dayNumber (mkDate 2024 2 1 noon) \/
   dayNumber (mkDate 2024 1 29 0) = dayNumber (mkDate 2024 2 1 noon) - 1).
Proof.
  split; [reflexivity|]. split; [reflexivity|].
  destruct daily_streak_example as (_ & _ & C & S).
  split; [apply C; reflexivity|apply S; reflexivity].
Defined.

(** ** Streaks *)

Lemma insertByTime_In p l x : In x (insertByTime p l) <-> x = p \/ In x l.
Proof.
  induction l as [|y l IH]; cbn [insertByTime In].
  - split; [intros [E|[]]; auto|intros [E|[]]; auto].
  - destruct (getTime p - getTime y <=? 0); cbn [In]; [|rewrite IH];
      intuition congruence.
Qed.

Lemma sortByTime_In l x : In x (sortByTime l) <-> In x l.
Proof.
  induction l as [|y l IH]; cbn [sortByTime fold_right In]; [tauto|].
  fold (sortByTime l). rewrite insertByTime_In, IH. intuition congruence.
Qed.

Lemma insertByTime_length p l :
  List.length (insertByTime p l) = S (List.length l).
Proof.
  induction l as [|y l IH]; cbn [insertByTime List.length]; [reflexivity|].
  destruct (getTime p - getTime y <=? 0); cbn [List.length]; [reflexivity|].
  rewrite IH. reflexivity.
Qed.

Lemma sortByTime_length l : List.length (sortByTime l) = List.length l.
Proof.
  induction l as [|y l IH]; cbn [sortByTime fold_right List.length]; [reflexivity|].
  fold (sortByTime l). rewrite insertByTime_length, IH. reflexivity.
Qed.

Lemma insertByTime_sorted p l :
  StronglySorted byTime l -> StronglySorted byTime (insertByTime p l).
Proof.
  induction l as [|y l IH]; cbn [insertByTime]; intros S.
  - repeat constructor.
  - apply StronglySorted_inv in S. destruct S as [S F].
    destruct (Z.leb_spec (getTime p - getTime y) 0) as [L|G].
    + constructor; [constructor; assumption|].
      constructor; [unfold byTime; lia|].
      eapply Forall_impl; [|exact F]. unfold byTime. intros; lia.
    + constructor; [apply IH, S|].
      apply Forall_forall. intros x I. apply insertByTime_In in I.
      destruct I as [->|I]; [unfold byTime; lia|].
      rewrite Forall_forall in F. apply F, I.
Qed.

Lemma sortByTime_sorted l : StronglySorted byTime (sortByTime l).
Proof.
  induction l as [|y l IH]; cbn [sortByTime fold_right]; [constructor|].
  apply insertByTime_sorted, IH.
Qed.

(** A date that the sorted list already holds is inserted next to
    itself. *)
Lemma insertByTime_duplicate p l :
  StronglySorted byTime l -> In p l ->
  (forall y, In y l -> getTime y = getTime p -> y = p) ->
  exists l1 l2, l = l1 ++ p :: l2 /\ insertByTime p l = l1 ++ p :: p :: l2.
Proof.
  induction l as [|y l IH]; intros S I U; [destruct I|].
  apply StronglySorted_inv in S. destruct S as [S F].
  rewrite Forall_forall in F. cbn [insertByTime].
  destruct (Z.leb_spec (getTime p - getTime y) 0) as [L|G].
  - assert (y = p) as ->.
    { apply U; [left; reflexivity|].
      destruct I as [->|I]; [reflexivity|]. apply F in I. unfold byTime in I. lia. }
    exists [], l. split; reflexivity.
  - destruct I as [->|I]; [lia|].
    destruct (IH S I) as (l1 & l2 & E1 & E2).
    { intros z Iz. apply U. right. exact Iz. }
    exists (y :: l1), l2. cbn [app]. rewrite E2, <- E1. split; reflexivity.
Qed.

Lemma streakLoop_bounds f prev rest s l :
  1 <= s <= l ->
  1 <= fst (streakLoop f prev rest s l) <= snd (streakLoop f prev rest s l) /\
  l <= snd (streakLoop f prev rest s l).
Proof.
  revert prev s l. induction rest as [|c rest IH]; intros prev s l B;
    cbn [streakLoop fst snd]; [lia|].
  destruct (isConsecutive prev c f).
  - destruct (IH c (s + 1) (Z.max l (s + 1)) ltac:(lia)). lia.
  - destruct (IH c 1 l ltac:(lia)). lia.
Qed.

Lemma streakLoop_mono f prev rest s l s' l' :
  s <= s' -> l <= l' ->
  fst (streakLoop f prev rest s l) <= fst (streakLoop f prev rest s' l') /\
  snd (streakLoop f prev rest s l) <= snd (streakLoop f prev rest s' l').
Proof.
  revert prev s l s' l'. induction rest as [|c rest IH]; intros prev s l s' l' Hs Hl;
    cbn [streakLoop fst snd]; [lia|].
  destruct (isConsecutive prev c f); apply IH; lia.
Qed.

Lemma streakLoop_app f prev l1 p l2 s l :
  streakLoop f prev (l1 ++ p :: l2) s l =
  streakLoop f p l2 (fst (streakLoop f prev (l1 ++ [p]) s l))
                    (snd (streakLoop f prev (l1 ++ [p]) s l)).
Proof.
  revert prev s l. induction l1 as [|c l1 IH]; intros prev s l; cbn [app streakLoop].
  - destruct (isConsecutive prev p f); reflexivity.
  - destruct (isConsecutive prev c f); apply IH.
Qed.

Lemma streakLoop_unrecognized raw prev rest l :
  streakLoop (UNRECOGNIZED raw) prev rest 1 l = (1, l).
Proof.
  revert prev. induction rest as [|c rest IH]; intros prev; cbn [streakLoop];
    [reflexivity|apply IH].
Qed.

Lemma calculateStreaks_parsed now dates parsed f :
  dates <> [] -> parseAll dates = Some parsed ->
  exists first rest,
    sortByTime parsed = first :: rest /\
    calculateStreaks now dates f =
    Some (mkStreak
            (if isValidStreak (last (first :: rest) first) now f
             then fst (streakLoop f first rest 1 1) else 0)
            (snd (streakLoop f first rest 1 1))).
Proof.
  intros NE P. unfold calculateStreaks.
  pose proof (parseAll_length _ _ P) as Len.
  destruct dates as [|x dates]; [contradiction|]. cbn [isEmpty]. rewrite P.
  pose proof (sortByTime_length parsed) as Ls.
  destruct (sortByTime parsed) as [|first rest] eqn:E.
  { rewrite <- Ls in Len. discriminate Len. }
  exists first, rest. split; [reflexivity|].
  destruct (streakLoop f first rest 1 1). reflexivity.
Qed.

(** ** C10 *)

(** C10. For a non-empty list of well-formed dates and any frequency,
    recognized or not, at any current time, [calculateStreaks] returns a
    streak with [record >= 1] and [0 <= current <= record]; when no pair can
    be consecutive, as for an unrecognized frequency, the record is 1. *)
Theorem streak_bounds (now : Date) (dates : list string) (parsed : list Date)
    (frequency : Frequency) :
  dates <> [] ->
  parseAll dates = Some parsed ->
  exists s,
    calculateStreaks now dates frequency = Some s /\
    1 <= record s /\ 0 <= current s <= record s /\
    (forall raw, frequency = UNRECOGNIZED raw -> record s = 1 /\ current s = 0).
Proof.
  intros NE P.
  destruct (calculateStreaks_parsed now dates parsed frequency NE P)
    as (first & rest & _ & ->).
  eexists. split; [reflexivity|]. cbn [record current].
  destruct (streakLoop_bounds frequency first rest 1 1 ltac:(lia)) as [B L].
  split; [lia|]. split; [destruct (isValidStreak _ now frequency); lia|].
  intros raw ->. rewrite streakLoop_unrecognized. split; reflexivity.
Qed.

Lemma streak_bounds_witness :
  let dates := ["2024-01-09"; "2024-01-01"; "2024-01-02"]%string in
  dates <> [] /\
  parseAll dates = Some [mkDate 2024 0 9 0; mkDate 2024 0 1 0; mkDate 2024 0 2 0] /\
  exists s,
    calculateStreaks (mkDate 2024 0 9 noon) dates DAILY = Some s /\
    1 <= record s /\ 0 <= current s <= record s /\
    (forall raw, DAILY = UNRECOGNIZED raw -> record s = 1 /\ current s = 0).
Proof.
  intros dates. split; [discriminate|]. split; [reflexivity|].
  apply (streak_bounds (mkDate 2024 0 9 noon) dates
           [mkDate 2024 0 9 0; mkDate 2024 0 1 0; mkDate 2024 0 2 0] DAILY);
    [discriminate|reflexivity].
Defined.

(** ** C2 *)

Lemma streaksOf_app f l1 p l2 :
  streaksOf f (l1 ++ p :: l2) =
  streakLoop f p l2 (fst (streaksOf f (l1 ++ [p]))) (snd (streaksOf f (l1 ++ [p]))).
Proof.
  destruct l1 as [|a l1]; cbn [app streaksOf]; [reflexivity|].
  apply streakLoop_app.
Qed.

Lemma streaksOf_bounds f l1 p :
  1 <= fst (streaksOf f (l1 ++ [p])) <= snd (streaksOf f (l1 ++ [p])).
Proof.
  destruct l1 as [|a l1]; cbn [app streaksOf streakLoop fst snd]; [lia|].
  apply streakLoop_bounds. lia.
Qed.

Lemma calculateStreaks_record now dates parsed f :
  dates <> [] -> parseAll dates = Some parsed ->
  exists s, calculateStreaks now dates f = Some s /\
            record s = snd (streaksOf f (sortByTime parsed)).
Proof.
  intros NE P.
  destruct (calculateStreaks_parsed now dates parsed f NE P) as (first & rest & E & ->).
  eexists. split; [reflexivity|]. rewrite E. reflexivity.
Qed.

Lemma isConsecutive_same d f : valid d -> isConsecutive d d f = duplicateExtends f.
Proof.
  intros V. destruct f; cbn [isConsecutive duplicateExtends].
  - destruct (isSameDay (addDays d 1) d) eqn:E; [|reflexivity].
    destruct (addDays_spec d 1 V) as (V' & N & _).
    apply (isSameDay_iff _ _ V' V) in E. lia.
  - apply Z.eqb_neq. lia.
  - apply Z.eqb_neq. lia.
  - rewrite Z.eqb_refl, Z.sub_diag. reflexivity.
  - apply Z.eqb_neq. lia.
  - apply Z.eqb_neq. lia.
  - rewrite Z.sub_diag. destruct (getMonth d <? 6); reflexivity.
  - apply Z.eqb_neq. lia.
  - reflexivity.
Qed.

(** C2, as the specification states it, fails: under DAILY the record of
    2024-01-01, 2024-01-02, 2024-01-03 is 3, and 2 once 2024-01-02 is
    there twice, since the day after a date is not that date. *)
Lemma duplicate_breaks_daily_streak :
  (forall now,
     calculateStreaks now ["2024-01-01"; "2024-01-02"; "2024-01-03"]%string DAILY
     = Some (mkStreak (if isValidStreak (mkDate 2024 0 3 0) now DAILY then 3 else 0) 3) /\
     calculateStreaks now
       ["2024-01-02"; "2024-01-01"; "2024-01-02"; "2024-01-03"]%string DAILY
     = Some (mkStreak (if isValidStreak (mkDate 2024 0 3 0) now DAILY then 2 else 0) 2)) /\
  ~ duplicateKeepsRecord DAILY.
Proof.
  assert (forall now,
     calculateStreaks now ["2024-01-01"; "2024-01-02"; "2024-01-03"]%string DAILY
     = Some (mkStreak (if isValidStreak (mkDate 2024 0 3 0) now DAILY then 3 else 0) 3) /\
     calculateStreaks now
       ["2024-01-02"; "2024-01-01"; "2024-01-02"; "2024-01-03"]%string DAILY
     = Some (mkStreak (if isValidStreak (mkDate 2024 0 3 0) now DAILY then 2 else 0) 2))
    as Out by (intros now; split; reflexivity).
  split; [exact Out|].
  intros C. destruct (Out (mkDate 2024 0 3 0)) as [O1 O2].
  specialize (C (mkDate 2024 0 3 0)
                ["2024-01-01"; "2024-01-02"; "2024-01-03"]%string
                "2024-01-02"%string _ _ (or_intror (or_introl eq_refl)) O1 O2).
  discriminate C.
Qed.

(** C2, amended. Two equal consecutive dates are judged by
    [isConsecutive] like any other pair: the predicate holds of a date and
    itself under SEMIMONTHLY and SEMSTERLY, where the duplicate extends the
    running streak, and fails under every other frequency, where the
    duplicate restarts the running streak at 1.  Hence adding to a list of
    well-formed dates a date that it holds never lowers the record under
    SEMIMONTHLY and SEMSTERLY, never raises it under the other frequencies,
    and leaves it unchanged for an unrecognized frequency. *)
Theorem duplicate_date_effect (frequency : Frequency) :
  (forall d, valid d -> isConsecutive d d frequency = duplicateExtends frequency) /\
  (forall now dates parsed x,
     parseAll dates = Some parsed -> In x dates ->
     exists s s',
       calculateStreaks now dates frequency = Some s /\
       calculateStreaks now (x :: dates) frequency = Some s' /\
       (if duplicateExtends frequency
        then record s <= record s' else record s' <= record s) /\
       (forall raw, frequency = UNRECOGNIZED raw -> record s' = record s)).
Proof.
  split; [intros d V; apply isConsecutive_same, V|].
  intros now dates parsed x P I.
  assert (dates <> []) as NE by (intros ->; destruct I).
  assert (exists p, parseISO x = Some p /\ In p parsed) as (p & Px & Ip).
  { pose proof (parseAll_Forall _ _ P) as F. clear P NE.
    induction F as [|s d dates parsed E _ IH]; [destruct I|].
    destruct I as [->|I]; [exists d; split; [exact E|left; reflexivity]|].
    destruct (IH I) as (p & Ep & Ip). exists p. split; [exact Ep|right; exact Ip]. }
  assert (parseAll (x :: dates) = Some (p :: parsed)) as P'.
  { cbn [parseAll]. rewrite Px, P. reflexivity. }
  destruct (calculateStreaks_record now dates parsed frequency NE P) as (s & E & R).
  destruct (calculateStreaks_record now (x :: dates) (p :: parsed) frequency
              ltac:(discriminate) P') as (s' & E' & R').
  exists s, s'. split; [exact E|]. split; [exact E'|].
  pose proof (parseAll_valid _ _ P) as Vs. rewrite Forall_forall in Vs.
  destruct (Vs p Ip) as (Vp & Mp & _).
  destruct (insertByTime_duplicate p (sortByTime parsed)) as (l1 & l2 & E1 & E2).
  { apply sortByTime_sorted. }
  { apply sortByTime_In, Ip. }
  { intros y Iy T. apply (proj1 (sortByTime_In _ _)) in Iy.
    destruct (Vs y Iy) as (Vy & My & _).
    apply dayNumber_inj; try assumption; [|congruence].
    unfold getTime, MS_IN_DAY in T. lia. }
  cbn [sortByTime fold_right] in R'. fold (sortByTime parsed) in R'.
  rewrite E2, streaksOf_app in R'. rewrite E1, streaksOf_app in R.
  pose proof (streaksOf_bounds frequency l1 p) as B.
  set (s1 := fst (streaksOf frequency (l1 ++ [p]))) in *.
  set (m1 := snd (streaksOf frequency (l1 ++ [p]))) in *.
  cbn [streakLoop] in R'. rewrite (isConsecutive_same p frequency Vp) in R'.
  rewrite R, R'. split.
  - destruct (duplicateExtends frequency).
    + apply (streakLoop_mono frequency p l2 s1 m1 (s1 + 1) (Z.max m1 (s1 + 1))); lia.
    + apply (streakLoop_mono frequency p l2 1 m1 s1 m1); lia.
  - intros raw ->. cbn [duplicateExtends].
    pose proof (streakLoop_bounds (UNRECOGNIZED raw) p l2 s1 m1 B) as [_ Lo].
    pose proof (streakLoop_unrecognized raw p l2 m1) as U.
    rewrite U. cbn [snd].
    assert (s1 = 1 /\ m1 = 1) as [-> ->]; [|rewrite U; reflexivity].
    subst s1 m1. destruct l1 as [|a l1]; cbn [app streaksOf streakLoop fst snd];
      [split; reflexivity|].
    clear. generalize a. induction l1 as [|c l1 IH]; intros a'; cbn [app streakLoop];
      [split; reflexivity|apply IH].
Qed.

Lemma duplicate_date_effect_witness :
  valid (mkDate 2024 0 2 0) /\
  isConsecutive (mkDate 2024 0 2 0) (mkDate 2024 0 2 0) DAILY = false /\
  let dates := ["2024-01-01"; "2024-01-02"; "2024-01-03"]%string in
  parseAll dates = Some [mkDate 2024 0 1 0; mkDate 2024 0 2 0; mkDate 2024 0 3 0] /\
  In "2024-01-02"%string dates /\
  exists s s',
    calculateStreaks (mkDate 2024 0 3 noon) dates DAILY = Some s /\
    calculateStreaks (mkDate 2024 0 3 noon) ("2024-01-02"%string :: dates) DAILY
      = Some s' /\
    record s' <= record s /\
    (forall raw, DAILY = UNRECOGNIZED raw -> record s' = record s).
Proof.
  destruct (duplicate_date_effect DAILY) as [A B].
  split; [reflexivity|].
  split; [apply (A (mkDate 2024 0 2 0)); reflexivity|].
  intros dates. split; [reflexivity|]. split; [right; left; reflexivity|].
  apply (B (mkDate 2024 0 3 noon) dates
           [mkDate 2024 0 1 0; mkDate 2024 0 2 0; mkDate 2024 0 3 0]
           "2024-01-02"%string); [reflexivity|right; left; reflexivity].
Defined.

(** ** C3 *)

(** C3. The SEMIMONTHLY branch of [handleDisable] compares days of the
    month only.  With a single completion on 2023-03-05 and "now" on
    2024-01-10, at any time of the day and in any zone from UTC-14 to
    UTC+14, it answers [true], although the completion is in another month
    of another year, which the MONTHLY and YEARLY branches tell apart. *)
Theorem semimonthly_disable_ignores_month (tz ms : Z) :
  -840 <= tz <= 840 ->
  0 <= ms < MS_IN_DAY ->
  let now := mkDate 2024 0 10 ms in
  parseISO "2023-03-05" = Some (mkDate 2023 2 5 0) /\
  handleDisable tz now SEMIMONTHLY ["2023-03-05"%string] = Some true /\
  handleDisable tz now MONTHLY ["2023-03-05"%string] = Some false /\
  handleDisable tz now YEARLY ["2023-03-05"%string] = Some false /\
  isThisMonth now (mkDate 2023 2 5 0) = false.
Proof.
  intros Htz Hms now. split; [reflexivity|].
  split; [|repeat split].
  unfold handleDisable, someCompletion.
  change (parseAll ["2023-03-05"%string]) with (Some [mkDate 2023 2 5 0]).
  cbn [existsb]. unfold getUTCDate, toUTC, now. cbn [msOfDay].
  unfold MS_IN_DAY in *.
  assert ((ms + tz * 60000) / 86400000 = -1 \/ (ms + tz * 60000) / 86400000 = 0 \/
          (ms + tz * 60000) / 86400000 = 1) as K1
    by (Z.to_euclidean_division_equations; lia).
  assert ((0 + tz * 60000) / 86400000 = -1 \/ (0 + tz * 60000) / 86400000 = 0) as K2
    by (Z.to_euclidean_division_equations; lia).
  destruct K1 as [->|[->| ->]]; destruct K2 as [->| ->]; reflexivity.
Qed.

Lemma semimonthly_disable_ignores_month_witness :
  -840 <= -120 <= 840 /\ 0 <= noon < MS_IN_DAY /\
  handleDisable (-120) (mkDate 2024 0 10 noon) SEMIMONTHLY ["2023-03-05"%string]
    = Some true /\
  isThisMonth (mkDate 2024 0 10 noon) (mkDate 2023 2 5 0) = false.
Proof.
  assert (-840 <= -120 <= 840) as Htz by lia.
  assert (0 <= noon < MS_IN_DAY) as Hms by (unfold noon, MS_IN_DAY; lia).
  split; [exact Htz|]. split; [exact Hms|].
  destruct (semimonthly_disable_ignores_month (-120) noon Htz Hms) as (_ & A & _ & _ & B).
  split; [exact A|exact B].
Defined.

(* ================================================================= *)
(** * Further properties of the module *)

(** ** [createSlug] *)

(** What one character of the title becomes before the last replacement. *)
Lemma slug_char_kept c :
  let c' := (if (toLowerCaseChar c =? " ")%char then "-"%char else toLowerCaseChar c) in
  implb (isWordChar c' || (c' =? "-")%char) (isSlugChar c') = true.
Proof.
  destruct c as [[] [] [] [] [] [] [] []]; vm_compute; reflexivity.
Qed.

Lemma slug_char_fixed c :
  isSlugChar c = true ->
  toLowerCaseChar c = c /\ (c =? " ")%char = false /\
  (isWordChar c || (c =? "-")%char) = true.
Proof.
  destruct c as [[] [] [] [] [] [] [] []]; vm_compute;
    intros E; try discriminate E; repeat split.
Qed.

Lemma filterChars_length keep s :
  (String.length (filterChars keep s) <= String.length s)%nat.
Proof.
  induction s as [|c s IH]; cbn [filterChars String.length]; [lia|].
  destruct (keep c); cbn [String.length]; lia.
Qed.

Lemma mapChars_length f s : String.length (mapChars f s) = String.length s.
Proof.
  induction s as [|c s IH]; cbn [mapChars String.length]; [reflexivity|].
  rewrite IH. reflexivity.
Qed.

Lemma createSlug_cons c title :
  createSlug (String c title) =
  let c' := (if (toLowerCaseChar c =? " ")%char then "-"%char else toLowerCaseChar c) in
  if isWordChar c' || (c' =? "-")%char then String c' (createSlug title)
  else createSlug title.
Proof. reflexivity. Qed.

Lemma createSlug_slug_chars title : allChars isSlugChar (createSlug title) = true.
Proof.
  induction title as [|c title IH]; [reflexivity|].
  rewrite createSlug_cons. cbv zeta. pose proof (slug_char_kept c) as K. cbv zeta in K.
  destruct (isWordChar _ || _); [|exact IH].
  cbn [implb] in K. cbn [allChars]. rewrite K, IH. reflexivity.
Qed.

Lemma createSlug_fixed title : allChars isSlugChar title = true -> createSlug title = title.
Proof.
  induction title as [|c title IH]; [reflexivity|].
  cbn [allChars]. intros A. apply andb_true_iff in A. destruct A as [Ac At].
  rewrite createSlug_cons. cbv zeta.
  destruct (slug_char_fixed c Ac) as (L & S & K).
  rewrite L, S, K, (IH At). reflexivity.
Qed.

(** X1. A slug holds only the characters [a-z], [0-9], [_] and [-], so
    no capital, no space and no punctuation, and it is never longer than
    the title. *)
Theorem createSlug_charset (title : string) :
  allChars isSlugChar (createSlug title) = true /\
  (String.length (createSlug title) <= String.length title)%nat.
Proof.
  split; [apply createSlug_slug_chars|].
  unfold createSlug, stripNonWord, spacesToDashes, toLowerCase.
  eapply Nat.le_trans; [apply filterChars_length|].
  rewrite !mapChars_length. lia.
Qed.

(** X2. [createSlug] is idempotent, and the titles it leaves unchanged
    are exactly the strings over [a-z0-9_-]. *)
Theorem createSlug_idempotent (title : string) :
  createSlug (createSlug title) = createSlug title /\
  (createSlug title = title <-> allChars isSlugChar title = true).
Proof.
  split.
  - apply createSlug_fixed, createSlug_slug_chars.
  - split; [|apply createSlug_fixed].
    intros E. rewrite <- E. apply createSlug_slug_chars.
Qed.

(** ** [formatDate] *)

Lemma digitChar_charDigit c n : charDigit c = Some n -> digitChar n = c.
Proof.
  unfold charDigit, digitChar. cbv zeta.
  destruct (Z.leb_spec 0 (Z.of_nat (nat_of_ascii c) - 48));
    destruct (Z.leb_spec (Z.of_nat (nat_of_ascii c) - 48) 9);
    cbn [andb]; intros E; try discriminate E.
  assert (n = Z.of_nat (nat_of_ascii c) - 48) as -> by congruence.
  replace (Z.to_nat (48 + (Z.of_nat (nat_of_ascii c) - 48))) with (nat_of_ascii c) by lia.
  apply ascii_nat_embedding.
Qed.

Lemma pad2_digits2 a b n :
  digits2 a b = Some n -> pad2 n = String a (String b EmptyString).
Proof.
  unfold digits2.
  destruct (charDigit a) as [x|] eqn:Ea; [|discriminate].
  destruct (charDigit b) as [y|] eqn:Eb; [|discriminate].
  intros E. assert (n = 10 * x + y) as -> by congruence.
  pose proof (charDigit_range _ _ Ea). pose proof (charDigit_range _ _ Eb).
  unfold pad2.
  replace ((10 * x + y) / 10 mod 10) with x by (Z.to_euclidean_division_equations; lia).
  replace ((10 * x + y) mod 10) with y by (Z.to_euclidean_division_equations; lia).
  rewrite (digitChar_charDigit _ _ Ea), (digitChar_charDigit _ _ Eb). reflexivity.
Qed.

Lemma pad4_digits4 a b c d n :
  digits4 a b c d = Some n ->
  pad4 n = String a (String b (String c (String d EmptyString))).
Proof.
  unfold digits4.
  destruct (digits2 a b) as [x|] eqn:Ex; [|discriminate].
  destruct (digits2 c d) as [y|] eqn:Ey; [|discriminate].
  intros E. assert (n = 100 * x + y) as -> by congruence.
  pose proof (digits2_range _ _ _ Ex). pose proof (digits2_range _ _ _ Ey).
  apply pad2_digits2 in Ex, Ey. unfold pad4, pad2 in *.
  replace ((100 * x + y) / 1000 mod 10) with (x / 10 mod 10)
    by (Z.to_euclidean_division_equations; lia).
  replace ((100 * x + y) / 100 mod 10) with (x mod 10)
    by (Z.to_euclidean_division_equations; lia).
  replace ((100 * x + y) / 10 mod 10) with (y / 10 mod 10)
    by (Z.to_euclidean_division_equations; lia).
  replace ((100 * x + y) mod 10) with (y mod 10)
    by (Z.to_euclidean_division_equations; lia).
  injection Ex as -> ->. injection Ey as -> ->. reflexivity.
Qed.

(** [format] prints back the string that [parseISO] has read. *)
Lemma format_parseISO s d : parseISO s = Some d -> format d = s.
Proof.
  unfold parseISO. intros H.
  repeat match type of H with
         | match ?x with _ => _ end = Some _ =>
           destruct x eqn:?; try discriminate H
         | (if ?x then _ else _) = Some _ =>
           destruct x eqn:?; try discriminate H
         end.
  injection H as <-. unfold format. cbn [getFullYear getMonth getDate].
  repeat match goal with
         | E : digits4 _ _ _ _ = Some _ |- _ => apply pad4_digits4 in E; rewrite E; clear E
         end.
  match goal with
  | |- context [pad2 (?m - 1 + 1)] => replace (m - 1 + 1) with m by lia
  end.
  repeat match goal with
         | E : digits2 _ _ = Some _ |- _ => apply pad2_digits2 in E; rewrite E; clear E
         end.
  reflexivity.
Qed.

Lemma parseISO_length s d : parseISO s = Some d -> String.length s = 10%nat.
Proof.
  intros H. apply format_parseISO in H. subst s. reflexivity.
Qed.

Lemma numberToString_pad2 n :
  0 <= n <= 99 ->
  append (if n <? 10 then "0"%string else EmptyString) (numberToString n) = pad2 n.
Proof.
  intros H.
  assert (forallb (fun n =>
            String.eqb
              (append (if n <? 10 then "0"%string else EmptyString) (numberToString n))
              (pad2 n)) (upTo 0 99) = true) as A by (vm_compute; reflexivity).
  rewrite forallb_forall in A. apply String.eqb_eq, A, upTo_In, H.
Qed.

Lemma numberToString_pad4 y : 1000 <= y <= 9999 -> numberToString y = pad4 y.
Proof.
  intros H.
  assert (forallb (fun y => String.eqb (numberToString y) (pad4 y))
                  (upTo 1000 9999) = true) as A by (vm_compute; reflexivity).
  rewrite forallb_forall in A. apply String.eqb_eq, A, upTo_In, H.
Qed.

Lemma numberToString_short y :
  0 <= y <= 999 -> (String.length (numberToString y) <= 3)%nat.
Proof.
  intros H.
  assert (forallb (fun y => (String.length (numberToString y) <=? 3)%nat)
                  (upTo 0 999) = true) as A by (vm_compute; reflexivity).
  rewrite forallb_forall in A. apply Nat.leb_le, A, upTo_In, H.
Qed.

Lemma append_length a b :
  String.length (append a b) = (String.length a + String.length b)%nat.
Proof.
  induction a as [|c a IH]; cbn [append String.length]; [reflexivity|].
  rewrite IH. reflexivity.
Qed.

(** The string built by [formatDate] from the fields of a valid date. *)
Lemma formatDate_fields tz d :
  valid d ->
  formatDate tz (ofDate d) =
  Some (append (numberToString (getFullYear d))
          (append "-" (append (pad2 (getMonth d + 1)) (append "-" (pad2 (getDate d)))))).
Proof.
  intros V. apply valid_iff in V. destruct V as (Hm & Hd & _).
  pose proof (daysInMonth_bounds (getFullYear d) (getMonth d)).
  unfold formatDate, newDate. cbv zeta.
  rewrite (numberToString_pad2 (getDate d)) by lia.
  rewrite (numberToString_pad2 (getMonth d + 1)) by lia. reflexivity.
Qed.

(** X3. On a valid [Date] of a year from 1000 to 9999 [formatDate]
    returns the string that [format(date, "yyyy-MM-dd")] returns, and
    [parseISO] reads the day back from it.  For a year from 1 to 999 the
    year is printed without leading zeros and [parseISO] does not read the
    result back: within the years 1..9999 the round trip holds exactly from
    the year 1000 on. *)
Theorem formatDate_round_trip (tz : Z) (d : Date) :
  valid d ->
  1 <= getFullYear d <= 9999 ->
  exists out,
    formatDate tz (ofDate d) = Some out /\
    (1000 <= getFullYear d -> out = format d) /\
    (parseISO out = Some (startOfDay d) <-> 1000 <= getFullYear d).
Proof.
  intros V Y. rewrite (formatDate_fields tz d V). eexists. split; [reflexivity|].
  assert (1000 <= getFullYear d ->
          append (numberToString (getFullYear d))
            (append "-" (append (pad2 (getMonth d + 1)) (append "-" (pad2 (getDate d)))))
          = format d) as F.
  { intros L. rewrite numberToString_pad4 by lia. reflexivity. }
  split; [exact F|]. split.
  - intros P. apply parseISO_length in P.
    destruct (Z_lt_le_dec (getFullYear d) 1000) as [Lt|Ge]; [|exact Ge].
    pose proof (numberToString_short (getFullYear d) ltac:(lia)) as S.
    rewrite append_length in P. cbn [append pad2 String.length] in P. lia.
  - intros L. rewrite (F L). apply parseISO_format; assumption.
Qed.

Lemma formatDate_round_trip_witness :
  valid (mkDate 2024 1 29 noon) /\ 1 <= 2024 <= 9999 /\
  exists out,
    formatDate 0 (ofDate (mkDate 2024 1 29 noon)) = Some out /\
    (1000 <= 2024 -> out = format (mkDate 2024 1 29 noon)) /\
    (parseISO out = Some (startOfDay (mkDate 2024 1 29 noon)) <-> 1000 <= 2024).
Proof.
  assert (valid (mkDate 2024 1 29 noon)) as V by reflexivity.
  assert (1 <= 2024 <= 9999) as Y by lia.
  split; [exact V|]. split; [exact Y|].
  apply (formatDate_round_trip 0 (mkDate 2024 1 29 noon) V Y).
Defined.

(** X4. A date-only string is read by [new Date] as midnight UTC, and
    printed by [formatDate] with the local getters: in a zone at or east
    of UTC the result is the string itself, and in a zone west of UTC it is
    the string of the day before. *)
Theorem formatDate_of_string (tz : Z) (s : string) (d : Date) :
  parseISO s = Some d ->
  -840 <= tz <= 840 ->
  (tz <= 0 -> 1000 <= getFullYear d -> formatDate tz (ofString s) = Some s) /\
  (0 < tz -> 1000 <= getFullYear (addDays d (-1)) ->
   formatDate tz (ofString s) = Some (format (addDays d (-1))) /\
   format (addDays d (-1)) <> s).
Proof.
  intros P Htz. destruct (parseISO_inv s d P) as (V & M & Y).
  pose proof (format_parseISO s d P) as F.
  assert (forall k, (k = 0 \/ k = -1) ->
            (0 + - tz * 60000) / MS_IN_DAY = k ->
            1000 <= getFullYear (addDays d k) ->
            formatDate tz (ofString s) = Some (format (addDays d k))) as Shift.
  { intros k Hk E L.
    destruct (addDays_spec d k V) as (Vk & Nk & Mk).
    assert (getFullYear (addDays d k) <= getFullYear d) as Le.
    { apply year_le_of_dayNumber; try assumption. lia. }
    pose proof (formatDate_fields tz
                  (mkDate (getFullYear (addDays d k)) (getMonth (addDays d k))
                          (getDate (addDays d k)) 0)) as FF.
    unfold formatDate in *. cbn [newDate] in *. rewrite P.
    unfold fromUTC, toUTC. rewrite M, E.
    cbn [getFullYear getMonth getDate msOfDay] in *.
    rewrite FF.
    - rewrite numberToString_pad4 by lia. reflexivity.
    - apply valid_iff in Vk. apply valid_iff.
      cbn [getFullYear getMonth getDate msOfDay]. unfold MS_IN_DAY. lia. }
  split.
  - intros Hle L. rewrite <- F at 2.
    apply (Shift 0); [left; reflexivity| |exact L].
    unfold MS_IN_DAY. Z.to_euclidean_division_equations; lia.
  - intros Hlt L. split.
    + apply (Shift (-1)); [right; reflexivity| |exact L].
      unfold MS_IN_DAY. Z.to_euclidean_division_equations; lia.
    + intros E. rewrite <- F in E.
      destruct (addDays_spec d (-1) V) as (Vk & Nk & Mk).
      assert (getFullYear (addDays d (-1)) <= getFullYear d) as Le.
      { apply year_le_of_dayNumber; try assumption. lia. }
      apply format_inj in E; try assumption; try lia.
      assert (dayNumber (startOfDay (addDays d (-1))) = dayNumber (startOfDay d)) as N
        by (rewrite E; reflexivity).
      destruct (startOfDay_spec _ Vk) as (_ & _ & N1).
      destruct (startOfDay_spec _ V) as (_ & _ & N2). lia.
Qed.

Lemma formatDate_of_string_witness :
  parseISO "2024-01-01" = Some (mkDate 2024 0 1 0) /\ -840 <= 300 <= 840 /\
  formatDate 300 (ofString "2024-01-01") = Some "2023-12-31"%string /\
  formatDate (-120) (ofString "2024-01-01") = Some "2024-01-01"%string.
Proof.
  assert (parseISO "2024-01-01" = Some (mkDate 2024 0 1 0)) as P by reflexivity.
  split; [exact P|]. split; [lia|].
  destruct (formatDate_of_string 300 _ _ P ltac:(lia)) as [_ W].
  destruct (formatDate_of_string (-120) _ _ P ltac:(lia)) as [E _].
  split.
  - apply W; [lia|vm_compute; discriminate].
  - apply E; [lia|vm_compute; discriminate].
Defined.

(** ** [extractWebsiteName] and [isValidUrl] *)

Lemma split_nonempty sep s : split sep s <> [].
Proof.
  destruct s as [|c s]; cbn [split]; [discriminate|].
  destruct (c =? sep)%char; [discriminate|].
  destruct (split sep s); discriminate.
Qed.

(** A string without the separator is its own single part. *)
Lemma split_no_sep sep s :
  allChars (fun c => negb (c =? sep)%char) s = true -> split sep s = [s].
Proof.
  induction s as [|c s IH]; cbn [allChars split]; [reflexivity|].
  intros A. apply andb_true_iff in A. destruct A as [Ac As].
  apply negb_true_iff in Ac. rewrite Ac, (IH As). reflexivity.
Qed.

Lemma split_app_sep sep label rest :
  allChars (fun c => negb (c =? sep)%char) label = true ->
  split sep (append label (String sep rest)) = label :: split sep rest.
Proof.
  induction label as [|c label IH]; cbn [allChars append split].
  - intros _. rewrite Ascii.eqb_refl. reflexivity.
  - intros A. apply andb_true_iff in A. destruct A as [Ac Al].
    apply negb_true_iff in Ac. rewrite Ac, (IH Al). reflexivity.
Qed.

(** Splitting undoes joining, for parts without the separator. *)
Lemma split_join sep parts :
  parts <> [] ->
  Forall (fun p => allChars (fun c => negb (c =? sep)%char) p = true) parts ->
  split sep (join (String sep EmptyString) parts) = parts.
Proof.
  intros NE F. induction F as [|p parts Hp F IH]; [contradiction|].
  destruct parts as [|q parts].
  - cbn [join]. apply split_no_sep, Hp.
  - cbn [join]. cbn [append]. rewrite (split_app_sep sep p _ Hp).
    f_equal. apply IH. discriminate.
Qed.

(** A string has one part more than it has separators. *)
Lemma split_single sep s :
  List.length (split sep s) = 1%nat <->
  allChars (fun c => negb (c =? sep)%char) s = true.
Proof.
  split; [|intros A; rewrite (split_no_sep sep s A); reflexivity].
  induction s as [|c s IH]; cbn [allChars split]; [reflexivity|].
  destruct (c =? sep)%char eqn:E; cbn [negb andb].
  - pose proof (split_nonempty sep s). destruct (split sep s); [contradiction|].
    cbn [List.length]. lia.
  - destruct (split sep s) as [|first others] eqn:S.
    + destruct (split_nonempty sep s S).
    + cbn [List.length] in *. exact IH.
Qed.

(** X5. When [isValidUrl] answers no, [extractWebsiteName] returns the
    empty string of its [catch] branch.  For a URL that parses, with a host
    name made of two labels or more, it returns the label before the last;
    it returns [undefined], although a string is declared, exactly when
    the host name has no dot, as [localhost] has none. *)
Theorem extractWebsiteName_cases (newURL : string -> option string) (url : string) :
  (isValidUrl newURL url = false -> extractWebsiteName newURL url = Some EmptyString) /\
  (forall labels, (2 <= List.length labels)%nat ->
     Forall (fun p => allChars (fun c => negb (c =? ".")%char) p = true) labels ->
     newURL url = Some (join "." labels) ->
     isValidUrl newURL url = true /\
     extractWebsiteName newURL url = nth_error labels (List.length labels - 2)) /\
  (forall hostname, newURL url = Some hostname ->
     (extractWebsiteName newURL url = None <->
      allChars (fun c => negb (c =? ".")%char) hostname = true)).
Proof.
  unfold isValidUrl, extractWebsiteName. split; [|split].
  - destruct (newURL url); [discriminate|reflexivity].
  - intros labels L F ->. split; [reflexivity|]. cbv zeta.
    rewrite split_join by (try assumption; intros ->; cbn in L; lia).
    unfold at_index.
    destruct (Z.ltb_spec (Z.of_nat (List.length labels) - 2) 0); [lia|].
    f_equal. lia.
  - intros hostname ->. cbv zeta. rewrite <- (split_single "." hostname).
    pose proof (split_nonempty "." hostname) as NE.
    set (parts := split "." hostname) in *. unfold at_index.
    destruct (Z.ltb_spec (Z.of_nat (List.length parts) - 2) 0) as [Lt|Ge].
    + destruct parts as [|p [|q parts]]; cbn [List.length] in *;
        [contradiction|tauto|lia].
    + split; [|intros E; lia].
      intros N. apply nth_error_None in N. lia.
Qed.

Lemma extractWebsiteName_cases_witness :
  let newURL := fun url : string =>
    if String.eqb url "https://www.example.com/a" then Some "www.example.com"%string
    else if String.eqb url "http://localhost:3000" then Some "localhost"%string
    else None in
  extractWebsiteName newURL "https://www.example.com/a" = Some "example"%string /\
  extractWebsiteName newURL "http://localhost:3000" = None /\
  extractWebsiteName newURL "not a url" = Some EmptyString.
Proof.
  intros newURL.
  destruct (extractWebsiteName_cases newURL "https://www.example.com/a") as (_ & B & _).
  destruct (extractWebsiteName_cases newURL "http://localhost:3000") as (_ & _ & C).
  destruct (extractWebsiteName_cases newURL "not a url") as (A & _ & _).
  split; [|split].
  - apply (B ["www"; "example"; "com"]%string); [cbn; lia|repeat constructor|reflexivity].
  - apply (C "localhost"%string); reflexivity.
  - apply A. reflexivity.
Defined.

(** ** [handleDisable] *)

Lemma parseAll_app l1 l2 :
  parseAll (l1 ++ l2) =
  match parseAll l1, parseAll l2 with
  | Some p1, Some p2 => Some (p1 ++ p2)
  | _, _ => None
  end.
Proof.
  induction l1 as [|s l1 IH]; cbn [app parseAll].
  - destruct (parseAll l2); reflexivity.
  - destruct (parseISO s); [|reflexivity]. rewrite IH.
    destruct (parseAll l1), (parseAll l2); reflexivity.
Qed.

Lemma parseAll_In data parsed d :
  parseAll data = Some parsed ->
  (In d parsed <-> exists s, In s data /\ parseISO s = Some d).
Proof.
  intros P. apply parseAll_Forall in P.
  induction P as [|s x data parsed E _ IH]; cbn [In].
  - split; [tauto|intros (s & [] & _)].
  - rewrite IH. split.
    + intros [<-|(s' & I & E')]; [exists s; auto|exists s'; auto].
    + intros (s' & [<-|I] & E'); [left; congruence|right; exists s'; auto].
Qed.

(** What [completions.some(...)] answers, by the completions that satisfy
    the test. *)
Lemma someCompletion_true p completions parsed :
  parseAll completions = Some parsed ->
  (someCompletion p completions = Some true <->
   exists s d, In s completions /\ parseISO s = Some d /\ p d = true).
Proof.
  intros P. unfold someCompletion. rewrite P. split.
  - intros E. assert (existsb p parsed = true) as X by congruence.
    apply existsb_exists in X. destruct X as (d & I & Hd).
    apply (parseAll_In _ _ d P) in I. destruct I as (s & I & E').
    exists s, d. auto.
  - intros (s & d & I & E & Hd). f_equal. apply existsb_exists.
    exists d. split; [|exact Hd]. apply (parseAll_In _ _ d P). exists s. auto.
Qed.

Lemma someCompletion_some p completions parsed :
  parseAll completions = Some parsed ->
  exists b, someCompletion p completions = Some b.
Proof. intros P. unfold someCompletion. rewrite P. eexists. reflexivity. Qed.

(** The test that [handleDisable] applies to each completion. *)
Lemma handleDisable_test tz now frequency :
  exists p, forall completions,
    handleDisable tz now frequency completions =
    match frequency with
    | UNRECOGNIZED _ => Some false
    | _ => someCompletion p completions
    end.
Proof.
  destruct frequency; cbn [handleDisable];
    try (eexists; intros; reflexivity).
  exists (fun _ => false). reflexivity.
Qed.

Lemma someCompletion_ext p cs cs' parsed parsed' :
  parseAll cs = Some parsed -> parseAll cs' = Some parsed' ->
  (forall s, In s cs <-> In s cs') ->
  someCompletion p cs = someCompletion p cs'.
Proof.
  intros P P' S.
  destruct (someCompletion_some p cs parsed P) as ([|] & E);
    destruct (someCompletion_some p cs' parsed' P') as ([|] & E');
    rewrite E, E'; try reflexivity; exfalso.
  - apply (someCompletion_true p cs parsed P) in E.
    destruct E as (s & d & I & Ps & Hd).
    assert (someCompletion p cs' = Some true) as T; [|congruence].
    apply (someCompletion_true p cs' parsed' P'). exists s, d.
    split; [apply S, I|auto].
  - apply (someCompletion_true p cs' parsed' P') in E'.
    destruct E' as (s & d & I & Ps & Hd).
    assert (someCompletion p cs = Some true) as T; [|congruence].
    apply (someCompletion_true p cs parsed P). exists s, d.
    split; [apply S, I|auto].
Qed.

Lemma someCompletion_app p cs cs' parsed parsed' :
  parseAll cs = Some parsed -> parseAll cs' = Some parsed' ->
  someCompletion p cs = Some true ->
  someCompletion p (cs ++ cs') = Some true /\ someCompletion p (cs' ++ cs) = Some true.
Proof.
  intros P P' T. unfold someCompletion in *.
  rewrite !parseAll_app, P, P' in *. rewrite !existsb_app.
  assert (existsb p parsed = true) as -> by congruence.
  rewrite orb_true_r. split; reflexivity.
Qed.

(** X6. For every frequency, [handleDisable] answers by the set of the
    completions only, whatever their order and repetitions; it answers
    [false] without completions, and once it answers [true] it keeps
    answering [true] when completions are added. *)
Theorem handleDisable_by_set (tz : Z) (now : Date) (frequency : Frequency)
    (completions completions' : list string) (parsed parsed' : list Date) :
  parseAll completions = Some parsed ->
  parseAll completions' = Some parsed' ->
  handleDisable tz now frequency [] = Some false /\
  ((forall s, In s completions <-> In s completions') ->
   handleDisable tz now frequency completions =
   handleDisable tz now frequency completions') /\
  (handleDisable tz now frequency completions = Some true ->
   handleDisable tz now frequency (completions ++ completions') = Some true /\
   handleDisable tz now frequency (completions' ++ completions) = Some true).
Proof.
  intros P P'. destruct (handleDisable_test tz now frequency) as (p & H).
  rewrite !H.
  assert (someCompletion p [] = Some false) as E0 by reflexivity.
  pose proof (someCompletion_ext p _ _ _ _ P P') as Ext.
  pose proof (someCompletion_app p _ _ _ _ P P') as App.
  destruct frequency; auto; split; try reflexivity; split; auto; discriminate.
Qed.

Lemma handleDisable_by_set_witness :
  let completions := ["2024-01-09"; "2023-12-25"]%string in
  let completions' := ["2023-12-25"; "2024-01-09"; "2024-01-09"]%string in
  parseAll completions = Some [mkDate 2024 0 9 0; mkDate 2023 11 25 0] /\
  parseAll completions' =
    Some [mkDate 2023 11 25 0; mkDate 2024 0 9 0; mkDate 2024 0 9 0] /\
  handleDisable 0 (mkDate 2024 0 10 noon) WEEKLY completions =
  handleDisable 0 (mkDate 2024 0 10 noon) WEEKLY completions' /\
  handleDisable 0 (mkDate 2024 0 10 noon) WEEKLY (completions ++ completions')
    = Some true.
Proof.
  intros completions completions'.
  assert (parseAll completions = Some [mkDate 2024 0 9 0; mkDate 2023 11 25 0])
    as P by reflexivity.
  assert (parseAll completions' =
          Some [mkDate 2023 11 25 0; mkDate 2024 0 9 0; mkDate 2024 0 9 0])
    as P' by reflexivity.
  split; [exact P|]. split; [exact P'|].
  destruct (handleDisable_by_set 0 (mkDate 2024 0 10 noon) WEEKLY _ _ _ _ P P')
    as (_ & S & A).
  split.
  - apply S. intros s. cbn. tauto.
  - apply A. reflexivity.
Defined.

Lemma someCompletion_iff p (P : Date -> Prop) completions parsed :
  parseAll completions = Some parsed ->
  (forall d, valid d -> (p d = true <-> P d)) ->
  (someCompletion p completions = Some true <-> someParsed completions P).
Proof.
  intros Pa H. rewrite (someCompletion_true p completions parsed Pa).
  unfold someParsed.
  split; intros (s & d & I & E & Hd); exists s, d; repeat split; try assumption;
    apply (H d (proj1 (parseISO_inv s d E))); exact Hd.
Qed.

Lemma isSameWeek_iff a b :
  valid a -> valid b ->
  (isSameWeek a b = true <-> sundayOf (dayNumber a) = sundayOf (dayNumber b)).
Proof.
  intros Va Vb. unfold isSameWeek.
  rewrite Z.eqb_eq, !getTime_startOfWeek by assumption. unfold MS_IN_DAY. lia.
Qed.

Lemma isSameQuarter_iff a b :
  valid a -> valid b ->
  (isSameQuarter a b = true <->
   getFullYear a = getFullYear b /\ getQuarter a = getQuarter b).
Proof.
  intros Va Vb. unfold isSameQuarter, getQuarter. rewrite Z.eqb_eq.
  pose proof (proj1 (valid_iff a) Va) as (Ma & _).
  pose proof (proj1 (valid_iff b) Vb) as (Mb & _).
  assert (forall d, 0 <= getMonth d <= 11 -> valid (startOfQuarter d)) as Vq.
  { intros d Hm. apply valid_iff. unfold startOfQuarter.
    cbn [getFullYear getMonth getDate msOfDay].
    pose proof (daysInMonth_bounds (getFullYear d) (getMonth d - getMonth d mod 3)).
    unfold MS_IN_DAY. Z.to_euclidean_division_equations; lia. }
  split.
  - intros T.
    assert (startOfQuarter a = startOfQuarter b) as E.
    { apply dayNumber_inj; [apply Vq, Ma|apply Vq, Mb| |reflexivity].
      unfold getTime, startOfQuarter in T. cbn [msOfDay] in T.
      unfold MS_IN_DAY in T. unfold startOfQuarter. lia. }
    unfold startOfQuarter in E. injection E as Ey Em.
    split; [exact Ey|]. Z.to_euclidean_division_equations; lia.
  - intros [Ey Eq]. unfold startOfQuarter. rewrite Ey.
    replace (getMonth a - getMonth a mod 3) with (getMonth b - getMonth b mod 3)
      by (Z.to_euclidean_division_equations; lia).
    reflexivity.
Qed.

(** X7. Under DAILY, WEEKLY, MONTHLY, QUARTERLY and YEARLY,
    [handleDisable] answers [true] exactly when some completion lies in the
    current period: on the calendar day of "now", in its week from Sunday
    on, in its month of its year, in its quarter of its year, in its
    year. *)
Theorem handleDisable_current_period (tz : Z) (now : Date)
    (completions : list string) (parsed : list Date) :
  valid now ->
  parseAll completions = Some parsed ->
  (handleDisable tz now DAILY completions = Some true <->
   someParsed completions (fun d => dayNumber d = dayNumber now)) /\
  (handleDisable tz now WEEKLY completions = Some true <->
   someParsed completions
     (fun d => sundayOf (dayNumber d) = sundayOf (dayNumber now))) /\
  (handleDisable tz now MONTHLY completions = Some true <->
   someParsed completions
     (fun d => getFullYear d = getFullYear now /\ getMonth d = getMonth now)) /\
  (handleDisable tz now QUARTERLY completions = Some true <->
   someParsed completions
     (fun d => getFullYear d = getFullYear now /\ getQuarter d = getQuarter now)) /\
  (handleDisable tz now YEARLY completions = Some true <->
   someParsed completions (fun d => getFullYear d = getFullYear now)).
Proof.
  intros Vn P. cbn [handleDisable].
  split; [|split; [|split; [|split]]];
    apply (someCompletion_iff _ _ _ _ P); intros d Vd.
  - unfold isToday. apply isSameDay_iff; assumption.
  - unfold isThisWeek. apply isSameWeek_iff; assumption.
  - unfold isThisMonth, isSameMonth.
    rewrite andb_true_iff, !Z.eqb_eq. intuition congruence.
  - unfold isThisQuarter. rewrite (isSameQuarter_iff now d Vn Vd).
    intuition congruence.
  - unfold isThisYear, isSameYear. apply Z.eqb_eq.
Qed.

Lemma handleDisable_current_period_witness :
  let now := mkDate 2024 0 10 noon in
  let completions := ["2024-01-07"; "2023-01-10"]%string in
  valid now /\
  parseAll completions = Some [mkDate 2024 0 7 0; mkDate 2023 0 10 0] /\
  handleDisable 0 now WEEKLY completions = Some true /\
  someParsed completions
     (fun d => sundayOf (dayNumber d) = sundayOf (dayNumber now)).
Proof.
  intros now completions.
  assert (valid now) as V by reflexivity.
  assert (parseAll completions = Some [mkDate 2024 0 7 0; mkDate 2023 0 10 0])
    as P by reflexivity.
  split; [exact V|]. split; [exact P|].
  destruct (handleDisable_current_period 0 now completions _ V P) as (_ & W & _).
  assert (handleDisable 0 now WEEKLY completions = Some true) as T by reflexivity.
  split; [exact T|apply W, T].
Defined.

(** X8. Under BIWEEKLY, [handleDisable] answers [true] exactly when
    some completion has the week number of "now", or the week number
    before it while the week number of "now" is even; such a completion has
    the bi-week number of "now".  Only week numbers are compared, not
    years. *)
Theorem handleDisable_biweekly (tz : Z) (now : Date)
    (completions : list string) (parsed : list Date) :
  parseAll completions = Some parsed ->
  (handleDisable tz now BIWEEKLY completions = Some true <->
   someParsed completions
     (fun d => getWeek d = getWeek now \/
               (getWeek d = getWeek now - 1 /\ getWeek now mod 2 = 0))) /\
  (handleDisable tz now BIWEEKLY completions = Some true ->
   someParsed completions
     (fun d => Math_ceil_half (getWeek d) = Math_ceil_half (getWeek now))).
Proof.
  intros P.
  assert (forall w v : Z,
            (if w =? v then true
             else if w =? v - 1 then Math_ceil_half v =? Math_ceil_half w
             else false) = true <->
            w = v \/ (w = v - 1 /\ v mod 2 = 0)) as T.
  { intros w v. destruct (Z.eqb_spec w v) as [->|N]; [tauto|].
    destruct (Z.eqb_spec w (v - 1)) as [->|N'].
    - rewrite Z.eqb_eq. unfold Math_ceil_half.
      split; [intros E; right; split; [reflexivity|]|intros [E|[_ E]]; [lia|]];
        Z.to_euclidean_division_equations; lia.
    - split; [discriminate|]. intros [E|[E _]]; contradiction. }
  assert (forall w v : Z,
            w = v \/ (w = v - 1 /\ v mod 2 = 0) ->
            Math_ceil_half w = Math_ceil_half v) as Half.
  { intros w v [->|[-> E]]; [reflexivity|].
    unfold Math_ceil_half. Z.to_euclidean_division_equations; lia. }
  assert (handleDisable tz now BIWEEKLY completions = Some true <->
          someParsed completions
            (fun d => getWeek d = getWeek now \/
                      (getWeek d = getWeek now - 1 /\ getWeek now mod 2 = 0))) as I.
  { cbn [handleDisable]. apply (someCompletion_iff _ _ _ _ P).
    intros d _. cbv zeta. apply T. }
  split; [exact I|].
  intros E. apply I in E. destruct E as (s & d & In_s & Ps & Hd).
  exists s, d. repeat split; try assumption. apply Half, Hd.
Qed.

Lemma handleDisable_biweekly_witness :
  let now := mkDate 2024 0 10 noon in
  let completions := ["2023-01-03"]%string in
  parseAll completions = Some [mkDate 2023 0 3 0] /\
  getWeek now = 2 /\ getWeek (mkDate 2023 0 3 0) = 1 /\
  handleDisable 0 now BIWEEKLY completions = Some true /\
  someParsed completions
     (fun d => Math_ceil_half (getWeek d) = Math_ceil_half (getWeek now)).
Proof.
  intros now completions.
  assert (parseAll completions = Some [mkDate 2023 0 3 0]) as P by reflexivity.
  split; [exact P|]. split; [reflexivity|]. split; [reflexivity|].
  destruct (handleDisable_biweekly 0 now completions _ P) as (_ & H).
  assert (handleDisable 0 now BIWEEKLY completions = Some true) as T by reflexivity.
  split; [exact T|apply H, T].
Defined.

(** ** [isConsecutive] and [isValidStreak] *)

(** X9. For every frequency, a date that is consecutive to the last date
    of a streak keeps the streak valid: [isConsecutive(last, today, f)]
    implies [isValidStreak(last, today, f)]. *)
Theorem consecutive_is_valid (lastDate today : Date) (frequency : Frequency) :
  isConsecutive lastDate today frequency = true ->
  isValidStreak lastDate today frequency = true.
Proof.
  destruct frequency; cbn [isConsecutive isValidStreak]; intros H;
    try (rewrite H; apply orb_true_r); exact H.
Qed.

Lemma consecutive_is_valid_witness :
  isConsecutive (mkDate 2024 0 31 0) (mkDate 2024 1 1 noon) DAILY = true /\
  isValidStreak (mkDate 2024 0 31 0) (mkDate 2024 1 1 noon) DAILY = true.
Proof.
  assert (isConsecutive (mkDate 2024 0 31 0) (mkDate 2024 1 1 noon) DAILY = true)
    as C by reflexivity.
  split; [exact C|apply (consecutive_is_valid _ _ DAILY C)].
Defined.

(** Two dates of one calendar day have the same day-level getters. *)
Lemma same_day_getters a b :
  valid a -> valid b -> dayNumber a = dayNumber b ->
  getFullYear a = getFullYear b /\ getMonth a = getMonth b /\
  getDate a = getDate b /\ getWeek a = getWeek b.
Proof.
  intros Va Vb E.
  destruct (startOfDay_spec a Va) as (Va' & Ma & Na).
  destruct (startOfDay_spec b Vb) as (Vb' & Mb & Nb).
  assert (startOfDay a = startOfDay b) as S
    by (apply dayNumber_inj; try assumption; lia).
  pose proof (getWeek_startOfDay a Va) as Wa.
  pose proof (getWeek_startOfDay b Vb) as Wb.
  rewrite S in Wa. unfold startOfDay in S. injection S as Ey Em Ed.
  repeat split; congruence.
Qed.

Lemma isValidStreak_same_day lastDate today frequency :
  valid lastDate -> valid today -> dayNumber lastDate = dayNumber today ->
  (forall raw, frequency <> UNRECOGNIZED raw) ->
  isValidStreak lastDate today frequency = true.
Proof.
  intros Vl Vt E R.
  destruct (same_day_getters _ _ Vl Vt E) as (Ey & Em & Ed & Ew).
  destruct frequency; cbn [isValidStreak]; unfold getYear, getQuarter;
    rewrite ?Ey, ?Em, ?Ed, ?Ew, ?Z.eqb_refl, ?Z.sub_diag;
    first [ reflexivity
          | rewrite (proj2 (isSameDay_iff _ _ Vl Vt) E); reflexivity
          | destruct (getMonth today <? 6); reflexivity
          | destruct (R raw eq_refl) ].
Qed.

Lemma last_sorted l x0 :
  StronglySorted byTime l -> l <> [] ->
  In (last l x0) l /\ forall x, In x l -> getTime x <= getTime (last l x0).
Proof.
  induction l as [|a l IH]; intros S NE; [contradiction|].
  apply StronglySorted_inv in S. destruct S as [S F]. rewrite Forall_forall in F.
  destruct l as [|b l].
  - cbn [last]. split; [left; reflexivity|]. intros x [<-|[]]. lia.
  - destruct (IH S ltac:(discriminate)) as [I M].
    change (last (a :: b :: l) x0) with (last (b :: l) x0).
    split; [right; exact I|].
    intros x [<-|Ix]; [apply (F _ I)|apply M, Ix].
Qed.

(** X10. A completion on the day of "now" keeps the streak alive: for
    each of the eight frequencies, when some date of the list is on the
    calendar day of "now" and none is later, the streak whose last date is
    that day is valid and [calculateStreaks] returns a current streak of 1
    at least. *)
Theorem completion_today_keeps_streak (now : Date) (dates : list string)
    (parsed : list Date) (frequency : Frequency) :
  valid now ->
  parseAll dates = Some parsed ->
  (exists d, In d parsed /\ dayNumber d = dayNumber now) ->
  (forall d, In d parsed -> dayNumber d <= dayNumber now) ->
  (forall raw, frequency <> UNRECOGNIZED raw) ->
  exists s, calculateStreaks now dates frequency = Some s /\ 1 <= current s.
Proof.
  intros Vn P (d0 & I0 & E0) Le R.
  assert (dates <> []) as NE.
  { intros ->. cbn in P. injection P as <-. destruct I0. }
  destruct (calculateStreaks_parsed now dates parsed frequency NE P)
    as (first & rest & Es & ->).
  eexists. split; [reflexivity|]. cbn [current].
  pose proof (parseAll_valid _ _ P) as Vs. rewrite Forall_forall in Vs.
  destruct (last_sorted (sortByTime parsed) first (sortByTime_sorted parsed))
    as [Il Ml].
  { rewrite Es. discriminate. }
  rewrite Es in Il, Ml.
  assert (In (last (first :: rest) first) parsed) as Ilp
    by (apply sortByTime_In; rewrite Es; exact Il).
  destruct (Vs _ Ilp) as (Vl & Mlast & _). destruct (Vs _ I0) as (V0 & M0 & _).
  assert (getTime d0 <= getTime (last (first :: rest) first)) as T.
  { apply Ml. rewrite <- Es. apply sortByTime_In, I0. }
  pose proof (Le _ Ilp) as Le'.
  assert (dayNumber (last (first :: rest) first) = dayNumber now) as E.
  { unfold getTime, MS_IN_DAY in T. lia. }
  rewrite (isValidStreak_same_day _ _ frequency Vl Vn E R).
  destruct (streakLoop_bounds frequency first rest 1 1 ltac:(lia)) as [B _]. lia.
Qed.

Lemma completion_today_keeps_streak_witness :
  let now := mkDate 2024 5 30 noon in
  let dates := ["2024-06-30"; "2024-01-15"]%string in
  let parsed := [mkDate 2024 5 30 0; mkDate 2024 0 15 0] in
  valid now /\ parseAll dates = Some parsed /\
  (exists d, In d parsed /\ dayNumber d = dayNumber now) /\
  (forall d, In d parsed -> dayNumber d <= dayNumber now) /\
  exists s, calculateStreaks now dates SEMIMONTHLY = Some s /\ 1 <= current s.
Proof.
  intros now dates parsed.
  assert (valid now) as V by reflexivity.
  assert (parseAll dates = Some parsed) as P by reflexivity.
  assert (exists d, In d parsed /\ dayNumber d = dayNumber now) as Ex.
  { exists (mkDate 2024 5 30 0). split; [left; reflexivity|reflexivity]. }
  assert (forall d, In d parsed -> dayNumber d <= dayNumber now) as Le.
  { intros d [<-|[<-|[]]]; vm_compute; discriminate. }
  split; [exact V|]. split; [exact P|]. split; [exact Ex|]. split; [exact Le|].
  apply (completion_today_keeps_streak now dates parsed SEMIMONTHLY V P Ex Le).
  intros raw. discriminate.
Defined.

Lemma periodIndex_step frequency cap a b :
  streakCap frequency = Some cap ->
  isConsecutive a b frequency = true ->
  periodIndex frequency b = periodIndex frequency a + 1.
Proof.
  destruct frequency; cbn [streakCap]; intros C; try discriminate C;
    cbn [isConsecutive periodIndex]; intros H; apply Z.eqb_eq in H; lia.
Qed.

Lemma periodIndex_bounds frequency cap d :
  streakCap frequency = Some cap -> valid d ->
  1 <= periodIndex frequency d <= cap.
Proof.
  destruct frequency; cbn [streakCap]; intros C; try discriminate C;
    injection C as <-; intros V; cbn [periodIndex].
  - apply getWeek_bounds, V.
  - apply Math_ceil_half_bounds, getWeek_bounds, V.
  - apply valid_iff in V. lia.
  - apply valid_iff in V. unfold getQuarter. Z.to_euclidean_division_equations; lia.
Qed.

Lemma streakLoop_capped frequency cap prev rest s l :
  streakCap frequency = Some cap ->
  Forall valid (prev :: rest) ->
  s <= periodIndex frequency prev -> l <= cap ->
  snd (streakLoop frequency prev rest s l) <= cap.
Proof.
  intros C. revert prev s l.
  induction rest as [|c rest IH]; intros prev s l F Hs Hl; cbn [streakLoop snd];
    [exact Hl|].
  apply Forall_cons_iff in F. destruct F as [Vp F].
  pose proof F as F'. apply Forall_cons_iff in F'. destruct F' as [Vc _].
  pose proof (periodIndex_bounds frequency cap c C Vc).
  destruct (isConsecutive prev c frequency) eqn:E.
  - pose proof (periodIndex_step frequency cap prev c C E).
    apply IH; [exact F|lia|lia].
  - apply IH; [exact F|lia|lia].
Qed.

(** X11. Whatever the dates, the record is at most 53 under WEEKLY, 27
    under BIWEEKLY, 12 under MONTHLY and 4 under QUARTERLY: under these
    frequencies [isConsecutive] asks for the next period number, and the
    numbers of weeks, bi-weeks, months and quarters go up to 53, 27, 12
    and 4. *)
Theorem record_capped (now : Date) (dates : list string)
    (parsed : list Date) (frequency : Frequency) (cap : Z) :
  dates <> [] ->
  parseAll dates = Some parsed ->
  streakCap frequency = Some cap ->
  exists s, calculateStreaks now dates frequency = Some s /\ record s <= cap.
Proof.
  intros NE P C.
  destruct (calculateStreaks_parsed now dates parsed frequency NE P)
    as (first & rest & Es & ->).
  eexists. split; [reflexivity|]. cbn [record].
  assert (Forall valid (first :: rest)) as F.
  { rewrite <- Es. apply Forall_forall. intros d I.
    apply (proj1 (sortByTime_In _ _)) in I.
    pose proof (parseAll_valid _ _ P) as Vs. rewrite Forall_forall in Vs.
    apply (Vs d I). }
  pose proof F as F'. apply Forall_cons_iff in F'. destruct F' as [Vf _].
  pose proof (periodIndex_bounds frequency cap first C Vf).
  apply (streakLoop_capped frequency cap); [exact C|exact F|lia|lia].
Qed.

Lemma record_capped_witness :
  let dates := ["2023-11-05"; "2023-12-05"; "2024-01-05"; "2024-02-05"]%string in
  dates <> [] /\
  parseAll dates = Some [mkDate 2023 10 5 0; mkDate 2023 11 5 0;
                         mkDate 2024 0 5 0; mkDate 2024 1 5 0] /\
  streakCap MONTHLY = Some 12 /\
  calculateStreaks (mkDate 2024 1 6 0) dates MONTHLY = Some (mkStreak 2 2) /\
  exists s, calculateStreaks (mkDate 2024 1 6 0) dates MONTHLY = Some s /\
            record s <= 12.
Proof.
  intros dates. split; [discriminate|]. split; [reflexivity|].
  split; [reflexivity|]. split; [reflexivity|].
  apply (record_capped (mkDate 2024 1 6 0) dates
           [mkDate 2023 10 5 0; mkDate 2023 11 5 0;
            mkDate 2024 0 5 0; mkDate 2024 1 5 0] MONTHLY 12);
    [discriminate|reflexivity|reflexivity].
Defined.

(** X12. Under SEMSTERLY two valid dates are consecutive exactly when
    their months lie in the same half of the year, whatever the years (the
    test on the distance of the months never fails): a completion of the
    second half never continues a streak of the first half, nor one of the
    first half a streak of the second.  [isValidStreak] is the same
    test. *)
Theorem semesterly_same_half (a b : Date) :
  valid a -> valid b ->
  isConsecutive a b SEMSTERLY = Bool.eqb (getMonth a <? 6) (getMonth b <? 6) /\
  isValidStreak a b SEMSTERLY = Bool.eqb (getMonth a <? 6) (getMonth b <? 6).
Proof.
  intros Va Vb. apply valid_iff in Va, Vb. cbn [isConsecutive isValidStreak].
  destruct Va as (Ma & _). destruct Vb as (Mb & _).
  assert (((if getMonth a <? 6 then 1 else 2) =? (if getMonth b <? 6 then 1 else 2))
          && (Z.abs (getMonth a - getMonth b) <=? 6) =
          Bool.eqb (getMonth a <? 6) (getMonth b <? 6)) as E.
  { destruct (Z.ltb_spec (getMonth a) 6), (Z.ltb_spec (getMonth b) 6);
      cbn [Z.eqb Pos.eqb Bool.eqb andb]; try reflexivity; apply Z.leb_le; lia. }
  split; exact E.
Qed.

Lemma semesterly_same_half_witness :
  valid (mkDate 2024 5 30 0) /\ valid (mkDate 2024 6 1 0) /\
  isConsecutive (mkDate 2024 5 30 0) (mkDate 2024 6 1 0) SEMSTERLY = false /\
  isValidStreak (mkDate 2024 5 30 0) (mkDate 2024 6 1 0) SEMSTERLY = false.
Proof.
  assert (valid (mkDate 2024 5 30 0)) as Va by reflexivity.
  assert (valid (mkDate 2024 6 1 0)) as Vb by reflexivity.
  split; [exact Va|]. split; [exact Vb|].
  apply (semesterly_same_half _ _ Va Vb).
Defined.

Lemma streakLoop_length frequency prev rest s l :
  0 <= s ->
  fst (streakLoop frequency prev rest s l) <= s + Z.of_nat (List.length rest) /\
  snd (streakLoop frequency prev rest s l)
    <= Z.max l (s + Z.of_nat (List.length rest)).
Proof.
  revert prev s l. induction rest as [|c rest IH]; intros prev s l Hs;
    cbn [streakLoop fst snd List.length]; [lia|].
  destruct (isConsecutive prev c frequency).
  - destruct (IH c (s + 1) (Z.max l (s + 1)) ltac:(lia)). lia.
  - destruct (IH c 1 l ltac:(lia)). lia.
Qed.

(** X13. The record streak is at most the number of dates, so that a
    single date always has the record 1. *)
Theorem record_at_most_length (now : Date) (dates : list string)
    (parsed : list Date) (frequency : Frequency) :
  dates <> [] ->
  parseAll dates = Some parsed ->
  exists s,
    calculateStreaks now dates frequency = Some s /\
    1 <= record s <= Z.of_nat (List.length dates).
Proof.
  intros NE P.
  destruct (calculateStreaks_parsed now dates parsed frequency NE P)
    as (first & rest & Es & ->).
  eexists. split; [reflexivity|]. cbn [record].
  pose proof (sortByTime_length parsed) as L1.
  pose proof (parseAll_length _ _ P) as L2.
  rewrite Es in L1. cbn [List.length] in L1.
  destruct (streakLoop_length frequency first rest 1 1 ltac:(lia)) as [_ U].
  destruct (streakLoop_bounds frequency first rest 1 1 ltac:(lia)) as [B _].
  lia.
Qed.

Lemma record_at_most_length_witness :
  let dates := ["2024-03-09"]%string in
  dates <> [] /\ parseAll dates = Some [mkDate 2024 2 9 0] /\
  exists s,
    calculateStreaks (mkDate 2024 2 9 0) dates YEARLY = Some s /\
    1 <= record s <= 1.
Proof.
  intros dates. split; [discriminate|]. split; [reflexivity|].
  apply (record_at_most_length (mkDate 2024 2 9 0) dates [mkDate 2024 2 9 0] YEARLY);
    [discriminate|reflexivity].
Defined.

(** ** [calculateStreaks] and the order of the dates *)

Lemma parseAll_Permutation dates dates' parsed :
  Permutation dates dates' ->
  parseAll dates = Some parsed ->
  exists parsed', parseAll dates' = Some parsed' /\ Permutation parsed parsed'.
Proof.
  intros Pm. revert parsed.
  induction Pm as [|x l l' Pm IH|x y l|l l' l'' Pm1 IH1 Pm2 IH2]; intros parsed P.
  - exists parsed. split; [exact P|reflexivity].
  - cbn [parseAll] in *. destruct (parseISO x) as [d|]; [|discriminate].
    destruct (parseAll l) as [ds|]; [|discriminate].
    destruct (IH ds eq_refl) as (ds' & -> & Pd).
    injection P as <-. exists (d :: ds'). split; [reflexivity|].
    apply perm_skip, Pd.
  - cbn [parseAll] in *.
    destruct (parseISO y) as [dy|]; [|discriminate].
    destruct (parseISO x) as [dx|]; [|discriminate].
    destruct (parseAll l) as [ds|]; [|discriminate].
    injection P as <-. exists (dx :: dy :: ds). split; [reflexivity|apply perm_swap].
  - destruct (IH1 parsed P) as (p' & P' & Pd1).
    destruct (IH2 p' P') as (p'' & P'' & Pd2).
    exists p''. split; [exact P''|]. eapply Permutation_trans; eassumption.
Qed.

Lemma insertByTime_Permutation x l : Permutation (insertByTime x l) (x :: l).
Proof.
  induction l as [|y l IH]; cbn [insertByTime]; [reflexivity|].
  destruct (getTime x - getTime y <=? 0); [reflexivity|].
  eapply Permutation_trans; [apply perm_skip, IH|apply perm_swap].
Qed.

Lemma sortByTime_Permutation l : Permutation (sortByTime l) l.
Proof.
  induction l as [|x l IH]; cbn [sortByTime fold_right]; [reflexivity|].
  eapply Permutation_trans; [apply insertByTime_Permutation|apply perm_skip, IH].
Qed.

(** Two sorted lists with the same elements are equal, when equal times
    mean equal dates. *)
Lemma sorted_unique l1 l2 :
  StronglySorted byTime l1 -> StronglySorted byTime l2 ->
  Permutation l1 l2 ->
  (forall x y, In x l1 -> In y l1 -> getTime x = getTime y -> x = y) ->
  l1 = l2.
Proof.
  revert l2. induction l1 as [|a l1 IH]; intros l2 S1 S2 Pm U.
  - apply Permutation_nil in Pm. congruence.
  - destruct l2 as [|b l2].
    { apply Permutation_sym, Permutation_nil in Pm. discriminate. }
    apply StronglySorted_inv in S1, S2.
    destruct S1 as [S1 F1]. destruct S2 as [S2 F2].
    rewrite Forall_forall in F1, F2.
    assert (In b (a :: l1)) as Ib
      by (apply (Permutation_in _ (Permutation_sym Pm)); left; reflexivity).
    assert (In a (b :: l2)) as Ia
      by (apply (Permutation_in _ Pm); left; reflexivity).
    assert (a = b) as <-.
    { apply U; [left; reflexivity|exact Ib|].
      assert (getTime a <= getTime b) as L1.
      { destruct Ib as [<-|Ib]; [lia|apply (F1 _ Ib)]. }
      assert (getTime b <= getTime a) as L2.
      { destruct Ia as [<-|Ia]; [lia|apply (F2 _ Ia)]. }
      lia. }
    f_equal. apply IH; [exact S1|exact S2|apply (Permutation_cons_inv Pm)|].
    intros x y Ix Iy. apply U; right; assumption.
Qed.

Lemma sortByTime_order_free parsed parsed' :
  Forall (fun d => valid d /\ msOfDay d = 0 /\ 1 <= getFullYear d <= 9999) parsed ->
  Permutation parsed parsed' ->
  sortByTime parsed = sortByTime parsed'.
Proof.
  intros Vs Pm. rewrite Forall_forall in Vs.
  apply sorted_unique; try apply sortByTime_sorted.
  - eapply Permutation_trans; [apply sortByTime_Permutation|].
    eapply Permutation_trans; [exact Pm|].
    apply Permutation_sym, sortByTime_Permutation.
  - intros x y Ix Iy T.
    apply (proj1 (sortByTime_In _ _)) in Ix, Iy.
    destruct (Vs x Ix) as (Vx & Mx & _). destruct (Vs y Iy) as (Vy & My & _).
    apply dayNumber_inj; try assumption; [|congruence].
    unfold getTime, MS_IN_DAY in T. lia.
Qed.

(** X14. [calculateStreaks] does not depend on the order in which the
    dates come: on two lists of well-formed dates that are permutations of
    each other it returns the same streak. *)
Theorem calculateStreaks_order_free (now : Date) (dates dates' : list string)
    (parsed : list Date) (frequency : Frequency) :
  parseAll dates = Some parsed ->
  Permutation dates dates' ->
  exists s,
    calculateStreaks now dates frequency = Some s /\
    calculateStreaks now dates' frequency = Some s.
Proof.
  intros P Pm.
  destruct (parseAll_Permutation _ _ _ Pm P) as (parsed' & P' & Pd).
  destruct dates as [|x dates].
  { apply Permutation_nil in Pm. subst dates'. eexists. split; reflexivity. }
  assert (dates' <> []) as NE'.
  { intros ->. apply Permutation_sym, Permutation_nil in Pm. discriminate. }
  destruct (calculateStreaks_parsed now (x :: dates) parsed frequency
              ltac:(discriminate) P) as (first & rest & Es & E).
  destruct (calculateStreaks_parsed now dates' parsed' frequency NE' P')
    as (first' & rest' & Es' & E').
  rewrite <- (sortByTime_order_free parsed parsed' (parseAll_valid _ _ P) Pd) in Es'.
  rewrite Es in Es'. injection Es' as <- <-.
  eexists. split; [exact E|exact E'].
Qed.

Lemma calculateStreaks_order_free_witness :
  let dates := ["2024-01-03"; "2024-01-01"; "2024-01-02"]%string in
  let dates' := ["2024-01-01"; "2024-01-02"; "2024-01-03"]%string in
  parseAll dates = Some [mkDate 2024 0 3 0; mkDate 2024 0 1 0; mkDate 2024 0 2 0] /\
  Permutation dates dates' /\
  exists s,
    calculateStreaks (mkDate 2024 0 4 0) dates DAILY = Some s /\
    calculateStreaks (mkDate 2024 0 4 0) dates' DAILY = Some s.
Proof.
  intros dates dates'.
  assert (parseAll dates =
          Some [mkDate 2024 0 3 0; mkDate 2024 0 1 0; mkDate 2024 0 2 0])
    as P by reflexivity.
  assert (Permutation dates dates') as Pm.
  { unfold dates, dates'.
    eapply Permutation_trans; [apply perm_swap|]. apply perm_skip, perm_swap. }
  split; [exact P|]. split; [exact Pm|].
  apply (calculateStreaks_order_free (mkDate 2024 0 4 0) dates dates' _ DAILY P Pm).
Defined.

(** ** A run of consecutive days *)

Lemma daysList_facts d k :
  valid d -> msOfDay d = 0 ->
  Forall (fun x => valid x /\ msOfDay x = 0 /\
                   dayNumber d <= dayNumber x < dayNumber d + Z.of_nat k)
         (daysList d k).
Proof.
  intros V M. apply Forall_forall. intros x I.
  apply (daysList_In d k x V) in I. destruct I as (Vx & Mx & Nx).
  repeat split; try assumption; lia.
Qed.

Lemma parseAll_format days :
  Forall (fun x => valid x /\ msOfDay x = 0 /\ 1 <= getFullYear x <= 9999) days ->
  parseAll (map format days) = Some days.
Proof.
  induction 1 as [|x days (V & M & Y) _ IH]; cbn [map parseAll]; [reflexivity|].
  rewrite (parseISO_format x V Y), IH, (startOfDay_midnight x M). reflexivity.
Qed.

Lemma sortByTime_daysList d k : valid d -> sortByTime (daysList d k) = daysList d k.
Proof.
  revert d. induction k as [|k IH]; intros d V; [reflexivity|].
  cbn [daysList sortByTime fold_right]. fold (sortByTime (daysList (addDays d 1) k)).
  destruct (addDays_spec d 1 V) as (V' & N' & M').
  rewrite (IH _ V'). destruct k as [|k]; [reflexivity|].
  cbn [daysList insertByTime].
  destruct (Z.leb_spec (getTime d - getTime (addDays d 1)) 0) as [L|G]; [reflexivity|].
  unfold getTime in G. pose proof (valid_ms d V). unfold MS_IN_DAY in *. lia.
Qed.

Lemma streakLoop_daily_run d k s l :
  valid d ->
  streakLoop DAILY d (daysList (addDays d 1) k) s l =
  (s + Z.of_nat k, Z.max l (if (k =? 0)%nat then l else s + Z.of_nat k)).
Proof.
  revert d s l. induction k as [|k IH]; intros d s l V.
  - cbn [daysList streakLoop Nat.eqb]. f_equal; lia.
  - cbn [daysList streakLoop isConsecutive Nat.eqb].
    unfold isSameDay at 1. rewrite Z.eqb_refl.
    rewrite (IH _ _ _ (proj1 (addDays_spec d 1 V))).
    f_equal; [lia|]. destruct (Nat.eqb_spec k 0); lia.
Qed.

Lemma last_daysList d k x0 :
  valid d ->
  valid (last (daysList d (S k)) x0) /\
  dayNumber (last (daysList d (S k)) x0) = dayNumber d + Z.of_nat k.
Proof.
  revert d. induction k as [|k IH]; intros d V.
  - cbn [daysList last]. split; [exact V|lia].
  - destruct (addDays_spec d 1 V) as (V' & N' & _).
    destruct (IH _ V') as (Vl & Nl).
    change (last (daysList d (S (S k))) x0)
      with (last (daysList (addDays d 1) (S k)) x0).
    split; [exact Vl|lia].
Qed.

(** X15. Under DAILY a run of [n + 1] consecutive calendar days, in the
    years 1..9999, has the record [n + 1]; its current streak is [n + 1]
    when "now" is on the last day of the run or on the day after, and 0 on
    any other day. *)
Theorem daily_run_streak (now d : Date) (n : nat) :
  valid now -> valid d -> msOfDay d = 0 ->
  1 <= getFullYear d ->
  getFullYear (addDays d (Z.of_nat n)) <= 9999 ->
  calculateStreaks now (map format (daysList d (S n))) DAILY =
  Some (mkStreak
          (if (dayNumber now =? dayNumber d + Z.of_nat n)
              || (dayNumber now =? dayNumber d + Z.of_nat n + 1)
           then Z.of_nat n + 1 else 0)
          (Z.of_nat n + 1)).
Proof.
  intros Vn V M Y1 Y2.
  assert (parseAll (map format (daysList d (S n))) = Some (daysList d (S n))) as P.
  { apply parseAll_format.
    eapply Forall_impl; [|apply (daysList_facts d (S n) V M)].
    cbv beta. intros x (Vx & Mx & Nx).
    destruct (addDays_spec d (Z.of_nat n) V) as (Ve & Ne & _).
    pose proof (year_le_of_dayNumber d x V Vx ltac:(lia)).
    pose proof (year_le_of_dayNumber x _ Vx Ve ltac:(lia)).
    repeat split; try assumption; lia. }
  assert (map format (daysList d (S n)) <> []) as NE by discriminate.
  destruct (calculateStreaks_parsed now _ _ DAILY NE P)
    as (first & rest & Es & ->).
  rewrite (sortByTime_daysList d (S n) V) in Es. cbn [daysList] in Es.
  injection Es as <- <-.
  rewrite (streakLoop_daily_run d n 1 1 V). cbn [fst snd].
  destruct (last_daysList d n d V) as (Vl & Nl). cbn [daysList] in Vl, Nl.
  f_equal. f_equal; [|destruct (n =? 0)%nat eqn:E0; [apply Nat.eqb_eq in E0|]; lia].
  cbn [isValidStreak].
  destruct (addDays_spec _ 1 Vl) as (Vl' & Nl' & _).
  assert (isSameDay (last (d :: daysList (addDays d 1) n) d) now =
          (dayNumber now =? dayNumber d + Z.of_nat n)) as ->.
  { destruct (Z.eqb_spec (dayNumber now) (dayNumber d + Z.of_nat n)) as [E|N].
    - apply isSameDay_iff; try assumption. lia.
    - destruct (isSameDay _ now) eqn:S; [|reflexivity].
      apply isSameDay_iff in S; try assumption. lia. }
  assert (isSameDay (addDays (last (d :: daysList (addDays d 1) n) d) 1) now =
          (dayNumber now =? dayNumber d + Z.of_nat n + 1)) as ->.
  { destruct (Z.eqb_spec (dayNumber now) (dayNumber d + Z.of_nat n + 1)) as [E|N].
    - apply isSameDay_iff; try assumption. lia.
    - destruct (isSameDay _ now) eqn:S; [|reflexivity].
      apply isSameDay_iff in S; try assumption. lia. }
  destruct (_ || _); lia.
Qed.

Lemma daily_run_streak_witness :
  let d := mkDate 2023 11 30 0 in
  let now := mkDate 2024 0 3 noon in
  valid now /\ valid d /\ msOfDay d = 0 /\ 1 <= getFullYear d /\
  getFullYear (addDays d 3) <= 9999 /\
  map format (daysList d 4) =
    ["2023-12-30"; "2023-12-31"; "2024-01-01"; "2024-01-02"]%string /\
  calculateStreaks now (map format (daysList d 4)) DAILY = Some (mkStreak 4 4).
Proof.
  intros d now.
  assert (valid now) as Vn by reflexivity.
  assert (valid d) as V by reflexivity.
  assert (msOfDay d = 0) as M by reflexivity.
  assert (1 <= getFullYear d) as Y1 by (vm_compute; discriminate).
  assert (getFullYear (addDays d (Z.of_nat 3)) <= 9999) as Y2
    by (vm_compute; discriminate).
  split; [exact Vn|]. split; [exact V|]. split; [exact M|]. split; [exact Y1|].
  split; [exact Y2|]. split; [reflexivity|].
  exact (daily_run_streak now d 3 Vn V M Y1 Y2).
Defined.

(** X16. In the result of each of the six non-yearly bucketizers the
    level of a bucket is the number of distinct input days whose period
    index is that of the bucket: the days of week [n] of any year of the
    window for the week buckets, of month [n] of any year for the month
    buckets, and so on. *)
Theorem bucket_level_is_day_count (data : list string) (parsed : list Date) :
  data <> [] ->
  parseAll data = Some parsed ->
  (exists out, getDailyData data = Some out /\ forall b, In b out ->
     level b = distinctDays (inPeriod getWeek (period b) parsed)) /\
  (exists out, getWeeklyData data = Some out /\ forall b, In b out ->
     level b = distinctDays (inPeriod getWeek (period b) parsed)) /\
  (exists out, getBiWeeklyData data = Some out /\ forall b, In b out ->
     level b = distinctDays
                 (inPeriod (fun d => Math_ceil_half (getWeek d)) (period b) parsed)) /\
  (exists out, getMonthlyData data = Some out /\ forall b, In b out ->
     level b = distinctDays (inPeriod (fun d => getMonth d + 1) (period b) parsed)) /\
  (exists out, getQuarterlyData data = Some out /\ forall b, In b out ->
     level b = distinctDays (inPeriod getQuarter (period b) parsed)) /\
  (exists out, getSemesterlyData data = Some out /\ forall b, In b out ->
     level b = distinctDays (inPeriod semesterOf (period b) parsed)).
Proof.
  intros NE P. destruct (Parsed_intro data parsed NE P) as (lo & hi & Pd).
  destruct (Parsed_order _ _ _ _ Pd) as (Vlo & Vhi & L).
  assert (Forall (fun d => msOfDay d = 0) parsed) as Ms.
  { apply Forall_forall. intros p I. apply (Parsed_valid _ _ _ _ p Pd I). }
  assert (NoDup (windowDays lo hi)) as ND by (apply daysList_NoDup, startOfYear_spec).
  pose proof (fun p I => Parsed_in_window _ _ _ _ p Pd I) as Sub.
  assert (forall d, In d (windowDays lo hi) ->
            dayLevel data d = if in_dec Date_eq_dec d parsed then 1 else 0) as Lv.
  { intros d I. destruct (Parsed_window_day _ _ _ _ d Pd I) as (V & M & Y).
    apply (dayLevel_spec data parsed d P V M Y). }
  assert (forall d, In d (windowDays lo hi) ->
            dayLevelSameDay data d = if in_dec Date_eq_dec d parsed then 1 else 0)
    as Lv'.
  { intros d I. destruct (Parsed_window_day _ _ _ _ d Pd I) as (V & M & Y).
    apply (dayLevelSameDay_spec data parsed d P V M). }
  split; [|split; [|split; [|split; [|split]]]].
  - destruct (getDailyData_run _ _ _ _ Pd) as (o & E & R).
    exists (Object_values o). split; [exact E|].
    apply (bucket_level_counts _ _ _ _ _ _ R ND Ms Sub Lv).
  - destruct (getWeeklyData_run _ _ _ _ Pd) as (o & E & R).
    exists (Object_values o). split; [exact E|].
    apply (bucket_level_counts _ _ _ _ _ _ R ND Ms Sub Lv).
  - destruct (getBiWeeklyData_run _ _ _ _ Pd) as (o & E & R).
    exists (Object_values o). split; [exact E|].
    apply (bucket_level_counts _ _ _ _ _ _ R ND Ms Sub Lv').
  - destruct (getMonthlyData_run _ _ _ _ Pd) as (o & E & R).
    exists (Object_values o). split; [exact E|].
    apply (bucket_level_counts _ _ _ _ _ _ R ND Ms Sub Lv).
  - destruct (getQuarterlyData_run _ _ _ _ Pd) as (o & E & R).
    exists (Object_values o). split; [exact E|].
    apply (bucket_level_counts _ _ _ _ _ _ R ND Ms Sub Lv).
  - destruct (getSemesterlyData_run _ _ _ _ Pd) as (o & E & R).
    exists (Object_values o). split; [exact E|].
    apply (bucket_level_counts _ _ _ _ _ _ R ND Ms Sub Lv).
Qed.

Lemma bucket_level_is_day_count_witness :
  let data := ["2023-01-15"; "2024-01-20"; "2024-01-20"; "2024-02-01"]%string in
  let parsed := [mkDate 2023 0 15 0; mkDate 2024 0 20 0; mkDate 2024 0 20 0;
                 mkDate 2024 1 1 0] in
  data <> [] /\ parseAll data = Some parsed /\
  distinctDays (inPeriod (fun d => getMonth d + 1) 1 parsed) = 2 /\
  (exists out, getMonthlyData data = Some out /\ forall b, In b out ->
     level b = distinctDays (inPeriod (fun d => getMonth d + 1) (period b) parsed)).
Proof.
  intros data parsed.
  assert (data <> []) as NE by discriminate.
  assert (parseAll data = Some parsed) as P by reflexivity.
  split; [exact NE|]. split; [exact P|]. split; [reflexivity|].
  apply (bucket_level_is_day_count data parsed NE P).
Defined.

Lemma refines_pairs {B : Type} `{Bucket B} (o : JsObject B) t :
  refines o t -> map (fun b => (period b, level b)) (Object_values o) = t.
Proof.
  intros [<- F]. unfold Object_values, mapValues. rewrite map_map.
  induction F as [|[k v] o HP F IH]; cbn [map fst snd]; [reflexivity|].
  cbn [fst snd] in HP. rewrite HP. f_equal. exact IH.
Qed.

(** X17. [getDailyData] and [getWeeklyData] return the same weeks with
    the same levels, in the same order: the daily buckets are the weekly
    ones, each with the list of its days. *)
Theorem daily_and_weekly_agree (data : list string) (parsed : list Date) :
  data <> [] ->
  parseAll data = Some parsed ->
  exists daily weekly,
    getDailyData data = Some daily /\
    getWeeklyData data = Some weekly /\
    map (fun b => (DailyBucket.week b, DailyBucket.level b)) daily =
    map (fun b => (WeeklyBucket.week b, WeeklyBucket.level b)) weekly.
Proof.
  intros NE P. destruct (Parsed_intro data parsed NE P) as (lo & hi & Pd).
  destruct (getDailyData_run _ _ _ _ Pd) as (od & Ed & Rd).
  destruct (getWeeklyData_run _ _ _ _ Pd) as (ow & Ew & Rw).
  exists (Object_values od), (Object_values ow).
  split; [exact Ed|]. split; [exact Ew|].
  pose proof (refines_pairs od _ Rd) as Pd'. pose proof (refines_pairs ow _ Rw) as Pw'.
  cbn [period level DailyBucket_Bucket WeeklyBucket_Bucket] in Pd', Pw'.
  rewrite Pd', Pw'. reflexivity.
Qed.

Lemma daily_and_weekly_agree_witness :
  let data := ["2024-03-05"; "2023-07-01"]%string in
  data <> [] /\ parseAll data = Some [mkDate 2024 2 5 0; mkDate 2023 6 1 0] /\
  exists daily weekly,
    getDailyData data = Some daily /\
    getWeeklyData data = Some weekly /\
    map (fun b => (DailyBucket.week b, DailyBucket.level b)) daily =
    map (fun b => (WeeklyBucket.week b, WeeklyBucket.level b)) weekly.
Proof.
  intros data. split; [discriminate|]. split; [reflexivity|].
  apply (daily_and_weekly_agree data [mkDate 2024 2 5 0; mkDate 2023 6 1 0]);
    [discriminate|reflexivity].
Defined.

(** ** The buckets, one by one *)

Section BucketSteps.
Context {B : Type}.
Variables (key : Date -> Z) (fresh : Z -> B) (upd : Date -> B -> B).
Implicit Types (o : JsObject B).

Lemma obj_set_set o k (a b : B) : obj_set (obj_set o k a) k b = obj_set o k b.
Proof.
  induction o as [|[k' v'] o IH]; cbn [obj_set].
  - rewrite Z.ltb_irrefl, Z.eqb_refl. reflexivity.
  - destruct (Z.ltb_spec k k') as [L|G]; cbn [obj_set].
    + rewrite Z.ltb_irrefl, Z.eqb_refl. reflexivity.
    + destruct (Z.eqb_spec k k') as [E|N]; cbn [obj_set].
      * rewrite Z.ltb_irrefl, Z.eqb_refl. reflexivity.
      * destruct (Z.ltb_spec k k'); [lia|].
        destruct (Z.eqb_spec k k'); [contradiction|]. rewrite IH. reflexivity.
Qed.

Lemma modify_ensure o k (f : B) (g : B -> B) :
  modify (ensure o k f) k g = obj_set o k (g (getOr o k f)).
Proof.
  unfold modify, ensure, getOr. destruct (obj_get o k) as [v|] eqn:E.
  - rewrite E. reflexivity.
  - rewrite obj_get_set_same. apply obj_set_set.
Qed.

Lemma modify_set o k (v : B) (g : B -> B) :
  modify (obj_set o k v) k g = obj_set o k (g v).
Proof. unfold modify. rewrite obj_get_set_same. apply obj_set_set. Qed.

Lemma getOr_bucketStep d o j :
  getOr (bucketStep key fresh upd d o) j (fresh j) =
  if key d =? j then upd d (getOr o j (fresh j)) else getOr o j (fresh j).
Proof.
  unfold bucketStep, getOr at 1. destruct (Z.eqb_spec (key d) j) as [<-|N].
  - rewrite obj_get_set_same. reflexivity.
  - rewrite obj_get_set_other by congruence. reflexivity.
Qed.

Lemma getOr_steps days o j :
  getOr (fold_left (fun o d => bucketStep key fresh upd d o) days o) j (fresh j) =
  updatesOf key upd j days (getOr o j (fresh j)).
Proof.
  unfold updatesOf. revert o.
  induction days as [|d days IH]; intros o; cbn [fold_left]; [reflexivity|].
  rewrite IH, getOr_bucketStep. reflexivity.
Qed.

Lemma getOr_ensure o k j :
  getOr (ensure o k (fresh k)) j (fresh j) = getOr o j (fresh j).
Proof.
  unfold ensure, getOr. destruct (obj_get o k) eqn:E; [reflexivity|].
  destruct (Z.eq_dec j k) as [->|N].
  - rewrite obj_get_set_same, E. reflexivity.
  - rewrite obj_get_set_other by exact N. reflexivity.
Qed.

Lemma getOr_ensures ks o j :
  getOr (fold_left (fun o k => ensure o k (fresh k)) ks o) j (fresh j) =
  getOr o j (fresh j).
Proof.
  revert o. induction ks as [|k ks IH]; intros o; cbn [fold_left]; [reflexivity|].
  rewrite IH. apply getOr_ensure.
Qed.

Lemma steps_ascending days o :
  ascending (keys o) ->
  ascending (keys (fold_left (fun o d => bucketStep key fresh upd d o) days o)).
Proof.
  revert o. induction days as [|d days IH]; intros o S; cbn [fold_left]; [exact S|].
  apply IH. unfold bucketStep. apply keys_set_ascending, S.
Qed.

Lemma ensures_ascending ks o :
  ascending (keys o) ->
  ascending (keys (fold_left (fun o k => ensure o k (fresh k)) ks o)).
Proof.
  revert o. induction ks as [|k ks IH]; intros o S; cbn [fold_left]; [exact S|].
  apply IH, keys_ensure_ascending, S.
Qed.

(** Each bucket of the result is the fresh bucket of some period,
    updated by the days of that period. *)
Lemma bucket_of_result days ks b :
  In b (Object_values
          (fold_left (fun o k => ensure o k (fresh k)) ks
             (fold_left (fun o d => bucketStep key fresh upd d o) days []))) ->
  exists k, b = updatesOf key upd k days (fresh k).
Proof.
  intros I. unfold Object_values in I. apply in_map_iff in I.
  destruct I as ([k b'] & E & I). cbn [snd] in E. subst b'.
  exists k.
  assert (ascending (@keys B [])) as S0 by constructor.
  apply obj_get_In in I; [|apply ensures_ascending, steps_ascending, S0].
  pose proof (getOr_ensures ks
    (fold_left (fun o d => bucketStep key fresh upd d o) days []) k) as G.
  rewrite getOr_steps in G. unfold getOr at 1 in G. rewrite I in G.
  exact G.
Qed.

End BucketSteps.

Lemma fold_left_pointwise {A S : Type} (f g : S -> A -> S) l s :
  (forall s a, f s a = g s a) -> fold_left f l s = fold_left g l s.
Proof.
  intros E. revert s. induction l as [|a l IH]; intros s; cbn [fold_left];
    [reflexivity|].
  rewrite E. apply IH.
Qed.

Lemma getDailyData_steps data parsed lo hi :
  Parsed data parsed lo hi ->
  getDailyData data =
  Some (Object_values
          (fold_left (fun o week => ensure o week (DailyBucket.mk week 0 []))
             (upTo 1 (getWeek (endOfYear hi)))
             (fold_left
                (fun o d => bucketStep getWeek (fun week => DailyBucket.mk week 0 [])
                              (dailyUpdate data) d o)
                (windowDays lo hi) []))).
Proof.
  intros Pd. unfold getDailyData.
  destruct (Parsed_order _ _ _ _ Pd) as (Vlo & Vhi & L).
  enter_bucketizer Pd. rewrite windowDays_run by assumption.
  do 3 f_equal. apply fold_left_pointwise. intros o d.
  unfold bucketStep, dailyUpdate, dayLevel.
  destruct (someFormatted (s :: data) (format d)); cbn [Z.eqb Pos.eqb].
  - rewrite modify_ensure, modify_set. reflexivity.
  - rewrite modify_ensure. reflexivity.
Qed.

(** The bucket of week [k] after the days [days], for any week number
    [key], level [lvl] and printer [fmt]. *)
Lemma daily_updates_all (key lvl : Date -> Z) (fmt : Date -> string) k days b :
  (forall d, lvl d = 0 \/ lvl d = 1) ->
  updatesOf key
    (fun d b => DailyBucket.mk (DailyBucket.week b) (DailyBucket.level b + lvl d)
                  (if lvl d =? 1 then push (DailyBucket.days b) (fmt d)
                   else DailyBucket.days b)) k days b =
  DailyBucket.mk (DailyBucket.week b)
    (DailyBucket.level b
     + Z.of_nat (List.length (filter (fun d => (key d =? k) && (lvl d =? 1)) days)))
    (DailyBucket.days b
     ++ map fmt (filter (fun d => (key d =? k) && (lvl d =? 1)) days)).
Proof.
  intros Hl. unfold updatesOf. revert b.
  induction days as [|d days IH]; intros [w l ds].
  - cbn. rewrite app_nil_r, Z.add_0_r. reflexivity.
  - cbn [fold_left filter]. rewrite IH. clear IH.
    destruct (key d =? k); cbn [andb]; [|reflexivity].
    cbn [DailyBucket.week DailyBucket.level DailyBucket.days].
    destruct (Hl d) as [E|E]; rewrite E; cbn [Z.eqb Pos.eqb List.length map].
    + f_equal. lia.
    + unfold push. rewrite <- app_assoc. cbn [app]. f_equal. lia.
Qed.

Lemma dailyUpdate_all data k days b :
  updatesOf getWeek (dailyUpdate data) k days b =
  DailyBucket.mk (DailyBucket.week b)
    (DailyBucket.level b
     + Z.of_nat (List.length
         (filter (fun d => (getWeek d =? k) && (dayLevel data d =? 1)) days)))
    (DailyBucket.days b
     ++ map format
          (filter (fun d => (getWeek d =? k) && (dayLevel data d =? 1)) days)).
Proof.
  apply (daily_updates_all getWeek (dayLevel data) format).
  intros d. unfold dayLevel. destruct (someFormatted _ _); auto.
Qed.

(** X18. In the result of [getDailyData] the level of a bucket is the
    length of its list of days; the days of the list are distinct, and they
    are exactly the input strings whose date has the week number of the
    bucket. *)
Theorem daily_bucket_days (data : list string) (parsed : list Date) :
  data <> [] ->
  parseAll data = Some parsed ->
  exists out,
    getDailyData data = Some out /\
    forall b, In b out ->
      DailyBucket.level b = Z.of_nat (List.length (DailyBucket.days b)) /\
      NoDup (DailyBucket.days b) /\
      forall s, In s (DailyBucket.days b) <->
                In s data /\
                exists p, parseISO s = Some p /\ getWeek p = DailyBucket.week b.
Proof.
  intros NE P. destruct (Parsed_intro data parsed NE P) as (lo & hi & Pd).
  rewrite (getDailyData_steps _ _ _ _ Pd). eexists. split; [reflexivity|].
  intros b Ib. apply bucket_of_result in Ib. destruct Ib as (k & ->).
  rewrite dailyUpdate_all.
  cbn [DailyBucket.week DailyBucket.level DailyBucket.days app].
  set (hits := filter (fun d => (getWeek d =? k) && (dayLevel data d =? 1))
                      (windowDays lo hi)).
  assert (forall d, In d hits <-> In d parsed /\ getWeek d = k) as Hits.
  { intros d. unfold hits. rewrite filter_In, andb_true_iff, !Z.eqb_eq. split.
    - intros (I & Ek & El).
      destruct (Parsed_window_day _ _ _ _ d Pd I) as (V & M & Y).
      rewrite (dayLevel_spec data parsed d P V M Y) in El.
      destruct (in_dec Date_eq_dec d parsed); [tauto|discriminate].
    - intros (I & Ek). pose proof (Parsed_in_window _ _ _ _ d Pd I) as Iw.
      destruct (Parsed_window_day _ _ _ _ d Pd Iw) as (V & M & Y).
      rewrite (dayLevel_spec data parsed d P V M Y).
      destruct (in_dec Date_eq_dec d parsed); tauto. }
  split; [rewrite length_map; lia|]. split.
  - apply NoDup_map_NoDup_ForallPairs.
    + intros x y Ix Iy E. apply Hits in Ix, Iy.
      destruct (Parsed_valid _ _ _ _ x Pd (proj1 Ix)) as (Vx & Mx & Yx).
      destruct (Parsed_valid _ _ _ _ y Pd (proj1 Iy)) as (Vy & My & Yy).
      apply format_inj in E; try assumption.
      rewrite (startOfDay_midnight x Mx), (startOfDay_midnight y My) in E. exact E.
    + apply NoDup_filter, daysList_NoDup, startOfYear_spec.
  - intros s. rewrite in_map_iff. split.
    + intros (d & <- & Id). apply Hits in Id. destruct Id as [Ip Ek].
      apply (parseAll_In _ _ d P) in Ip. destruct Ip as (s & Is & Es).
      rewrite (format_parseISO s d Es). split; [exact Is|]. exists d. auto.
    + intros (Is & p & Es & Ek). exists p. split; [apply (format_parseISO s p Es)|].
      apply Hits. split; [|exact Ek]. apply (parseAll_In _ _ p P). exists s. auto.
Qed.

Lemma daily_bucket_days_witness :
  let data := ["2024-01-02"; "2024-01-03"; "2024-01-02"]%string in
  data <> [] /\
  parseAll data = Some [mkDate 2024 0 2 0; mkDate 2024 0 3 0; mkDate 2024 0 2 0] /\
  option_map (filter (fun b => 0 <? DailyBucket.level b)) (getDailyData data) =
    Some [DailyBucket.mk 1 2 ["2024-01-02"; "2024-01-03"]%string] /\
  exists out,
    getDailyData data = Some out /\
    forall b, In b out ->
      DailyBucket.level b = Z.of_nat (List.length (DailyBucket.days b)) /\
      NoDup (DailyBucket.days b) /\
      forall s, In s (DailyBucket.days b) <->
                In s data /\
                exists p, parseISO s = Some p /\ getWeek p = DailyBucket.week b.
Proof.
  intros data. split; [discriminate|]. split; [reflexivity|].
  split; [vm_compute; reflexivity|].
  apply (daily_bucket_days data
           [mkDate 2024 0 2 0; mkDate 2024 0 3 0; mkDate 2024 0 2 0]);
    [discriminate|reflexivity].
Defined.

Lemma getBiWeeklyData_steps data parsed lo hi :
  Parsed data parsed lo hi ->
  getBiWeeklyData data =
  Some (Object_values
          (fold_left
             (fun o biWeek => ensure o biWeek (BiWeeklyBucket.mk biWeek 0 []))
             (upTo 1 (Math_ceil_half (getWeek (endOfYear hi))))
             (fold_left
                (fun o d => bucketStep (fun d => Math_ceil_half (getWeek d))
                              (fun biWeek => BiWeeklyBucket.mk biWeek 0 [])
                              (biWeeklyUpdate data) d o)
                (windowDays lo hi) []))).
Proof.
  intros Pd. unfold getBiWeeklyData.
  destruct (Parsed_order _ _ _ _ Pd) as (Vlo & Vhi & L).
  enter_bucketizer Pd. rewrite windowDays_run by assumption.
  do 3 f_equal. apply fold_left_pointwise. intros o d.
  unfold bucketStep, biWeeklyUpdate, dayLevelSameDay.
  rewrite modify_ensure, modify_set. f_equal.
  cbn [BiWeeklyBucket.biWeek BiWeeklyBucket.level BiWeeklyBucket.weeks].
  destruct (someSameDay (s :: data) d); cbn [Z.eqb Pos.eqb andb];
    [|reflexivity].
  destruct (includes _ _); reflexivity.
Qed.

Lemma includes_In l x : includes l x = true <-> In x l.
Proof.
  unfold includes. rewrite existsb_exists. split.
  - intros (y & I & E). apply Z.eqb_eq in E. subst y. exact I.
  - intros I. exists x. split; [exact I|apply Z.eqb_refl].
Qed.

Lemma NoDup_push {A : Type} (l : list A) x : NoDup l -> ~ In x l -> NoDup (push l x).
Proof.
  intros ND N. unfold push. apply NoDup_app; [exact ND|repeat constructor; intros []|].
  intros y Iy [<-|[]]. exact (N Iy).
Qed.

Section BiWeeklyUpdates.
Variables (key wk lvl : Date -> Z).
Hypothesis lvl01 : forall d, lvl d = 0 \/ lvl d = 1.

Local Abbreviation upd :=
  (fun d b => BiWeeklyBucket.mk (BiWeeklyBucket.biWeek b)
                (BiWeeklyBucket.level b + lvl d)
                (if (lvl d =? 1) && negb (includes (BiWeeklyBucket.weeks b) (wk d))
                 then push (BiWeeklyBucket.weeks b) (wk d)
                 else BiWeeklyBucket.weeks b)).

(** The bucket of bi-week [k] after the days [days]. *)
Lemma biweekly_updates_all k days b :
  let b' := updatesOf key upd k days b in
  let hits := filter (fun d => (key d =? k) && (lvl d =? 1)) days in
  BiWeeklyBucket.biWeek b' = BiWeeklyBucket.biWeek b /\
  BiWeeklyBucket.level b' = BiWeeklyBucket.level b + Z.of_nat (List.length hits) /\
  (NoDup (BiWeeklyBucket.weeks b) -> NoDup (BiWeeklyBucket.weeks b')) /\
  (forall w, In w (BiWeeklyBucket.weeks b') <->
             In w (BiWeeklyBucket.weeks b) \/ In w (map wk hits)).
Proof.
  unfold updatesOf. revert b.
  induction days as [|d days IH]; intros [j l ws]; cbn zeta.
  - cbn. split; [reflexivity|]. split; [lia|]. split; [auto|]. tauto.
  - cbn [fold_left filter]. cbn zeta in IH.
    destruct (key d =? k); cbn [andb]; [|apply IH].
    cbn [BiWeeklyBucket.biWeek BiWeeklyBucket.level BiWeeklyBucket.weeks].
    destruct (lvl01 d) as [E|E]; rewrite E; cbn [Z.eqb Pos.eqb andb].
    + destruct (IH (BiWeeklyBucket.mk j (l + 0) ws)) as (A & B & C & D).
      cbn [BiWeeklyBucket.biWeek BiWeeklyBucket.level BiWeeklyBucket.weeks]
        in A, B, C, D.
      split; [exact A|]. split; [lia|]. split; [exact C|exact D].
    + destruct (includes ws (wk d)) eqn:Inc; cbn [negb].
      * destruct (IH (BiWeeklyBucket.mk j (l + 1) ws)) as (A & B & C & D).
        cbn [BiWeeklyBucket.biWeek BiWeeklyBucket.level BiWeeklyBucket.weeks]
          in A, B, C, D.
        apply includes_In in Inc.
        split; [exact A|]. split; [cbn [List.length]; lia|]. split; [exact C|].
        intros w. rewrite D. cbn [map In]. split; [tauto|].
        intros [I|[<-|I]]; auto.
      * destruct (IH (BiWeeklyBucket.mk j (l + 1) (push ws (wk d))))
          as (A & B & C & D).
        cbn [BiWeeklyBucket.biWeek BiWeeklyBucket.level BiWeeklyBucket.weeks]
          in A, B, C, D.
        assert (~ In (wk d) ws) as N
          by (intros I; apply includes_In in I; congruence).
        split; [exact A|]. split; [cbn [List.length]; lia|].
        split; [intros ND; apply C, NoDup_push; assumption|].
        intros w. rewrite D. unfold push. rewrite in_app_iff. cbn [map In].
        tauto.
Qed.

End BiWeeklyUpdates.

Lemma Math_ceil_half_weeks w k : Math_ceil_half w = k -> w = 2 * k - 1 \/ w = 2 * k.
Proof. unfold Math_ceil_half. Z.to_euclidean_division_equations; lia. Qed.

(** X19. In the result of [getBiWeeklyData] the list [weeks] of a bucket
    holds, without repetition, exactly the week numbers of that bi-week in
    which some input date falls; it has at most two entries, and it is
    empty exactly when the level of the bucket is 0. *)
Theorem biweekly_bucket_weeks (data : list string) (parsed : list Date) :
  data <> [] ->
  parseAll data = Some parsed ->
  exists out,
    getBiWeeklyData data = Some out /\
    forall b, In b out ->
      NoDup (BiWeeklyBucket.weeks b) /\
      (List.length (BiWeeklyBucket.weeks b) <= 2)%nat /\
      (BiWeeklyBucket.weeks b = [] <-> BiWeeklyBucket.level b = 0) /\
      forall w, In w (BiWeeklyBucket.weeks b) <->
                Math_ceil_half w = BiWeeklyBucket.biWeek b /\
                exists s p, In s data /\ parseISO s = Some p /\ getWeek p = w.
Proof.
  intros NE P. destruct (Parsed_intro data parsed NE P) as (lo & hi & Pd).
  rewrite (getBiWeeklyData_steps _ _ _ _ Pd). eexists. split; [reflexivity|].
  intros b Ib. apply bucket_of_result in Ib. destruct Ib as (k & ->).
  assert (forall d, dayLevelSameDay data d = 0 \/ dayLevelSameDay data d = 1) as L01
    by (intros d; unfold dayLevelSameDay; destruct (someSameDay _ _); auto).
  pose proof (biweekly_updates_all (fun d => Math_ceil_half (getWeek d)) getWeek
                (dayLevelSameDay data) L01 k (windowDays lo hi)
                (BiWeeklyBucket.mk k 0 [])) as U.
  cbn zeta in U.
  cbn [BiWeeklyBucket.biWeek BiWeeklyBucket.level BiWeeklyBucket.weeks] in U.
  fold (biWeeklyUpdate data) in U.
  set (hits := filter (fun d => (Math_ceil_half (getWeek d) =? k)
                                && (dayLevelSameDay data d =? 1))
                      (windowDays lo hi)) in U.
  set (b := updatesOf _ (biWeeklyUpdate data) k (windowDays lo hi) _) in *.
  destruct U as (Uk & Ul & Un & Uw).
  assert (forall d, In d hits <-> In d parsed /\ Math_ceil_half (getWeek d) = k)
    as Hits.
  { intros d. unfold hits. rewrite filter_In, andb_true_iff, !Z.eqb_eq. split.
    - intros (I & Ek & El).
      destruct (Parsed_window_day _ _ _ _ d Pd I) as (V & M & Y).
      rewrite (dayLevelSameDay_spec data parsed d P V M) in El.
      destruct (in_dec Date_eq_dec d parsed); [tauto|discriminate].
    - intros (I & Ek). pose proof (Parsed_in_window _ _ _ _ d Pd I) as Iw.
      destruct (Parsed_window_day _ _ _ _ d Pd Iw) as (V & M & Y).
      rewrite (dayLevelSameDay_spec data parsed d P V M).
      destruct (in_dec Date_eq_dec d parsed); tauto. }
  assert (forall w, In w (BiWeeklyBucket.weeks b) <->
                    Math_ceil_half w = BiWeeklyBucket.biWeek b /\
                    exists s p, In s data /\ parseISO s = Some p /\ getWeek p = w)
    as Weeks.
  { intros w. rewrite Uw, Uk, in_map_iff. cbn [In]. split.
    - intros [[]|(d & <- & Id)]. apply Hits in Id. destruct Id as [Ip Ek].
      split; [exact Ek|]. apply (parseAll_In _ _ d P) in Ip.
      destruct Ip as (s & Is & Es). exists s, d. auto.
    - intros (Ek & s & p & Is & Es & Ew). right. exists p. split; [exact Ew|].
      apply Hits. split; [|rewrite Ew; exact Ek].
      apply (parseAll_In _ _ p P). exists s. auto. }
  assert (NoDup (BiWeeklyBucket.weeks b)) as ND by (apply Un; constructor).
  split; [exact ND|]. split; [|split; [|exact Weeks]].
  - apply (NoDup_incl_length (l' := [2 * k - 1; 2 * k]) ND).
    intros w Iw. apply Weeks in Iw. destruct Iw as [Ek _]. rewrite Uk in Ek.
    cbn [In]. destruct (Math_ceil_half_weeks w k Ek); auto.
  - rewrite Ul. split.
    + intros E. destruct hits as [|d hits'] eqn:Eh; [reflexivity|].
      assert (In (getWeek d) (BiWeeklyBucket.weeks b)) as I
        by (apply Uw; right; cbn [map In]; auto).
      rewrite E in I. destruct I.
    + intros E. destruct hits as [|d hits'] eqn:Eh; [|cbn [List.length] in E; lia].
      destruct (BiWeeklyBucket.weeks b) as [|w ws] eqn:Ew; [reflexivity|].
      assert (In w (w :: ws)) as I by (left; reflexivity).
      apply Uw in I. destruct I as [[]|[]].
Qed.

Lemma biweekly_bucket_weeks_witness :
  let data := ["2024-01-02"; "2024-01-09"; "2024-01-03"; "2024-02-01"]%string in
  data <> [] /\
  parseAll data = Some [mkDate 2024 0 2 0; mkDate 2024 0 9 0; mkDate 2024 0 3 0;
                        mkDate 2024 1 1 0] /\
  option_map (filter (fun b => 0 <? BiWeeklyBucket.level b)) (getBiWeeklyData data) =
    Some [BiWeeklyBucket.mk 1 3 [1; 2]; BiWeeklyBucket.mk 3 1 [5]] /\
  exists out,
    getBiWeeklyData data = Some out /\
    forall b, In b out ->
      NoDup (BiWeeklyBucket.weeks b) /\
      (List.length (BiWeeklyBucket.weeks b) <= 2)%nat /\
      (BiWeeklyBucket.weeks b = [] <-> BiWeeklyBucket.level b = 0) /\
      forall w, In w (BiWeeklyBucket.weeks b) <->
                Math_ceil_half w = BiWeeklyBucket.biWeek b /\
                exists s p, In s data /\ parseISO s = Some p /\ getWeek p = w.
Proof.
  intros data. split; [discriminate|]. split; [reflexivity|].
  split; [vm_compute; reflexivity|].
  apply (biweekly_bucket_weeks data
           [mkDate 2024 0 2 0; mkDate 2024 0 9 0; mkDate 2024 0 3 0;
            mkDate 2024 1 1 0]);
    [discriminate|reflexivity].
Defined.

(** ** The yearly buckets and daylight saving *)

(** X20. In the result of [getYearlyData], in every zone, the level of a
    bucket is the number of distinct input days of its year, or one less:
    the loop can miss no day but that of the latest date, so that the
    count is exact for every year but the year of the latest date; and it
    is exact for all years in a zone that answers every time asked for with
    that time. *)
Theorem yearly_level_is_day_count (zone : Zone) (data : list string)
    (parsed : list Date) (hi : Date) :
  Zone_ok zone ->
  data <> [] ->
  parseAll data = Some parsed ->
  reduce later parsed = Some hi ->
  exists out,
    getYearlyData zone data = Some out /\
    forall b, In b out ->
      distinctDays (inPeriod getYear (period b) parsed) - 1 <= level b /\
      level b <= distinctDays (inPeriod getYear (period b) parsed) /\
      (period b <> getYear hi ->
       level b = distinctDays (inPeriod getYear (period b) parsed)) /\
      ((forall d, zone d = d) ->
       level b = distinctDays (inPeriod getYear (period b) parsed)).
Proof.
  intros Zok NE P Hhi.
  destruct (Parsed_intro data parsed NE P) as (lo & hi' & Pd).
  assert (hi' = hi) as -> by (pose proof (parsed_hi _ _ _ _ Pd); congruence).
  destruct (Parsed_order _ _ _ _ Pd) as (Vlo & Vhi & L).
  destruct (Parsed_valid _ _ _ _ hi Pd (parsed_hi_in _ _ _ _ Pd)) as (_ & Mhi & _).
  destruct (getYearlyData_visits zone _ _ _ _ Zok Pd)
    as (out & last & E & Vl & Ml & Nl & Cases & Zid & Years & Levels).
  exists out. split; [exact E|]. intros b Ib. rewrite (Levels b Ib).
  set (seen := filter (fun p => dayNumber p <=? dayNumber last) parsed).
  assert (forall l, incl l parsed -> Forall (fun d => msOfDay d = 0) l) as Ms.
  { intros l I. apply Forall_forall. intros p Ip.
    apply (Parsed_valid _ _ _ _ p Pd (I p Ip)). }
  assert (incl seen parsed) as Sub
    by (intros p Ip; apply filter_In in Ip; tauto).
  assert (forall j l, incl (inPeriod getYear j l) l) as SubP
    by (intros j l p Ip; apply filter_In in Ip; tauto).
  assert (forall p, In p parsed -> In p seen \/ p = hi) as Missed.
  { intros p Ip. destruct (Z.leb_spec (dayNumber p) (dayNumber last)) as [Le|Gt].
    - left. apply filter_In. split; [exact Ip|]. apply Z.leb_le. exact Le.
    - right. destruct (Parsed_valid _ _ _ _ p Pd Ip) as (Vp & Mp & _).
      pose proof (parsed_between _ _ _ _ Pd p Ip).
      destruct Cases as [->|Eq]; [lia|].
      apply dayNumber_inj; auto; lia. }
  assert (incl (inPeriod getYear (period b) seen)
               (inPeriod getYear (period b) parsed)) as Up.
  { intros p Ip. apply filter_In in Ip. apply filter_In.
    split; [apply Sub|]; tauto. }
  assert (distinctDays (inPeriod getYear (period b) seen)
          <= distinctDays (inPeriod getYear (period b) parsed)) as Le
    by (apply distinctDays_incl;
        [apply Ms; intros p Ip; apply Sub, (SubP _ _ p Ip)
        |apply Ms, SubP|exact Up]).
  assert ((forall p, In p parsed -> getYear p = period b -> In p seen) ->
          distinctDays (inPeriod getYear (period b) seen)
          = distinctDays (inPeriod getYear (period b) parsed)) as Exact.
  { intros All. apply Z.le_antisymm; [exact Le|].
    apply distinctDays_incl;
      [apply Ms, SubP|apply Ms; intros p Ip; apply Sub, (SubP _ _ p Ip)|].
    intros p Ip. apply filter_In in Ip. destruct Ip as [Ip Ey].
    apply filter_In. split; [|exact Ey]. apply All; [exact Ip|].
    apply Z.eqb_eq. exact Ey. }
  split; [|split; [exact Le|split]].
  - assert (distinctDays (inPeriod getYear (period b) parsed)
            <= distinctDays (inPeriod getYear (period b) seen) + 1); [|lia].
    apply (distinctDays_but_one _ _ hi);
      [apply Ms, SubP|apply Ms; intros p Ip; apply Sub, (SubP _ _ p Ip)|].
    intros p Ip. apply filter_In in Ip. destruct Ip as [Ip Ey].
    destruct (Missed p Ip) as [Sn | ->]; [right|left; reflexivity].
    apply filter_In. auto.
  - intros Ny. apply Exact. intros p Ip Ey.
    destruct (Missed p Ip) as [Sn | ->]; [exact Sn|congruence].
  - intros Hz. apply Exact. intros p Ip _.
    apply filter_In. split; [exact Ip|]. apply Z.leb_le.
    rewrite (Zid Hz). apply (parsed_between _ _ _ _ Pd p Ip).
Qed.

Lemma yearly_level_is_day_count_witness :
  let data := ["2020-06-01"; "2022-05-31"; "2022-06-01"]%string in
  let parsed := [mkDate 2020 5 1 0; mkDate 2022 4 31 0; mkDate 2022 5 1 0] in
  Zone_ok midnightSkips /\
  data <> [] /\ parseAll data = Some parsed /\
  reduce later parsed = Some (mkDate 2022 5 1 0) /\
  distinctDays (inPeriod getYear 2022 parsed) = 2 /\
  getYearlyData midnightSkips data =
    Some [YearlyBucket.mk 2020 1; YearlyBucket.mk 2021 0; YearlyBucket.mk 2022 1] /\
  exists out,
    getYearlyData midnightSkips data = Some out /\
    forall b, In b out ->
      distinctDays (inPeriod getYear (period b) parsed) - 1 <= level b /\
      level b <= distinctDays (inPeriod getYear (period b) parsed) /\
      (period b <> 2022 ->
       level b = distinctDays (inPeriod getYear (period b) parsed)) /\
      ((forall d, midnightSkips d = d) ->
       level b = distinctDays (inPeriod getYear (period b) parsed)).
Proof.
  intros data parsed.
  assert (Zone_ok midnightSkips) as Zok
    by (apply skipsMidnight_ok; unfold MS_IN_DAY; lia).
  split; [exact Zok|].
  split; [discriminate|]. split; [reflexivity|]. split; [reflexivity|].
  split; [reflexivity|]. split; [vm_compute; reflexivity|].
  apply (yearly_level_is_day_count midnightSkips data parsed
           (mkDate 2022 5 1 0) Zok);
    [discriminate|reflexivity|reflexivity].
Defined.
